(** * MarketOps authorization kernel: receipts, binding validation, proof chain

    A shallow embedding of
      - federation_core_receipt_generator.py  (module [FC])
      - github_publisher_phase2.py            (module [Publisher])
      - END_TO_END_PROOF_GENERATOR.py         (module [ProofGen])
    together with the pieces of the Python runtime they call (module [Py]):
    [str.encode], [hashlib.sha256], [hashlib.md5], [hmac.new], [repr],
    [json.dumps] and [datetime].

    Python [str] values are represented by the byte string of their UTF-8
    encoding, so that [s.encode()] is the identity on the representation. *)

From Stdlib Require Import ZArith List String Ascii Bool Lia.
From stdpp Require Import base option list gmap strings sorting.
Import ListNotations.

Local Open Scope string_scope.
Local Open Scope list_scope.
Local Open Scope Z_scope.

(* ================================================================== *)
(** * Python runtime                                                   *)
(* ================================================================== *)

Module Py.

(** ** Bytes and hexadecimal digests *)

Definition byte_of_ascii (c : ascii) : Z := Z.of_N (N_of_ascii c).

Definition ascii_of_byte (b : Z) : ascii := ascii_of_N (Z.to_N (Z.land b 255)).

(** [s.encode()]: the bytes of a string. *)
Fixpoint encode (s : string) : list Z :=
  match s with
  | EmptyString => []
  | String c t => byte_of_ascii c :: encode t
  end.

Definition hexdigit (n : Z) : ascii :=
  match Z.land n 15 with
  | 0 => "0" | 1 => "1" | 2 => "2" | 3 => "3" | 4 => "4" | 5 => "5"
  | 6 => "6" | 7 => "7" | 8 => "8" | 9 => "9" | 10 => "a" | 11 => "b"
  | 12 => "c" | 13 => "d" | 14 => "e" | _ => "f"
  end%char.

(** [bytes.hex()]: two lowercase digits per byte. *)
Fixpoint hexlify (l : list Z) : string :=
  match l with
  | [] => ""
  | b :: t => String (hexdigit (Z.shiftr b 4)) (String (hexdigit b) (hexlify t))
  end.

(** ** 32-bit words *)

Definition w32 (x : Z) : Z := Z.land x 4294967295.
Definition not32 (x : Z) : Z := Z.lxor (w32 x) 4294967295.
Definition rotr (n x : Z) : Z :=
  w32 (Z.lor (Z.shiftr (w32 x) n) (Z.shiftl (w32 x) (32 - n))).
Definition rotl (n x : Z) : Z :=
  w32 (Z.lor (Z.shiftl (w32 x) n) (Z.shiftr (w32 x) (32 - n))).

(** Big- and little-endian byte strings of a word. *)
Definition be_bytes4 (x : Z) : list Z :=
  [Z.land (Z.shiftr x 24) 255; Z.land (Z.shiftr x 16) 255;
   Z.land (Z.shiftr x 8) 255; Z.land x 255].

Definition le_bytes4 (x : Z) : list Z :=
  [Z.land x 255; Z.land (Z.shiftr x 8) 255;
   Z.land (Z.shiftr x 16) 255; Z.land (Z.shiftr x 24) 255].

Definition be_bytes8 (x : Z) : list Z :=
  be_bytes4 (Z.shiftr x 32) ++ be_bytes4 x.

Definition le_bytes8 (x : Z) : list Z :=
  le_bytes4 x ++ le_bytes4 (Z.shiftr x 32).

Fixpoint be_words (l : list Z) : list Z :=
  match l with
  | a :: b :: c :: d :: t =>
      Z.lor (Z.shiftl a 24) (Z.lor (Z.shiftl b 16) (Z.lor (Z.shiftl c 8) d))
      :: be_words t
  | _ => []
  end.

Fixpoint le_words (l : list Z) : list Z :=
  match l with
  | a :: b :: c :: d :: t =>
      Z.lor (Z.shiftl d 24) (Z.lor (Z.shiftl c 16) (Z.lor (Z.shiftl b 8) a))
      :: le_words t
  | _ => []
  end.

(** Blocks of sixteen words; the fuel is the number of words. *)
Fixpoint blocks16 (fuel : nat) (l : list Z) : list (list Z) :=
  match fuel with
  | O => []
  | S f =>
      match l with
      | [] => []
      | _ => firstn 16 l :: blocks16 f (skipn 16 l)
      end
  end.

(** Zero bytes that bring [len + 1 + 8] to a multiple of 64. *)
Definition pad_zeros (len : Z) : list Z :=
  repeat 0 (Z.to_nat ((55 - len) mod 64)).

(** ** SHA-256 (FIPS 180-4) *)

Definition sha256_K : list Z :=
  [1116352408; 1899447441; 3049323471; 3921009573; 961987163; 1508970993;
   2453635748; 2870763221; 3624381080; 310598401; 607225278; 1426881987;
   1925078388; 2162078206; 2614888103; 3248222580; 3835390401; 4022224774;
   264347078; 604807628; 770255983; 1249150122; 1555081692; 1996064986;
   2554220882; 2821834349; 2952996808; 3210313671; 3336571891; 3584528711;
   113926993; 338241895; 666307205; 773529912; 1294757372; 1396182291;
   1695183700; 1986661051; 2177026350; 2456956037; 2730485921; 2820302411;
   3259730800; 3345764771; 3516065817; 3600352804; 4094571909; 275423344;
   430227734; 506948616; 659060556; 883997877; 958139571; 1322822218;
   1537002063; 1747873779; 1955562222; 2024104815; 2227730452; 2361852424;
   2428436474; 2756734187; 3204031479; 3329325298].

Definition sha_state : Type := (Z * Z * Z * Z * Z * Z * Z * Z)%type.

Definition sha256_H0 : sha_state :=
  (1779033703, 3144134277, 1013904242, 2773480762,
   1359893119, 2600822924, 528734635, 1541459225).

Definition Ch (x y z : Z) : Z := Z.lxor (Z.land x y) (Z.land (not32 x) z).
Definition Maj (x y z : Z) : Z :=
  Z.lxor (Z.lxor (Z.land x y) (Z.land x z)) (Z.land y z).
Definition bsig0 (x : Z) : Z := Z.lxor (Z.lxor (rotr 2 x) (rotr 13 x)) (rotr 22 x).
Definition bsig1 (x : Z) : Z := Z.lxor (Z.lxor (rotr 6 x) (rotr 11 x)) (rotr 25 x).
Definition ssig0 (x : Z) : Z := Z.lxor (Z.lxor (rotr 7 x) (rotr 18 x)) (Z.shiftr x 3).
Definition ssig1 (x : Z) : Z := Z.lxor (Z.lxor (rotr 17 x) (rotr 19 x)) (Z.shiftr x 10).

(** One round; [win] is the sliding window w_i .. w_{i+15} of the message
    schedule. *)
Definition sha_round (acc : sha_state * list Z) (k : Z) : sha_state * list Z :=
  let '((a, b, c, d, e, f, g, h), win) := acc in
  let w := nth 0 win 0 in
  let t1 := w32 (h + bsig1 e + Ch e f g + k + w) in
  let t2 := w32 (bsig0 a + Maj a b c) in
  let wn := w32 (ssig1 (nth 14 win 0) + nth 9 win 0 + ssig0 (nth 1 win 0) + w) in
  ((w32 (t1 + t2), a, b, c, w32 (d + t1), e, f, g), tl win ++ [wn]).

Definition sha_compress (st : sha_state) (block : list Z) : sha_state :=
  let '(a0, b0, c0, d0, e0, f0, g0, h0) := st in
  let '(a, b, c, d, e, f, g, h) := fst (fold_left sha_round sha256_K (st, block)) in
  (w32 (a0 + a), w32 (b0 + b), w32 (c0 + c), w32 (d0 + d),
   w32 (e0 + e), w32 (f0 + f), w32 (g0 + g), w32 (h0 + h)).

Definition sha256_pad (m : list Z) : list Z :=
  let len := Z.of_nat (length m) in
  m ++ [128] ++ pad_zeros len ++ be_bytes8 (8 * len).

Definition sha256_state (m : list Z) : sha_state :=
  let ws := be_words (sha256_pad m) in
  fold_left sha_compress (blocks16 (length ws) ws) sha256_H0.

Definition sha_digest (st : sha_state) : list Z :=
  let '(a, b, c, d, e, f, g, h) := st in
  be_bytes4 a ++ be_bytes4 b ++ be_bytes4 c ++ be_bytes4 d ++
  be_bytes4 e ++ be_bytes4 f ++ be_bytes4 g ++ be_bytes4 h.

(** [hashlib.sha256(m).digest()] *)
Definition sha256 (m : list Z) : list Z := sha_digest (sha256_state m).

(** [hashlib.sha256(m).hexdigest()] *)
Definition sha256_hex (m : list Z) : string := hexlify (sha256 m).

(** ** MD5 (RFC 1321) *)

Definition md5_K : list Z :=
  [3614090360; 3905402710; 606105819; 3250441966; 4118548399; 1200080426;
   2821735955; 4249261313; 1770035416; 2336552879; 4294925233; 2304563134;
   1804603682; 4254626195; 2792965006; 1236535329; 4129170786; 3225465664;
   643717713; 3921069994; 3593408605; 38016083; 3634488961; 3889429448;
   568446438; 3275163606; 4107603335; 1163531501; 2850285829; 4243563512;
   1735328473; 2368359562; 4294588738; 2272392833; 1839030562; 4259657740;
   2763975236; 1272893353; 4139469664; 3200236656; 681279174; 3936430074;
   3572445317; 76029189; 3654602809; 3873151461; 530742520; 3299628645;
   4096336452; 1126891415; 2878612391; 4237533241; 1700485571; 2399980690;
   4293915773; 2240044497; 1873313359; 4264355552; 2734768916; 1309151649;
   4149444226; 3174756917; 718787259; 3951481745].

Definition md5_S : list Z :=
  [7; 12; 17; 22; 7; 12; 17; 22; 7; 12; 17; 22; 7; 12; 17; 22;
   5; 9; 14; 20; 5; 9; 14; 20; 5; 9; 14; 20; 5; 9; 14; 20;
   4; 11; 16; 23; 4; 11; 16; 23; 4; 11; 16; 23; 4; 11; 16; 23;
   6; 10; 15; 21; 6; 10; 15; 21; 6; 10; 15; 21; 6; 10; 15; 21].

Definition md5_state : Type := (Z * Z * Z * Z)%type.

Definition md5_H0 : md5_state := (1732584193, 4023233417, 2562383102, 271733878).

Definition md5_step (M : list Z) (acc : md5_state * Z) (ks : Z * Z)
  : md5_state * Z :=
  let '((a, b, c, d), i) := acc in
  let '(k, s) := ks in
  let '(f, g) :=
    if i <? 16 then (Z.lor (Z.land b c) (Z.land (not32 b) d), i)
    else if i <? 32 then (Z.lor (Z.land d b) (Z.land (not32 d) c), (5 * i + 1) mod 16)
    else if i <? 48 then (Z.lxor (Z.lxor b c) d, (3 * i + 5) mod 16)
    else (Z.lxor c (Z.lor b (not32 d)), (7 * i) mod 16) in
  let f' := w32 (f + a + k + nth (Z.to_nat g) M 0) in
  ((d, w32 (b + rotl s f'), b, c), i + 1).

Definition md5_compress (st : md5_state) (block : list Z) : md5_state :=
  let '(a0, b0, c0, d0) := st in
  let '(a, b, c, d) :=
    fst (fold_left (md5_step block) (combine md5_K md5_S) (st, 0)) in
  (w32 (a0 + a), w32 (b0 + b), w32 (c0 + c), w32 (d0 + d)).

Definition md5_pad (m : list Z) : list Z :=
  let len := Z.of_nat (length m) in
  m ++ [128] ++ pad_zeros len ++ le_bytes8 (8 * len).

Definition md5_final (m : list Z) : md5_state :=
  let ws := le_words (md5_pad m) in
  fold_left md5_compress (blocks16 (length ws) ws) md5_H0.

Definition md5_digest (st : md5_state) : list Z :=
  let '(a, b, c, d) := st in
  le_bytes4 a ++ le_bytes4 b ++ le_bytes4 c ++ le_bytes4 d.

(** [hashlib.md5(m).hexdigest()] *)
Definition md5_hex (m : list Z) : string := hexlify (md5_digest (md5_final m)).

(** ** HMAC-SHA-256 (RFC 2104), as [hmac.new(key, msg, hashlib.sha256)] *)

Definition hmac_key_block (key : list Z) : list Z :=
  let k0 := if (64 <? length key)%nat then sha256 key else key in
  k0 ++ repeat 0 (64 - length k0)%nat.

Definition hmac_sha256 (key msg : list Z) : list Z :=
  let k := hmac_key_block key in
  sha256 (map (Z.lxor 92) k ++ sha256 (map (Z.lxor 54) k ++ msg)).

Definition hmac_sha256_hex (key msg : list Z) : string :=
  hexlify (hmac_sha256 key msg).

(** ** Text *)

(** The double-quote character. *)
Definition dquote : ascii := "034"%char.

Fixpoint join (sep : string) (l : list string) : string :=
  match l with
  | [] => ""
  | [x] => x
  | x :: t => x +:+ sep +:+ join sep t
  end.

(** [s[:n]] *)
Fixpoint take (n : nat) (s : string) : string :=
  match n, s with
  | S k, String c t => String c (take k t)
  | _, _ => ""
  end.

(** [s.startswith(p)] *)
Fixpoint startswith (p s : string) : bool :=
  match p, s with
  | EmptyString, _ => true
  | String a p', String b s' => Ascii.eqb a b && startswith p' s'
  | String _ _, EmptyString => false
  end.

(** [p in s] *)
Fixpoint contains (p s : string) : bool :=
  startswith p s ||
  match s with
  | EmptyString => false
  | String _ t => contains p t
  end.

(** [s.split(sep)] for a non-empty separator: leftmost, non-overlapping
    occurrences.  [skip] counts the characters of a separator that was just
    matched and is still being passed over. *)
Fixpoint split_go (sep : string) (skip : nat) (cur : string) (s : string)
  : list string :=
  match s with
  | EmptyString => [cur]
  | String c t =>
      match skip with
      | S k => split_go sep k cur t
      | O =>
          if startswith sep s
          then cur :: split_go sep (String.length sep - 1) "" t
          else split_go sep 0 (cur +:+ String c "") t
      end
  end.

Definition split (sep s : string) : list string := split_go sep 0 "" s.

Definition is_ascii (s : string) : bool :=
  forallb (fun b => b <? 128) (encode s).

(** Decimal digits. *)
Definition digit_char (n : Z) : ascii := ascii_of_byte (48 + n mod 10).

Fixpoint dec_go (fuel : nat) (n : Z) (acc : string) : string :=
  match fuel with
  | O => acc
  | S f =>
      let acc' := String (digit_char n) acc in
      if n <? 10 then acc' else dec_go f (n / 10) acc'
  end.

(** [str(n)] for an integer. *)
Definition str_int (z : Z) : string :=
  let n := Z.abs z in
  let d := dec_go (S (Z.to_nat (Z.log2 n))) n "" in
  if z <? 0 then String "-" d else d.

(** ["%02d"], ["%04d"] and ["%06d"] on numbers within their width. *)
Definition pad2 (n : Z) : string :=
  String (digit_char (n / 10)) (String (digit_char n) "").
Definition pad4 (n : Z) : string := pad2 (n / 100) +:+ pad2 n.
Definition pad6 (n : Z) : string := pad2 (n / 10000) +:+ pad4 n.

(** The part of the string runtime that depends on the Unicode database or
    on [fnmatch]'s translation to a regular expression is an interface. *)
Class StrRuntime := {
  (** [s.strip()] *)
  strip : string -> string;
  (** [int(s)]; [None] where Python raises [ValueError] *)
  int_of_str : string -> option Z;
  (** [fnmatch.fnmatch(text, pattern)] *)
  fnmatch : string -> string -> bool
}.

(** An instance for ASCII text: it agrees with CPython on strings whose
    characters are all ASCII and, for [fnmatch], on patterns without bracket
    expressions. *)
Definition is_space (c : ascii) : bool :=
  let b := byte_of_ascii c in
  ((9 <=? b) && (b <=? 13)) || ((28 <=? b) && (b <=? 32)).

Fixpoint lstrip (s : string) : string :=
  match s with
  | String c t => if is_space c then lstrip t else s
  | EmptyString => ""
  end.

Fixpoint rstrip (s : string) : string :=
  match s with
  | EmptyString => ""
  | String c t =>
      match rstrip t with
      | EmptyString => if is_space c then "" else String c ""
      | t' => String c t'
      end
  end.

Definition is_digit (c : ascii) : bool :=
  let b := byte_of_ascii c in (48 <=? b) && (b <=? 57).

(** Digits with single underscores between them. *)
Fixpoint parse_digits (s : string) (acc : Z) (after_digit : bool) : option Z :=
  match s with
  | EmptyString => if after_digit then Some acc else None
  | String c t =>
      if is_digit c then parse_digits t (10 * acc + (byte_of_ascii c - 48)) true
      else if Ascii.eqb c "_" && after_digit then parse_digits t acc false
      else None
  end.

Definition ascii_int (s : string) : option Z :=
  match rstrip (lstrip s) with
  | String "-" t => option_map Z.opp (parse_digits t 0 false)
  | String "+" t => parse_digits t 0 false
  | t => parse_digits t 0 false
  end.

Fixpoint glob (p s : string) : bool :=
  match p with
  | EmptyString => match s with EmptyString => true | _ => false end
  | String "*" p' =>
      (fix star (s : string) : bool :=
         glob p' s || match s with
                      | EmptyString => false
                      | String _ t => star t
                      end) s
  | String "?" p' => match s with String _ t => glob p' t | _ => false end
  | String c p' =>
      match s with
      | String d t => Ascii.eqb c d && glob p' t
      | _ => false
      end
  end.

Definition ascii_runtime : StrRuntime :=
  {| strip := fun s => rstrip (lstrip s);
     int_of_str := ascii_int;
     fnmatch := fun text pattern => glob pattern text |}.

(** ** datetime *)

(** A [datetime] is the number of microseconds since 1970-01-01T00:00:00 on
    the UTC wall clock; a [timedelta] is a number of microseconds. *)
Definition datetime : Type := Z.
Definition timedelta : Type := Z.

Definition timedelta_hours (h : Z) : timedelta := h * 3600000000.

Definition us_per_day : Z := 86400000000.

(** Proleptic Gregorian date of a day count (days since 1970-01-01). *)
Definition civil_from_days (days : Z) : Z * Z * Z :=
  let z := days + 719468 in
  let era := z / 146097 in
  let doe := z - era * 146097 in
  let yoe := (doe - doe / 1460 + doe / 36524 - doe / 146096) / 365 in
  let doy := doe - (365 * yoe + yoe / 4 - yoe / 100) in
  let mp := (5 * doy + 2) / 153 in
  let d := doy - (153 * mp + 2) / 5 + 1 in
  let m := if mp <? 10 then mp + 3 else mp - 9 in
  let y := yoe + era * 400 + (if m <=? 2 then 1 else 0) in
  (y, m, d).

(** [dt.isoformat()]: the microseconds are printed only when non-zero. *)
Definition isoformat (dt : datetime) : string :=
  let '(y, m, d) := civil_from_days (dt / us_per_day) in
  let r := dt mod us_per_day in
  let us := r mod 1000000 in
  let s := r / 1000000 in
  pad4 y +:+ "-" +:+ pad2 m +:+ "-" +:+ pad2 d +:+ "T" +:+
  pad2 (s / 3600) +:+ ":" +:+ pad2 (s / 60 mod 60) +:+ ":" +:+ pad2 (s mod 60) +:+
  (if us =? 0 then "" else "." +:+ pad6 us).

(** [str(td)] *)
Definition str_timedelta (td : timedelta) : string :=
  let days := td / us_per_day in
  let r := td mod us_per_day in
  let us := r mod 1000000 in
  let s := r / 1000000 in
  (if days =? 0 then ""
   else str_int days +:+ " day" +:+ (if Z.abs days =? 1 then "" else "s") +:+ ", ") +:+
  str_int (s / 3600) +:+ ":" +:+ pad2 (s / 60 mod 60) +:+ ":" +:+ pad2 (s mod 60) +:+
  (if us =? 0 then "" else "." +:+ pad6 us).

(** ** Values, [repr] and [json.dumps] *)

#[warnings="-register-all"]
Inductive pyval : Type :=
  | PNone
  | PBool (b : bool)
  | PInt (z : Z)
  | PStr (s : string)
  | PEnum (cls name value : string)   (* member of a [str]-mixin [Enum] *)
  | PList (l : list pyval)
  | PDict (kvs : list (string * pyval)).  (* insertion order *)

(** [repr] of a string.  Bytes above 127 belong to the encoding of a
    non-ASCII character and are copied, which is what [repr] does with
    printable characters. *)
Definition repr_char (quote : ascii) (c : ascii) : string :=
  let b := byte_of_ascii c in
  if Ascii.eqb c quote || (b =? 92) then String "\" (String c "")
  else if b =? 9 then "\t"
  else if b =? 10 then "\n"
  else if b =? 13 then "\r"
  else if (b <? 32) || (b =? 127)
       then "\x" +:+ String (hexdigit (Z.shiftr b 4)) (String (hexdigit b) "")
  else String c "".

Fixpoint repr_body (quote : ascii) (s : string) : string :=
  match s with
  | EmptyString => ""
  | String c t => repr_char quote c +:+ repr_body quote t
  end.

Definition repr_str (s : string) : string :=
  let q := if contains "'" s && negb (contains (String dquote "") s)
           then dquote else "'"%char in
  String q (repr_body q s) +:+ String q "".

Fixpoint repr (v : pyval) : string :=
  match v with
  | PNone => "None"
  | PBool b => if b then "True" else "False"
  | PInt z => str_int z
  | PStr s => repr_str s
  | PEnum cls name value => "<" +:+ cls +:+ "." +:+ name +:+ ": " +:+ repr_str value +:+ ">"
  | PList l => "[" +:+ join ", " (List.map repr l) +:+ "]"
  | PDict kvs =>
      "{" +:+ join ", " (List.map (fun kv => let '(k, x) := kv in
                                    repr_str k +:+ ": " +:+ repr x) kvs) +:+ "}"
  end.

(** [repr] of a key/value tuple, as printed inside [str(sorted(d.items()))]. *)
Definition repr_item (kv : string * pyval) : string :=
  "(" +:+ repr_str (fst kv) +:+ ", " +:+ repr (snd kv) +:+ ")".

(** [sorted] on items with pairwise distinct string keys: only the keys are
    ever compared. *)
Fixpoint insert_item {A} (kv : string * A) (l : list (string * A)) : list (string * A) :=
  match l with
  | [] => [kv]
  | kv' :: t =>
      if String.leb (fst kv) (fst kv') then kv :: l else kv' :: insert_item kv t
  end.

Definition sorted_items {A} (l : list (string * A)) : list (string * A) :=
  fold_right insert_item [] l.

(** [str(sorted(d.items()))] *)
Definition str_sorted_items (d : list (string * pyval)) : string :=
  "[" +:+ join ", " (List.map repr_item (sorted_items d)) +:+ "]".

(** JSON string escapes with [ensure_ascii=True].  The bytes of a multi-byte
    UTF-8 sequence are decoded to the code point, printed as one [\uXXXX] or
    a surrogate pair. *)
Definition hex4 (n : Z) : string :=
  String (hexdigit (Z.shiftr n 12)) (String (hexdigit (Z.shiftr n 8))
    (String (hexdigit (Z.shiftr n 4)) (String (hexdigit n) ""))).

Definition json_u (cp : Z) : string :=
  if cp <? 65536 then "\u" +:+ hex4 cp
  else let v := cp - 65536 in
       "\u" +:+ hex4 (55296 + Z.shiftr v 10) +:+ "\u" +:+ hex4 (56320 + Z.land v 1023).

Definition json_ascii (b : Z) (c : ascii) : string :=
  if b =? 34 then String "\" (String dquote "")
  else if b =? 92 then "\\"
  else if b =? 10 then "\n"
  else if b =? 13 then "\r"
  else if b =? 9 then "\t"
  else if b =? 12 then "\f"
  else if b =? 8 then "\b"
  else if (b <? 32) || (b =? 127) then json_u b
  else String c "".

Definition cont (c : ascii) : Z := Z.land (byte_of_ascii c) 63.

Fixpoint json_escape (s : string) : string :=
  match s with
  | EmptyString => ""
  | String c t =>
      let b := byte_of_ascii c in
      if b <? 128 then json_ascii b c +:+ json_escape t
      else if b <? 224 then
        match t with
        | String c1 t1 =>
            json_u (Z.lor (Z.shiftl (Z.land b 31) 6) (cont c1)) +:+ json_escape t1
        | _ => ""
        end
      else if b <? 240 then
        match t with
        | String c1 (String c2 t2) =>
            json_u (Z.lor (Z.shiftl (Z.land b 15) 12)
                      (Z.lor (Z.shiftl (cont c1) 6) (cont c2))) +:+ json_escape t2
        | _ => ""
        end
      else
        match t with
        | String c1 (String c2 (String c3 t3)) =>
            json_u (Z.lor (Z.shiftl (Z.land b 7) 18)
                      (Z.lor (Z.shiftl (cont c1) 12)
                         (Z.lor (Z.shiftl (cont c2) 6) (cont c3)))) +:+ json_escape t3
        | _ => ""
        end
  end.

Definition json_str (s : string) : string :=
  String dquote (json_escape s) +:+ String dquote "".

(** [json.dumps(v, sort_keys=True)] with the default separators. *)
Fixpoint json_dumps (v : pyval) : string :=
  match v with
  | PNone => "null"
  | PBool b => if b then "true" else "false"
  | PInt z => str_int z
  | PStr s => json_str s
  | PEnum _ _ value => json_str value
  | PList l => "[" +:+ join ", " (List.map json_dumps l) +:+ "]"
  | PDict kvs =>
      "{" +:+ join ", "
        (List.map (fun kv => json_str (fst kv) +:+ ": " +:+ snd kv)
           (sorted_items (List.map (fun kv => let '(k, x) := kv in (k, json_dumps x)) kvs)))
      +:+ "}"
  end.

(** ** Outcomes and the state-and-exception monad *)

Inductive outcome (E A : Type) : Type :=
  | Return (a : A)
  | Raise (e : E).
Arguments Return {E A} a.
Arguments Raise {E A} e.

Definition M (E S A : Type) : Type := S -> outcome E A * S.

Definition ret {E S A} (a : A) : M E S A := fun s => (Return a, s).

Definition raise {E S A} (e : E) : M E S A := fun s => (Raise e, s).

Definition bind {E S A B} (m : M E S A) (k : A -> M E S B) : M E S B :=
  fun s =>
    match m s with
    | (Return a, s') => k a s'
    | (Raise e, s') => (Raise e, s')
    end.

(** [try: m  except Exception as e: h e] *)
Definition try_except {E S A} (m : M E S A) (h : E -> M E S A) : M E S A :=
  fun s =>
    match m s with
    | (Return a, s') => (Return a, s')
    | (Raise e, s') => h e s'
    end.

Definition get {E S} : M E S S := fun s => (Return s, s).
Definition modify {E S} (f : S -> S) : M E S unit := fun s => (Return tt, f s).

End Py.

Declare Scope py_scope.
Delimit Scope py_scope with py.
Notation "x <- c ;; k" := (Py.bind c (fun x => k))
  (at level 100, c at next level, right associativity) : py_scope.
Notation "c ;;; k" := (Py.bind c (fun _ => k))
  (at level 100, right associativity) : py_scope.

Local Open Scope py_scope.

(* ================================================================== *)
(** * github_publisher_phase2.py                                       *)
(* ================================================================== *)

Module Publisher.
Import Py.

(** [PublisherMode] and [OperationKind] are [str] enumerations; [value] is
    the member's string. *)
Inductive PublisherMode := PROD | DRY_RUN.

Definition mode_value (m : PublisherMode) : string :=
  match m with PROD => "prod" | DRY_RUN => "dry_run" end.

Inductive OperationKind := PUBLISH_RELEASE | PUBLISH_POST | TAG_REPO | OPEN_PR.

Definition value (k : OperationKind) : string :=
  match k with
  | PUBLISH_RELEASE => "publish_release"
  | PUBLISH_POST => "publish_post"
  | TAG_REPO => "tag_repo"
  | OPEN_PR => "open_pr"
  end.

(** Exceptions: the class and [str(e)]. *)
Inductive exn_class :=
  | Exception | ValueError
  | AuthorizationError | ReceiptValidationError | ModeViolationError
  | RecoveryFailedError.

Record exn := mk_exn { exn_type : exn_class; exn_str : string }.

(** [type(e).__name__] *)
Definition type_name (c : exn_class) : string :=
  match c with
  | Exception => "Exception"
  | ValueError => "ValueError"
  | AuthorizationError => "AuthorizationError"
  | ReceiptValidationError => "ReceiptValidationError"
  | ModeViolationError => "ModeViolationError"
  | RecoveryFailedError => "RecoveryFailedError"
  end.

Definition exn_class_eqb (a b : exn_class) : bool :=
  String.eqb (type_name a) (type_name b).

(** [isinstance(e, c)]: [ReceiptValidationError] and [ModeViolationError]
    derive from [AuthorizationError]; every class derives from
    [Exception]. *)
Definition isinstance (e : exn) (c : exn_class) : bool :=
  match c with
  | Exception => true
  | AuthorizationError =>
      match exn_type e with
      | AuthorizationError | ReceiptValidationError | ModeViolationError => true
      | _ => false
      end
  | _ => exn_class_eqb (exn_type e) c
  end.

(** The receipt of this module.  [issued_at] and [expires_at] hold the
    instant that the stored ISO-8601 text with its Z suffix denotes: the
    source parses the text with [datetime.fromisoformat] at every use, and
    messages print it back with [isoformat]. *)
Record EnforceableReceipt := {
  receipt_id : string;
  run_id : string;
  operation_kind : string;
  enforceable : bool;
  issued_at : datetime;
  expires_at : datetime;
  consumed : bool;
  consumed_at : option string
}.

Definition iso_z (dt : datetime) : string := isoformat dt +:+ "Z".

(** [f"{x}"] for an optional string *)
Definition fmt_opt (o : option string) : string :=
  match o with Some s => s | None => "None" end.

Record OperationAuditRecord := {
  ar_operation_id : string;
  ar_run_id : string;
  ar_operation_kind : OperationKind;
  ar_receipt_id : string;
  ar_repository : string;
  ar_status : string;   (* success, failed, rejected_by_auth, rejected_by_mode *)
  ar_mode : string;
  ar_started_at : string;
  ar_completed_at : string;
  ar_result : option pyval;
  ar_error_message : option string;
  ar_error_code : option string;
  ar_github_response : option pyval;
  ar_retry_count : Z
}.

(** A call received by the platform client. *)
Inductive PlatformCall :=
  | CreateRelease (owner repo tag_name release_name body : string)
                  (draft prerelease : bool)
  | CreateTag (owner repo tag_name sha message : string)
  | CreatePullRequest (owner repo title body head base : string).

(** The publisher object with its rate limiter ([request_times]), its
    binding validator ([consumed_receipts]) and its audit trail. *)
Record GitHubPublisher := {
  mode : string;
  github_token : string;
  enable_recovery : bool;
  requests_per_hour : Z;
  request_times : list datetime;
  consumed_receipts : gmap string datetime;
  audit_records : list OperationAuditRecord
}.

(** The state the methods run in: the successive readings of
    [datetime.utcnow()], the receipt objects (a reference is an index in
    [receipts]), the calls made to the platform client, the [time.sleep]
    calls, and the publisher object. *)
Record World := {
  clock : nat -> datetime;
  ticks : nat;
  receipts : list EnforceableReceipt;
  platform_calls : list PlatformCall;
  slept : list Z;
  self : GitHubPublisher
}.

Definition Run (A : Type) : Type := M exn World A.

Definition utcnow : Run datetime := fun w =>
  (Return (clock w (ticks w)),
   {| clock := clock w; ticks := S (ticks w); receipts := receipts w;
      platform_calls := platform_calls w; slept := slept w; self := self w |}).

Definition set_self (f : GitHubPublisher -> GitHubPublisher) : Run unit :=
  modify (fun w =>
   {| clock := clock w; ticks := ticks w; receipts := receipts w;
      platform_calls := platform_calls w; slept := slept w; self := f (self w) |}).

Definition set_receipt (l : nat) (r : EnforceableReceipt) : Run unit :=
  modify (fun w =>
   {| clock := clock w; ticks := ticks w; receipts := <[l := r]> (receipts w);
      platform_calls := platform_calls w; slept := slept w; self := self w |}).

Definition log_call (c : PlatformCall) : Run unit :=
  modify (fun w =>
   {| clock := clock w; ticks := ticks w; receipts := receipts w;
      platform_calls := platform_calls w ++ [c]; slept := slept w; self := self w |}).

(** [time.sleep(seconds)] *)
Definition sleep (seconds : Z) : Run unit :=
  modify (fun w =>
   {| clock := clock w; ticks := ticks w; receipts := receipts w;
      platform_calls := platform_calls w; slept := slept w ++ [seconds];
      self := self w |}).

Definition get_self : Run GitHubPublisher := fun w => (Return (self w), w).

(** Reading the object behind a reference.  A reference held by a caller
    always points to an object; the [Exception] covers indices outside the
    store, which no run creates. *)
Definition deref (l : nat) : Run EnforceableReceipt := fun w =>
  match receipts w !! l with
  | Some r => (Return r, w)
  | None => (Raise (mk_exn Exception "dangling reference"), w)
  end.

(** ** ReceiptBindingValidator *)

Definition MAX_RECEIPT_AGE_HOURS : Z := 24.

Definition msg_cross_run (receipt : EnforceableReceipt) (expected_run_id : string) : string :=
  "Receipt run_id '" +:+ run_id receipt +:+ "' does not match " +:+
  "expected run_id '" +:+ expected_run_id +:+ "' (cross-run replay detected)".

Definition msg_cross_operation (receipt : EnforceableReceipt)
  (expected_operation : OperationKind) : string :=
  "Receipt operation_kind '" +:+ operation_kind receipt +:+ "' does not match " +:+
  "expected operation '" +:+ value expected_operation +:+
  "' (cross-operation replay detected)".

Definition msg_advisory (receipt : EnforceableReceipt) : string :=
  "Receipt " +:+ receipt_id receipt +:+ " is advisory (enforceable=false). " +:+
  "Advisory receipts cannot be used for authorization.".

Definition msg_consumed (receipt : EnforceableReceipt) : string :=
  "Receipt " +:+ receipt_id receipt +:+ " already consumed at " +:+
  fmt_opt (consumed_at receipt) +:+ " " +:+ "(replay attempt detected)".

Definition msg_expired (receipt : EnforceableReceipt) : string :=
  "Receipt " +:+ receipt_id receipt +:+ " expired at " +:+ iso_z (expires_at receipt).

Definition msg_stale (receipt : EnforceableReceipt) (age : timedelta) : string :=
  "Receipt " +:+ receipt_id receipt +:+ " is stale (issued " +:+ str_timedelta age +:+
  " ago). " +:+ "Maximum age is " +:+ str_int MAX_RECEIPT_AGE_HOURS +:+ " hours.".

Definition validate_binding (receipt : EnforceableReceipt)
  (expected_run_id : string) (expected_operation : OperationKind) : Run bool :=
  (* Binding check 1: run_id must match exactly *)
  if negb (String.eqb (run_id receipt) expected_run_id) then
    raise (mk_exn ReceiptValidationError (msg_cross_run receipt expected_run_id))
  (* Binding check 2: operation_kind must match exactly *)
  else if negb (String.eqb (operation_kind receipt) (value expected_operation)) then
    raise (mk_exn ReceiptValidationError (msg_cross_operation receipt expected_operation))
  (* Binding check 3: receipt must be enforceable (not advisory) *)
  else if negb (enforceable receipt) then
    raise (mk_exn ReceiptValidationError (msg_advisory receipt))
  (* Binding check 4: receipt must not be already consumed *)
  else if consumed receipt then
    raise (mk_exn ReceiptValidationError (msg_consumed receipt))
  else
    (* Binding check 5: receipt must not be expired *)
    let expires := expires_at receipt in
    now <- utcnow ;;
    if now >? expires then
      raise (mk_exn ReceiptValidationError (msg_expired receipt))
    else
      (* Binding check 6: receipt must not be too old *)
      let issued := issued_at receipt in
      let age := now - issued in
      if age >? timedelta_hours MAX_RECEIPT_AGE_HOURS then
        raise (mk_exn ReceiptValidationError (msg_stale receipt age))
      else ret true.

(** [ReceiptBindingValidator.mark_consumed] *)
Definition validator_mark_consumed (rid : string) : Run unit :=
  now <- utcnow ;;
  set_self (fun p =>
    {| mode := mode p; github_token := github_token p;
       enable_recovery := enable_recovery p;
       requests_per_hour := requests_per_hour p;
       request_times := request_times p;
       consumed_receipts := <[rid := now]> (consumed_receipts p);
       audit_records := audit_records p |}).

(** [EnforceableReceipt.mark_consumed]: mutates the object in place. *)
Definition mark_consumed (l : nat) : Run unit :=
  r <- deref l ;;
  now <- utcnow ;;
  set_receipt l
    {| receipt_id := receipt_id r; run_id := run_id r;
       operation_kind := operation_kind r; enforceable := enforceable r;
       issued_at := issued_at r; expires_at := expires_at r;
       consumed := true; consumed_at := Some (iso_z now) |}.

(** ** GitHubClient: the simulated platform *)

Definition create_release (owner repo tag_name release_name body : string)
  (draft prerelease : bool) : Run pyval :=
  log_call (CreateRelease owner repo tag_name release_name body draft prerelease) ;;;
  created <- utcnow ;;
  published <- utcnow ;;
  ret (PDict
    [("id", PInt 12345);
     ("url", PStr ("https://api.github.com/repos/" +:+ owner +:+ "/" +:+ repo
                   +:+ "/releases/12345"));
     ("html_url", PStr ("https://github.com/" +:+ owner +:+ "/" +:+ repo
                        +:+ "/releases/tag/" +:+ tag_name));
     ("tag_name", PStr tag_name);
     ("name", PStr release_name);
     ("draft", PBool draft);
     ("prerelease", PBool prerelease);
     ("created_at", PStr (iso_z created));
     ("published_at", PStr (iso_z published))]).

Definition create_tag (owner repo tag_name sha message : string) : Run pyval :=
  log_call (CreateTag owner repo tag_name sha message) ;;;
  date <- utcnow ;;
  ret (PDict
    [("node_id", PStr "MDM6VGFnXzEyMzQ1");
     ("tag", PStr tag_name);
     ("sha", PStr sha);
     ("url", PStr ("https://api.github.com/repos/" +:+ owner +:+ "/" +:+ repo
                   +:+ "/git/tags/abc123"));
     ("tagger", PDict [("date", PStr (iso_z date));
                       ("name", PStr "MarketOps");
                       ("email", PStr "marketops@omega.io")]);
     ("object", PDict [("sha", PStr sha);
                       ("type", PStr "commit");
                       ("url", PStr ("https://api.github.com/repos/" +:+ owner +:+ "/"
                                     +:+ repo +:+ "/git/commits/" +:+ sha))]);
     ("message", PStr message)]).

Definition create_pull_request (owner repo title body head base : string) : Run pyval :=
  log_call (CreatePullRequest owner repo title body head base) ;;;
  created <- utcnow ;;
  updated <- utcnow ;;
  ret (PDict
    [("id", PInt 67890);
     ("number", PInt 42);
     ("state", PStr "open");
     ("title", PStr title);
     ("body", PStr body);
     ("created_at", PStr (iso_z created));
     ("updated_at", PStr (iso_z updated));
     ("url", PStr ("https://api.github.com/repos/" +:+ owner +:+ "/" +:+ repo
                   +:+ "/pulls/42"));
     ("html_url", PStr ("https://github.com/" +:+ owner +:+ "/" +:+ repo +:+ "/pull/42"));
     ("head", PDict [("ref", PStr head)]);
     ("base", PDict [("ref", PStr base)])]).

(** ** RateLimitManager *)

Definition can_make_request : Run bool :=
  now <- utcnow ;;
  let hour_ago := now - timedelta_hours 1 in
  set_self (fun p =>
    {| mode := mode p; github_token := github_token p;
       enable_recovery := enable_recovery p;
       requests_per_hour := requests_per_hour p;
       request_times := List.filter (fun t => t >? hour_ago) (request_times p);
       consumed_receipts := consumed_receipts p;
       audit_records := audit_records p |}) ;;;
  p <- get_self ;;
  ret (Z.of_nat (length (request_times p)) <? requests_per_hour p).

Definition record_request : Run unit :=
  now <- utcnow ;;
  set_self (fun p =>
    {| mode := mode p; github_token := github_token p;
       enable_recovery := enable_recovery p;
       requests_per_hour := requests_per_hour p;
       request_times := request_times p ++ [now];
       consumed_receipts := consumed_receipts p;
       audit_records := audit_records p |}).

(** ** RecoveryStrategy *)

Definition MAX_RETRIES : Z := 3.
Definition BACKOFF_BASE : Z := 2.

Definition transient_errors : list string :=
  ["timeout"; "connection_error"; "rate_limited"; "service_unavailable"].

Definition should_retry (error_code : string) (attempt : Z) : bool :=
  if attempt >=? MAX_RETRIES then false
  else existsb (String.eqb error_code) transient_errors.

Definition get_backoff_seconds (attempt : Z) : Z := BACKOFF_BASE ^ attempt.

(** ** GitHubPublisher *)

(** [GitHubPublisher.__init__]: the mode is validated at construction. *)
Definition init (github_token : string) (mode0 : string) (enable_recovery0 : bool)
  : outcome exn GitHubPublisher :=
  if negb (existsb (String.eqb mode0) [mode_value PROD; mode_value DRY_RUN]) then
    Raise (mk_exn ModeViolationError
             ("Invalid mode '" +:+ mode0 +:+ "'. Must be exactly 'prod' or 'dry_run'."))
  else
    Return {| mode := mode0; github_token := github_token;
              enable_recovery := enable_recovery0;
              requests_per_hour := 5000; request_times := [];
              consumed_receipts := ∅; audit_records := [] |}.

(** The dictionary an operation returns. *)
Record OperationResponse := {
  resp_operation_id : string;
  resp_status : string;
  resp_result : pyval;
  resp_audit_record : OperationAuditRecord
}.

Definition append_audit (a : OperationAuditRecord) : Run unit :=
  set_self (fun p =>
    {| mode := mode p; github_token := github_token p;
       enable_recovery := enable_recovery p;
       requests_per_hour := requests_per_hour p;
       request_times := request_times p;
       consumed_receipts := consumed_receipts p;
       audit_records := audit_records p ++ [a] |}).

Definition _validate_authorization (receipt : option nat) (run_id0 : string)
  (kind : OperationKind) : Run bool :=
  match receipt with
  | None =>
      raise (mk_exn ReceiptValidationError
               "No receipt provided (required for authorization)")
  | Some l =>
      r <- deref l ;;
      validate_binding r run_id0 kind ;;;
      ret true
  end.

(** [receipt.receipt_id if receipt else "NONE"] *)
Definition receipt_id_or_none (receipt : option nat) : Run string :=
  match receipt with
  | None => ret "NONE"
  | Some l => r <- deref l ;; ret (receipt_id r)
  end.

(** The status written by the [except] handler of every operation. *)
Definition failure_status (e : exn) : string :=
  if isinstance e Exception
     && negb (isinstance e ModeViolationError || isinstance e ReceiptValidationError)
  then "failed" else "rejected_by_auth".

(** The [except Exception as e] handler shared by the three operations:
    append the audit record, then re-raise. *)
Definition audit_failure (operation_id run_id0 : string) (kind : OperationKind)
  (receipt : option nat) (repository started_at : string) (e : exn)
  : Run OperationAuditRecord :=
  let error_code := type_name (exn_type e) in
  completed <- utcnow ;;
  rid <- receipt_id_or_none receipt ;;
  p <- get_self ;;
  let audit :=
    {| ar_operation_id := operation_id; ar_run_id := run_id0;
       ar_operation_kind := kind; ar_receipt_id := rid;
       ar_repository := repository; ar_status := failure_status e;
       ar_mode := mode p; ar_started_at := started_at;
       ar_completed_at := iso_z completed; ar_result := None;
       ar_error_message := Some (exn_str e); ar_error_code := Some error_code;
       ar_github_response := None; ar_retry_count := 0 |} in
  append_audit audit ;;;
  ret audit.

(** The steps after a successful platform call: record the request, consume
    the receipt, append the audit record, build the response. *)
Definition audit_success (operation_id run_id0 : string) (kind : OperationKind)
  (l : nat) (repository started_at : string) (result : pyval) (attempt : Z)
  : Run OperationResponse :=
  record_request ;;;
  mark_consumed l ;;;
  r <- deref l ;;
  validator_mark_consumed (receipt_id r) ;;;
  completed <- utcnow ;;
  r' <- deref l ;;
  p <- get_self ;;
  let audit :=
    {| ar_operation_id := operation_id; ar_run_id := run_id0;
       ar_operation_kind := kind; ar_receipt_id := receipt_id r';
       ar_repository := repository; ar_status := "success";
       ar_mode := mode p; ar_started_at := started_at;
       ar_completed_at := iso_z completed; ar_result := Some result;
       ar_error_message := None; ar_error_code := None;
       ar_github_response := Some result; ar_retry_count := attempt |} in
  append_audit audit ;;;
  ret {| resp_operation_id := operation_id; resp_status := "success";
         resp_result := result; resp_audit_record := audit |}.

(** [operation_id]: a prefix and eight hex characters of an MD5 digest. *)
Definition make_operation_id (prefix run_id0 : string) (now : datetime) : string :=
  prefix +:+ take 8 (md5_hex (encode (run_id0 +:+ "-" +:+ isoformat now))).

(** The [while attempt <= MAX_RETRIES] loop of [publish_release]; the fuel
    is the number of iterations left, and [None] is the loop running out. *)
Fixpoint release_attempts (fuel : nat) (attempt : Z)
  (operation_id run_id0 : string) (l : nat)
  (repository started_at owner repo tag_name release_name body : string)
  (draft prerelease : bool) : Run (option OperationResponse) :=
  match fuel with
  | O => ret None
  | S fuel' =>
      try_except
        (result <- create_release owner repo tag_name release_name body draft prerelease ;;
         resp <- audit_success operation_id run_id0 PUBLISH_RELEASE l repository
                   started_at result attempt ;;
         ret (Some resp))
        (fun e =>
           p <- get_self ;;
           if enable_recovery p && should_retry (exn_str e) attempt then
             let attempt' := attempt + 1 in
             sleep (get_backoff_seconds attempt') ;;;
             release_attempts fuel' attempt' operation_id run_id0 l repository
               started_at owner repo tag_name release_name body draft prerelease
           else raise e)
  end.

Definition mode_violation (op_name : string) (p : GitHubPublisher) : exn :=
  mk_exn ModeViolationError
    (op_name +:+ " requires mode='prod'. Current mode: '" +:+ mode p +:+ "'").

Definition publish_release (run_id0 : string) (receipt : option nat)
  (repository tag_name release_name body : string) (draft prerelease : bool)
  : Run (option OperationResponse) :=
  t0 <- utcnow ;;
  let operation_id := make_operation_id "pub-release-" run_id0 t0 in
  t1 <- utcnow ;;
  let started_at := iso_z t1 in
  try_except
    (p <- get_self ;;
     (* Fail-closed: mode check *)
     if negb (String.eqb (mode p) (mode_value PROD)) then
       raise (mode_violation "publish_release" p)
     else
       (* Fail-closed: authorization check *)
       _validate_authorization receipt run_id0 PUBLISH_RELEASE ;;;
       (* Rate limit check *)
       ok <- can_make_request ;;
       if negb ok then raise (mk_exn Exception "Rate limited")
       (* Parse repository *)
       else if negb (contains "/" repository) then
         raise (mk_exn ValueError
                  ("Repository must be in 'owner/repo' format, got '" +:+ repository +:+ "'"))
       else
         match split "/" repository, receipt with
         | [owner; repo], Some l =>
             release_attempts (Z.to_nat (MAX_RETRIES + 1)) 0 operation_id run_id0 l
               repository started_at owner repo tag_name release_name body
               draft prerelease
         | [owner; repo], None =>
             raise (mk_exn ReceiptValidationError
                      "No receipt provided (required for authorization)")
         | _, _ => raise (mk_exn ValueError "too many values to unpack (expected 2)")
         end)
    (fun e =>
       audit_failure operation_id run_id0 PUBLISH_RELEASE receipt repository
         started_at e ;;;
       raise e).

(** [owner, repo = repository.split("/")] *)
Definition unpack_owner_repo (repository : string) : Run (string * string) :=
  match split "/" repository with
  | [owner; repo] => ret (owner, repo)
  | [_] => raise (mk_exn ValueError "not enough values to unpack (expected 2, got 1)")
  | _ => raise (mk_exn ValueError "too many values to unpack (expected 2)")
  end.

Definition tag_repo (run_id0 : string) (receipt : option nat)
  (repository tag_name target_sha message : string) : Run OperationResponse :=
  t0 <- utcnow ;;
  let operation_id := make_operation_id "tag-repo-" run_id0 t0 in
  t1 <- utcnow ;;
  let started_at := iso_z t1 in
  try_except
    (p <- get_self ;;
     (* Fail-closed checks *)
     if negb (String.eqb (mode p) (mode_value PROD)) then
       raise (mode_violation "tag_repo" p)
     else
       _validate_authorization receipt run_id0 TAG_REPO ;;;
       ok <- can_make_request ;;
       if negb ok then raise (mk_exn Exception "Rate limited")
       else
         parts <- unpack_owner_repo repository ;;
         let '(owner, repo) := parts in
         result <- create_tag owner repo tag_name target_sha message ;;
         match receipt with
         | Some l =>
             audit_success operation_id run_id0 TAG_REPO l repository started_at
               result 0
         | None =>
             raise (mk_exn ReceiptValidationError
                      "No receipt provided (required for authorization)")
         end)
    (fun e =>
       audit_failure operation_id run_id0 TAG_REPO receipt repository started_at e ;;;
       raise e).

Definition open_pr (run_id0 : string) (receipt : option nat)
  (repository title body head_branch base_branch : string) : Run OperationResponse :=
  t0 <- utcnow ;;
  let operation_id := make_operation_id "open-pr-" run_id0 t0 in
  t1 <- utcnow ;;
  let started_at := iso_z t1 in
  try_except
    (p <- get_self ;;
     if negb (String.eqb (mode p) (mode_value PROD)) then
       raise (mode_violation "open_pr" p)
     else
       _validate_authorization receipt run_id0 OPEN_PR ;;;
       ok <- can_make_request ;;
       if negb ok then raise (mk_exn Exception "Rate limited")
       else
         parts <- unpack_owner_repo repository ;;
         let '(owner, repo) := parts in
         result <- create_pull_request owner repo title body head_branch base_branch ;;
         match receipt with
         | Some l =>
             audit_success operation_id run_id0 OPEN_PR l repository started_at
               result 0
         | None =>
             raise (mk_exn ReceiptValidationError
                      "No receipt provided (required for authorization)")
         end)
    (fun e =>
       audit_failure operation_id run_id0 OPEN_PR receipt repository started_at e ;;;
       raise e).

End Publisher.

(* ================================================================== *)
(** * federation_core_receipt_generator.py                             *)
(* ================================================================== *)

Module FC.
Import Py.

Inductive AuthorizationDecision := APPROVED | DENIED | DEFERRED.

Definition decision_value (d : AuthorizationDecision) : string :=
  match d with APPROVED => "approved" | DENIED => "denied" | DEFERRED => "deferred" end.

Definition decision_name (d : AuthorizationDecision) : string :=
  match d with APPROVED => "APPROVED" | DENIED => "DENIED" | DEFERRED => "DEFERRED" end.

Inductive OperationKind := PUBLISH_RELEASE | TAG_REPO | OPEN_PR.

Definition value (k : OperationKind) : string :=
  match k with
  | PUBLISH_RELEASE => "publish_release"
  | TAG_REPO => "tag_repo"
  | OPEN_PR => "open_pr"
  end.

Inductive exn_class :=
  | Exception | ValueError | TypeError
  | AuthorizationError | PolicyViolationError | UnauthorizedOperationError.

Record exn := mk_exn { exn_type : exn_class; exn_str : string }.

Record OperationContext := {
  ctx_run_id : string;
  ctx_operation_kind : OperationKind;
  ctx_repository : string;
  ctx_payload : pyval;
  ctx_evidence : pyval
}.

(** One entry of [AuthorizationPolicy.rules]; a key that is absent from the
    dictionary is [None]. *)
Record RuleSet := {
  allowed_repositories : option (list string);
  require_evidence : option (list string);
  rate_limit : option pyval
}.

Record AuthorizationPolicy := {
  policy_id : string;
  version : string;
  rules : gmap string RuleSet
}.

Record AuthorizationEvidence := {
  checked_at : string;
  ev_policy_id : string;
  decision : AuthorizationDecision;
  reason : string;
  approvers : list string;
  checks : list (string * bool)
}.

Definition set_reason (e : AuthorizationEvidence) (r : string) : AuthorizationEvidence :=
  {| checked_at := checked_at e; ev_policy_id := ev_policy_id e;
     decision := decision e; reason := r; approvers := approvers e;
     checks := checks e |}.

(** [AuthorizationEvidence.to_dict]: [asdict], in field order. *)
Definition evidence_to_dict (e : AuthorizationEvidence) : list (string * pyval) :=
  [("checked_at", PStr (checked_at e));
   ("policy_id", PStr (ev_policy_id e));
   ("decision", PEnum "AuthorizationDecision" (decision_name (decision e))
                  (decision_value (decision e)));
   ("reason", PStr (reason e));
   ("approvers", PList (List.map PStr (approvers e)));
   ("checks", PDict (List.map (fun kv => (fst kv, PBool (snd kv))) (checks e)))].

Record EnforceableReceipt := {
  receipt_id : string;
  run_id : string;
  operation_kind : string;
  enforceable : bool;   (* true = FC approved, false = advisory only *)
  issued_at : string;
  expires_at : string;
  issuer : string;
  audience : string;
  signature : option string;
  evidence_hash : option string;
  consumed : bool;
  consumed_at : option string
}.

Definition opt_str (o : option string) : pyval :=
  match o with Some s => PStr s | None => PNone end.

(** The dictionary that [sign] and [verify_signature] build. *)
Definition payload (r : EnforceableReceipt) : list (string * pyval) :=
  [("receipt_id", PStr (receipt_id r));
   ("run_id", PStr (run_id r));
   ("operation_kind", PStr (operation_kind r));
   ("enforceable", PBool (enforceable r));
   ("issued_at", PStr (issued_at r));
   ("expires_at", PStr (expires_at r));
   ("issuer", PStr (issuer r));
   ("audience", PStr (audience r));
   ("evidence_hash", opt_str (evidence_hash r))].

Definition payload_str (r : EnforceableReceipt) : string :=
  str_sorted_items (payload r).

(** [hmac.new(secret.encode(), payload_str.encode(), hashlib.sha256).hexdigest()] *)
Definition mac (secret : string) (r : EnforceableReceipt) : string :=
  hmac_sha256_hex (encode secret) (encode (payload_str r)).

Definition set_signature (r : EnforceableReceipt) (s : option string) : EnforceableReceipt :=
  {| receipt_id := receipt_id r; run_id := run_id r;
     operation_kind := operation_kind r; enforceable := enforceable r;
     issued_at := issued_at r; expires_at := expires_at r; issuer := issuer r;
     audience := audience r; signature := s; evidence_hash := evidence_hash r;
     consumed := consumed r; consumed_at := consumed_at r |}.

(** [EnforceableReceipt.sign]: the receipt after the assignment to
    [self.signature]. *)
Definition sign (r : EnforceableReceipt) (secret : string) : EnforceableReceipt :=
  set_signature r (Some (mac secret r)).

(** [hmac.compare_digest] on two [str]: a [TypeError] unless both are ASCII. *)
Definition compare_digest (a b : string) : outcome exn bool :=
  if is_ascii a && is_ascii b then Return (String.eqb a b)
  else Raise (mk_exn TypeError
                "comparing strings with non-ASCII characters is not supported").

Definition verify_signature (r : EnforceableReceipt) (secret : string)
  : outcome exn bool :=
  match signature r with
  | None => Return false
  | Some EmptyString => Return false
  | Some s => compare_digest s (mac secret r)
  end.

(** ** AuthorizationPolicyValidator *)

Section Validator.
Context {rt : StrRuntime}.

Fixpoint _matches_pattern (text : string) (patterns : list string) : bool :=
  match patterns with
  | [] => false
  | pattern :: rest =>
      if contains "*" pattern then
        if fnmatch text pattern then true else _matches_pattern text rest
      else
        if String.eqb text pattern then true else _matches_pattern text rest
  end.

Fixpoint _check_evidence_requirements (requirements : list string)
  (evidence : AuthorizationEvidence) : outcome exn bool :=
  match requirements with
  | [] => Return true
  | req :: rest =>
      if contains ">=" req then
        match split ">=" req with
        | [key; val] =>
            let key := strip key in
            match int_of_str (strip val) with
            | None =>
                Raise (mk_exn ValueError
                         ("invalid literal for int() with base 10: "
                          +:+ repr_str (strip val)))
            | Some n =>
                if String.eqb key "approval_count"
                   && (Z.of_nat (length (approvers evidence)) <? n)
                then Return false
                else _check_evidence_requirements rest evidence
            end
        | _ => Raise (mk_exn ValueError "too many values to unpack (expected 2)")
        end
      else _check_evidence_requirements rest evidence
  end.

Definition repr_list (l : list string) : string := repr (PList (List.map PStr l)).

Definition validate_operation (policy : AuthorizationPolicy)
  (context : OperationContext) (evidence : AuthorizationEvidence)
  : outcome exn bool :=
  let operation_key := value (ctx_operation_kind context) in
  match rules policy !! operation_key with
  | None =>
      Raise (mk_exn PolicyViolationError
               ("No policy defined for operation_kind '" +:+ operation_key +:+ "'"))
  | Some op_policy =>
      (* Check 1: Repository allowed *)
      let check1 : option exn :=
        match allowed_repositories op_policy with
        | Some allowed =>
            if negb (_matches_pattern (ctx_repository context) allowed) then
              Some (mk_exn PolicyViolationError
                      ("Repository '" +:+ ctx_repository context
                       +:+ "' not in allowed list: " +:+ repr_list allowed))
            else None
        | None => None
        end in
      match check1 with
      | Some e => Raise e
      | None =>
          (* Check 2: Evidence requirements *)
          match require_evidence op_policy with
          | Some required =>
              match _check_evidence_requirements required evidence with
              | Return ok =>
                  if negb ok then
                    Raise (mk_exn PolicyViolationError
                             ("Evidence requirements not met: " +:+ repr_list required))
                  else Return true   (* Check 3: rate limits are not checked *)
              | Raise e => Raise e
              end
          | None => Return true
          end
      end
  end.

End Validator.

(** ** ReceiptGenerator *)

(** One entry of [issuance_audit]. *)
Record IssuanceRecord := {
  ia_receipt_id : string;
  ia_run_id : string;
  ia_operation_kind : string;
  ia_enforceable : bool;
  ia_decision : string;
  ia_issued_at : string;
  ia_policy_id : string
}.

(** The generator object.  [issued_receipts] maps a receipt id to the
    receipt object itself, a reference into the store. *)
Record ReceiptGenerator := {
  fc_id : string;
  fc_secret : string;
  policy : AuthorizationPolicy;
  gen_audience : string;
  issued_receipts : gmap string nat;
  issuance_audit : list IssuanceRecord
}.

(** [ReceiptGenerator.__init__] *)
Definition init (fc_id0 fc_secret0 : string) (policy0 : AuthorizationPolicy)
  (audience0 : string) : ReceiptGenerator :=
  {| fc_id := fc_id0; fc_secret := fc_secret0; policy := policy0;
     gen_audience := audience0; issued_receipts := ∅; issuance_audit := [] |}.

(** The state the methods run in: the readings of [datetime.utcnow()], the
    receipt objects (a reference is an index in [heap]; the caller and
    [issued_receipts] share them) and the generator object. *)
Record World := {
  clock : nat -> datetime;
  ticks : nat;
  heap : list EnforceableReceipt;
  self : ReceiptGenerator
}.

Definition Run (A : Type) : Type := M exn World A.

Definition utcnow : Run datetime := fun w =>
  (Return (clock w (ticks w)),
   {| clock := clock w; ticks := S (ticks w); heap := heap w; self := self w |}).

Definition get_self : Run ReceiptGenerator := fun w => (Return (self w), w).

Definition deref (l : nat) : Run EnforceableReceipt := fun w =>
  match heap w !! l with
  | Some r => (Return r, w)
  | None => (Raise (mk_exn Exception "dangling reference"), w)
  end.

(** A new object; its reference is the next free index. *)
Definition alloc (r : EnforceableReceipt) : Run nat := fun w =>
  (Return (length (heap w)),
   {| clock := clock w; ticks := ticks w; heap := heap w ++ [r]; self := self w |}).

Definition store (l : nat) (r : EnforceableReceipt) : Run unit :=
  modify (fun w =>
    {| clock := clock w; ticks := ticks w; heap := <[l := r]> (heap w);
       self := self w |}).

Definition set_self (f : ReceiptGenerator -> ReceiptGenerator) : Run unit :=
  modify (fun w =>
    {| clock := clock w; ticks := ticks w; heap := heap w; self := f (self w) |}).

Definition iso_z (dt : datetime) : string := isoformat dt +:+ "Z".

Definition fmt_opt (o : option string) : string :=
  match o with Some s => s | None => "None" end.

(** The identifier computed from one reading of the clock. *)
Definition receipt_id_at (context : OperationContext) (now : datetime) : string :=
  let payload := ctx_run_id context +:+ "-" +:+ value (ctx_operation_kind context)
                 +:+ "-" +:+ isoformat now in
  "receipt-" +:+ take 16 (md5_hex (encode payload)).

Definition _generate_receipt_id (context : OperationContext) : Run string :=
  now <- utcnow ;;
  ret (receipt_id_at context now).

Definition _hash_evidence (evidence : AuthorizationEvidence) : string :=
  let evidence_str := str_sorted_items (evidence_to_dict evidence) in
  sha256_hex (encode evidence_str).

Definition default_evidence (issued_at0 : string) (g : ReceiptGenerator)
  : AuthorizationEvidence :=
  {| checked_at := issued_at0; ev_policy_id := policy_id (policy g);
     decision := DEFERRED; reason := "No evidence provided";
     approvers := []; checks := [] |}.

(** [except (PolicyViolationError, UnauthorizedOperationError)] *)
Definition is_policy_failure (e : exn) : bool :=
  match exn_type e with
  | PolicyViolationError | UnauthorizedOperationError => true
  | _ => false
  end.

Section Generator.
Context {rt : StrRuntime}.

(** Returns the reference of the new receipt and the evidence object as the
    call leaves it. *)
Definition authorize_and_issue_receipt (context : OperationContext)
  (approval_evidence : option AuthorizationEvidence)
  : Run (nat * AuthorizationEvidence) :=
  receipt_id0 <- _generate_receipt_id context ;;
  now <- utcnow ;;
  let issued_at0 := iso_z now in
  let expires_at0 := iso_z (now + timedelta_hours 1) in
  g <- get_self ;;
  (* Default evidence if not provided *)
  let evidence0 :=
    match approval_evidence with
    | None => default_evidence issued_at0 g
    | Some e => e
    end in
  (* Try to validate *)
  verdict <-
    match validate_operation (policy g) context evidence0 with
    | Return _ => ret (true, APPROVED, evidence0)
    | Raise e =>
        if is_policy_failure e
        then ret (false, DENIED, set_reason evidence0 (exn_str e))
        else raise e
    end ;;
  let '(is_enforceable, decision0, evidence1) := verdict in
  (* Create receipt *)
  let evidence_hash0 := _hash_evidence evidence1 in
  let receipt :=
    {| receipt_id := receipt_id0; run_id := ctx_run_id context;
       operation_kind := value (ctx_operation_kind context);
       enforceable := is_enforceable; issued_at := issued_at0;
       expires_at := expires_at0; issuer := fc_id g; audience := gen_audience g;
       signature := None; evidence_hash := Some evidence_hash0;
       consumed := false; consumed_at := None |} in
  (* Sign receipt (proof of FC authority) *)
  l <- alloc (sign receipt (fc_secret g)) ;;
  (* Audit *)
  set_self (fun g =>
    {| fc_id := fc_id g; fc_secret := fc_secret g; policy := policy g;
       gen_audience := gen_audience g;
       issued_receipts := <[receipt_id0 := l]> (issued_receipts g);
       issuance_audit := issuance_audit g ++
         [{| ia_receipt_id := receipt_id0; ia_run_id := ctx_run_id context;
             ia_operation_kind := value (ctx_operation_kind context);
             ia_enforceable := is_enforceable;
             ia_decision := decision_value decision0;
             ia_issued_at := issued_at0;
             ia_policy_id := policy_id (policy g) |}] |}) ;;;
  ret (l, evidence1).

End Generator.

Definition set_consumed (r : EnforceableReceipt) (at_ : string) : EnforceableReceipt :=
  {| receipt_id := receipt_id r; run_id := run_id r;
     operation_kind := operation_kind r; enforceable := enforceable r;
     issued_at := issued_at r; expires_at := expires_at r; issuer := issuer r;
     audience := audience r; signature := signature r;
     evidence_hash := evidence_hash r;
     consumed := true; consumed_at := Some at_ |}.

Definition verify_and_consume_receipt (receipt : nat) : Run bool :=
  r <- deref receipt ;;
  g <- get_self ;;
  (* Check 1: Receipt was issued by FC *)
  match verify_signature r (fc_secret g) with
  | Raise e => raise e
  | Return false =>
      raise (mk_exn AuthorizationError
               ("Receipt " +:+ receipt_id r +:+ " has invalid signature (not issued by FC)"))
  | Return true =>
      (* Check 2: Receipt exists in our records *)
      match issued_receipts g !! receipt_id r with
      | None =>
          raise (mk_exn AuthorizationError
                   ("Receipt " +:+ receipt_id r +:+ " was not issued by this FC instance"))
      | Some ls =>
          (* Check 3: Receipt matches our record *)
          stored <- deref ls ;;
          if consumed stored then
            raise (mk_exn AuthorizationError
                     ("Receipt " +:+ receipt_id r +:+ " already consumed at "
                      +:+ fmt_opt (consumed_at stored)))
          else
            (* Mark consumed *)
            now <- utcnow ;;
            store ls (set_consumed stored (iso_z now)) ;;;
            ret true
      end
  end.

End FC.

(* ================================================================== *)
(** * END_TO_END_PROOF_GENERATOR.py                                    *)
(* ================================================================== *)

Module ProofGen.
Import Py.

Record ProofStep := {
  step_id : string;
  timestamp : string;
  description : string;
  actor : string;
  input_hash : string;
  output_hash : string;
  signature : string
}.

(** [ProofStep.to_dict]: [asdict], in field order. *)
Definition to_dict (s : ProofStep) : pyval :=
  PDict [("step_id", PStr (step_id s));
         ("timestamp", PStr (timestamp s));
         ("description", PStr (description s));
         ("actor", PStr (actor s));
         ("input_hash", PStr (input_hash s));
         ("output_hash", PStr (output_hash s));
         ("signature", PStr (signature s))].

Record EndToEndProofGenerator := {
  secret_key : string;
  steps : list ProofStep;
  chain_hash : string
}.

(** [EndToEndProofGenerator.__init__] *)
Definition init (secret_key0 : string) : EndToEndProofGenerator :=
  {| secret_key := secret_key0; steps := []; chain_hash := "" |}.

Record World := {
  clock : nat -> datetime;
  ticks : nat;
  self : EndToEndProofGenerator
}.

Definition Run (A : Type) : Type := M Empty_set World A.

Definition utcnow : Run datetime := fun w =>
  (Return (clock w (ticks w)),
   {| clock := clock w; ticks := S (ticks w); self := self w |}).

Definition get_self : Run EndToEndProofGenerator := fun w => (Return (self w), w).

Definition set_self (f : EndToEndProofGenerator -> EndToEndProofGenerator) : Run unit :=
  modify (fun w => {| clock := clock w; ticks := ticks w; self := f (self w) |}).

Definition iso_z (dt : datetime) : string := isoformat dt +:+ "Z".

(** [json.dumps(data, sort_keys=True, default=str)] then SHA-256 *)
Definition _hash_data (data : pyval) : string :=
  sha256_hex (encode (json_dumps data)).

Definition _sign_step (g : EndToEndProofGenerator) (data : string) : string :=
  hmac_sha256_hex (encode (secret_key g)) (encode data).

Definition record_step (step_id0 actor0 description0 : string)
  (input_data output_data : pyval) : Run ProofStep :=
  now <- utcnow ;;
  let timestamp0 := iso_z now in
  let input_hash0 := _hash_data input_data in
  let output_hash0 := _hash_data output_data in
  (* Sign this step *)
  let step_data := step_id0 +:+ ":" +:+ timestamp0 +:+ ":" +:+ actor0 +:+ ":"
                   +:+ input_hash0 +:+ ":" +:+ output_hash0 in
  g <- get_self ;;
  let step :=
    {| step_id := step_id0; timestamp := timestamp0; description := description0;
       actor := actor0; input_hash := input_hash0; output_hash := output_hash0;
       signature := _sign_step g step_data |} in
  set_self (fun g =>
    {| secret_key := secret_key g; steps := steps g ++ [step];
       chain_hash := chain_hash g |}) ;;;
  ret step.

(** The dictionary [finalize_chain] returns. *)
Record ProofChain := {
  pc_proof_id : string;
  pc_generated_at : string;
  pc_total_steps : Z;
  pc_chain_hash : string;
  pc_steps : list pyval
}.

(** The canonical serialization of a step list: [json.dumps] with sorted
    keys of the steps' dictionaries, in list order. *)
Definition chain_data (l : list ProofStep) : string :=
  json_dumps (PList (List.map to_dict l)).

Definition finalize_chain : Run ProofChain :=
  g <- get_self ;;
  (* Create chain hash by hashing all steps in order *)
  let h := sha256_hex (encode (chain_data (steps g))) in
  set_self (fun g =>
    {| secret_key := secret_key g; steps := steps g; chain_hash := h |}) ;;;
  g <- get_self ;;
  generated <- utcnow ;;
  ret {| pc_proof_id := "proof-" +:+ take 16 (chain_hash g);
         pc_generated_at := iso_z generated;
         pc_total_steps := Z.of_nat (length (steps g));
         pc_chain_hash := chain_hash g;
         pc_steps := List.map to_dict (steps g) |}.

End ProofGen.

(* ================================================================== *)
(** * The properties, in the words of the specification                *)
(* ================================================================== *)

(** ** Binding Validator: the six checks *)

Module BindingSpec.
Import Py Publisher.

Inductive binding_check :=
  | RunIdEquality
  | OperationKindEquality
  | IsEnforceable
  | NotConsumed
  | NotExpired
  | NotStale.

(** The fixed order of evaluation. *)
Definition six_checks : list binding_check :=
  [RunIdEquality; OperationKindEquality; IsEnforceable; NotConsumed;
   NotExpired; NotStale].

(** What each check requires of a receipt presented at [now] for
    [(expected_run_id, expected_operation)]. *)
Definition passes (now : datetime) (receipt : EnforceableReceipt)
  (expected_run_id : string) (expected_operation : OperationKind)
  (c : binding_check) : bool :=
  match c with
  | RunIdEquality => String.eqb (run_id receipt) expected_run_id
  | OperationKindEquality =>
      String.eqb (operation_kind receipt) (value expected_operation)
  | IsEnforceable => enforceable receipt
  | NotConsumed => negb (consumed receipt)
  | NotExpired => now <=? expires_at receipt
  | NotStale => now - issued_at receipt <=? timedelta_hours 24
  end.

Definition first_failure (now : datetime) (receipt : EnforceableReceipt)
  (expected_run_id : string) (expected_operation : OperationKind)
  : option binding_check :=
  List.find (fun c => negb (passes now receipt expected_run_id expected_operation c))
    six_checks.

(** The message raised for a failed check. *)
Definition failure_message (now : datetime) (receipt : EnforceableReceipt)
  (expected_run_id : string) (expected_operation : OperationKind)
  (c : binding_check) : string :=
  match c with
  | RunIdEquality => msg_cross_run receipt expected_run_id
  | OperationKindEquality => msg_cross_operation receipt expected_operation
  | IsEnforceable => msg_advisory receipt
  | NotConsumed => msg_consumed receipt
  | NotExpired => msg_expired receipt
  | NotStale => msg_stale receipt (now - issued_at receipt)
  end.



End BindingSpec.

(** ** Sample inputs *)

Module Samples.
Import Py.

(** 2024-02-10T12:00:00 UTC *)
Definition noon : datetime := 1707566400000000.

(** A clock whose readings advance by one microsecond from [t]. *)
Definition clock_from (t : datetime) : nat -> datetime :=
  fun n => Z.of_nat n + t.

(** An enforceable publisher receipt for run-1 / publish_release, issued at
    noon and expiring one hour later. *)
Definition receipt_run1 : Publisher.EnforceableReceipt :=
  {| Publisher.receipt_id := "receipt-123";
     Publisher.run_id := "run-1";
     Publisher.operation_kind := "publish_release";
     Publisher.enforceable := true;
     Publisher.issued_at := noon;
     Publisher.expires_at := noon + timedelta_hours 1;
     Publisher.consumed := false;
     Publisher.consumed_at := None |}.

Definition publisher_in (m : string) : Publisher.GitHubPublisher :=
  {| Publisher.mode := m; Publisher.github_token := "fake-token";
     Publisher.enable_recovery := true; Publisher.requests_per_hour := 5000;
     Publisher.request_times := []; Publisher.consumed_receipts := ∅;
     Publisher.audit_records := [] |}.

(** A world holding [receipt_run1] at reference 0, a publisher in mode [m],
    and a clock started at [t]. *)
Definition publisher_world (m : string) (t : datetime) : Publisher.World :=
  {| Publisher.clock := clock_from t; Publisher.ticks := 0;
     Publisher.receipts := [receipt_run1];
     Publisher.platform_calls := []; Publisher.slept := [];
     Publisher.self := publisher_in m |}.

End Samples.

(** ** Executor: the mode gate *)

Module ExecutorSpec.
Import Py Publisher.

(** What a call refused at the mode gate leaves behind: the mode violation
    is raised, the platform saw no call, no receipt object changed, and one
    audit record with the given [status] was appended. *)
Definition refused_at_mode_gate {A : Type} (op_name : string) (kind : OperationKind)
  (status : string) (w : World) (r : outcome exn A * World) : Prop :=
  fst r = Raise (mode_violation op_name (self w)) /\
  platform_calls (snd r) = platform_calls w /\
  receipts (snd r) = receipts w /\
  exists a,
    audit_records (self (snd r)) = audit_records (self w) ++ [a] /\
    ar_status a = status /\
    ar_operation_kind a = kind /\
    ar_mode a = mode (self w) /\
    ar_error_code a = Some "ModeViolationError" /\
    ar_error_message a = Some (exn_str (mode_violation op_name (self w))).

(** Every reference a caller passes points to a receipt object. *)
Definition valid_ref (w : World) (receipt : option nat) : Prop :=
  match receipt with
  | Some l => is_Some (receipts w !! l)
  | None => True
  end.

End ExecutorSpec.

(** ** Receipt Authority *)

Module AuthoritySpec.
Import Py FC.

(** The receipt identifier as the specification words it: sixteen hex
    characters of the SHA-256 of run_id, operation_kind and the time joined
    by colons. *)
Definition receipt_id_as_specified (context : OperationContext) (now : datetime)
  : string :=
  "receipt-" +:+
  take 16 (sha256_hex (encode (ctx_run_id context +:+ ":" +:+
                                 value (ctx_operation_kind context) +:+ ":" +:+
                                 isoformat now))).


Section Predicates.
Context {rt : StrRuntime}.

(** A requirement the evaluation can read: either it holds no [>=], or it
    splits at a single [>=] and its right side is an integer. *)
Definition readable (req : string) : Prop :=
  contains ">=" req = false \/
  exists key val n, split ">=" req = [key; val] /\ int_of_str (strip val) = Some n.

(** A requirement the evaluation counts against the evidence: a [>=]
    predicate on approval_count whose bound exceeds the number of
    approvers. *)
Definition violated (evidence : AuthorizationEvidence) (req : string) : bool :=
  contains ">=" req &&
  match split ">=" req with
  | [key; val] =>
      String.eqb (strip key) "approval_count" &&
      match int_of_str (strip val) with
      | Some n => Z.of_nat (length (approvers evidence)) <? n
      | None => false
      end
  | _ => false
  end.

(** The repository check of a rule set passes. *)
Definition repository_allowed_by (rs : RuleSet) (context : OperationContext) : Prop :=
  match allowed_repositories rs with
  | Some allowed => _matches_pattern (ctx_repository context) allowed = true
  | None => True
  end.


End Predicates.

(** The receipt issued by a call that ran from [w] to [w'] and returned
    the reference [l]: a new object, signed under the generator's secret,
    filed in [issued_receipts] under its id and recorded last in the
    issuance audit with the decision [dec]. *)
Definition issued (context : OperationContext) (enf : bool) (dec : string)
  (w w' : World) (l : nat) : Prop :=
  exists r,
    l = length (heap w) /\
    heap w' = heap w ++ [r] /\
    run_id r = ctx_run_id context /\
    operation_kind r = value (ctx_operation_kind context) /\
    enforceable r = enf /\
    consumed r = false /\
    signature r = Some (mac (fc_secret (self w)) r) /\
    verify_signature r (fc_secret (self w)) = Return true /\
    issued_receipts (self w') = <[receipt_id r := l]> (issued_receipts (self w)) /\
    exists entry,
      issuance_audit (self w') = issuance_audit (self w) ++ [entry] /\
      ia_receipt_id entry = receipt_id r /\
      ia_enforceable entry = enf /\
      ia_decision entry = dec.

(** The evidence that [authorize_and_issue_receipt] validates: the one
    supplied, or the default one built from the second reading of the
    clock. *)
Definition evidence_used (approval_evidence : option AuthorizationEvidence)
  (w : World) : AuthorizationEvidence :=
  match approval_evidence with
  | None => default_evidence (iso_z (clock w (S (ticks w)))) (self w)
  | Some e => e
  end.

(** A caller that presents the receipts [refs] one after the other; the log
    notes for each call the receipt_id presented and whether the call
    returned [True]. *)
Fixpoint present_all (refs : list nat) (w : World)
  : list (option string * bool) * World :=
  match refs with
  | [] => ([], w)
  | l :: rest =>
      let rid := option_map receipt_id (heap w !! l) in
      let r := verify_and_consume_receipt l w in
      let ok := match fst r with Return true => true | _ => false end in
      let rest' := present_all rest (snd r) in
      ((rid, ok) :: fst rest', snd rest')
  end.

(** The number of successful consumptions of receipt id [rid] in a log. *)
Definition successes (rid : string) (log : list (option string * bool)) : nat :=
  length (List.filter
            (fun e => match e with
                      | (Some i, true) => String.eqb i rid
                      | _ => false
                      end) log).

End AuthoritySpec.

Module FCSamples.
Import Py FC.

Definition open_policy : AuthorizationPolicy :=
  {| policy_id := "policy-001"; version := "1.0";
     rules := {[ "publish_release" :=
                   {| allowed_repositories := Some ["omega/*"; "marketops/*"];
                      require_evidence := Some ["approval_count >= 2"];
                      rate_limit := None |} ]} |}.

(** A policy with one requirement per operator. *)
Definition policy_requiring (req : string) : AuthorizationPolicy :=
  {| policy_id := "policy-002"; version := "1.0";
     rules := {[ "publish_release" :=
                   {| allowed_repositories := None;
                      require_evidence := Some [req];
                      rate_limit := None |} ]} |}.

Definition generator_world (p : AuthorizationPolicy) : World :=
  {| clock := Samples.clock_from Samples.noon; ticks := 0; heap := [];
     self := init "federation-core" "fc-secret-key" p "github-publisher" |}.

Definition release_context (repository : string) : OperationContext :=
  {| ctx_run_id := "run-1"; ctx_operation_kind := PUBLISH_RELEASE;
     ctx_repository := repository; ctx_payload := PDict [];
     ctx_evidence := PDict [] |}.

Definition evidence_of (names : list string) : AuthorizationEvidence :=
  {| checked_at := "2024-02-10T12:00:00Z"; ev_policy_id := "policy-001";
     decision := APPROVED; reason := "Approved via batch authorization";
     approvers := names; checks := [] |}.

(** An unsigned receipt built by hand. *)
Definition unsigned_receipt : EnforceableReceipt :=
  {| receipt_id := "receipt-proof-canonical-001";
     run_id := "proof-canonical-001";
     operation_kind := "publish_release";
     enforceable := true;
     issued_at := "2024-02-10T12:00:00Z";
     expires_at := "2024-02-10T13:00:00Z";
     issuer := "federation-core";
     audience := "github-publisher";
     signature := None;
     evidence_hash := Some "hash-of-fc-authorization-evidence";
     consumed := false;
     consumed_at := None |}.

Definition flip_enforceable (r : EnforceableReceipt) : EnforceableReceipt :=
  {| receipt_id := receipt_id r; run_id := run_id r;
     operation_kind := operation_kind r; enforceable := negb (enforceable r);
     issued_at := issued_at r; expires_at := expires_at r; issuer := issuer r;
     audience := audience r; signature := signature r;
     evidence_hash := evidence_hash r;
     consumed := consumed r; consumed_at := consumed_at r |}.

End FCSamples.

(** ** Receipt Authority: consumption *)

Module ConsumeSpec.
Import Py FC.

(** The errors of the three checks, in their order. *)
Definition invalid_signature_error (r : EnforceableReceipt) : exn :=
  mk_exn AuthorizationError
    ("Receipt " +:+ receipt_id r +:+ " has invalid signature (not issued by FC)").

Definition not_issued_error (r : EnforceableReceipt) : exn :=
  mk_exn AuthorizationError
    ("Receipt " +:+ receipt_id r +:+ " was not issued by this FC instance").

Definition already_consumed_error (r stored : EnforceableReceipt) : exn :=
  mk_exn AuthorizationError
    ("Receipt " +:+ receipt_id r +:+ " already consumed at "
     +:+ fmt_opt (consumed_at stored)).

(** The world after a successful consumption of the stored receipt at
    reference [ls]: one reading of the clock, and the stored object marked
    consumed at that instant. *)
Definition consumed_world (w : World) (ls : nat) (stored : EnforceableReceipt)
  : World :=
  {| clock := clock w; ticks := S (ticks w);
     heap := <[ls := set_consumed stored (iso_z (clock w (ticks w)))]> (heap w);
     self := self w |}.

(** The record filed under receipt id [rid] is marked consumed. *)
Definition filed_consumed (w : World) (rid : string) : Prop :=
  exists ls stored,
    issued_receipts (self w) !! rid = Some ls /\
    heap w !! ls = Some stored /\
    consumed stored = true.

End ConsumeSpec.

Module ConsumeSamples.
Import Py FC FCSamples.

(** The hand-built receipt, signed under the generator's secret. *)
Definition signed_receipt : EnforceableReceipt :=
  sign unsigned_receipt "fc-secret-key".

(** A generator that has [signed_receipt] on file, the caller holding the
    same object at reference 0. *)
Definition filing_world : World :=
  {| clock := Samples.clock_from Samples.noon; ticks := 0;
     heap := [signed_receipt];
     self := {| fc_id := "federation-core"; fc_secret := "fc-secret-key";
                policy := open_policy; gen_audience := "github-publisher";
                issued_receipts := {[ "receipt-proof-canonical-001" := 0%nat ]};
                issuance_audit := [] |} |}.

End ConsumeSamples.

(** ** Executor: the remaining methods and the paths of an operation *)

Module PublisherExt.
Import Py Publisher.

(** [GithubOperationRequest] *)
Record GithubOperationRequest := {
  req_run_id : string;
  req_operation_kind : OperationKind;
  req_receipt_id : string;
  req_repository : string;
  req_payload : pyval;
  req_mode : string
}.

(** [GithubOperationRequest.validate_mode]: strict case-sensitive mode
    validation. *)
Definition validate_mode (req : GithubOperationRequest) : outcome exn unit :=
  if negb (existsb (String.eqb (req_mode req)) [mode_value PROD; mode_value DRY_RUN]) then
    Raise (mk_exn ModeViolationError
             ("Invalid mode '" +:+ req_mode req +:+ "'. Must be exactly 'prod' or 'dry_run'"))
  else Return tt.

(** [GithubOperationRequest.to_audit_event] *)
Definition to_audit_event (req : GithubOperationRequest) : Run pyval :=
  now <- utcnow ;;
  ret (PDict [("run_id", PStr (req_run_id req));
              ("operation_kind", PStr (value (req_operation_kind req)));
              ("receipt_id", PStr (req_receipt_id req));
              ("repository", PStr (req_repository req));
              ("mode", PStr (req_mode req));
              ("timestamp", PStr (iso_z now))]).


(** [GitHubPublisher.get_audit_trail] *)
Definition get_audit_trail : Run (list OperationAuditRecord) :=
  p <- get_self ;; ret (audit_records p).

(** [GitHubPublisher.get_consumed_receipts] *)
Definition get_consumed_receipts : Run (gmap string datetime) :=
  p <- get_self ;; ret (consumed_receipts p).

End PublisherExt.

Module ExecutorPaths.
Import Py Publisher BindingSpec ExecutorSpec.

(** The world after one reading of the clock. *)
Definition tick (w : World) : World :=
  {| clock := clock w; ticks := S (ticks w); receipts := receipts w;
     platform_calls := platform_calls w; slept := slept w; self := self w |}.

(** An operation started in [w] reads the clock twice (operation id,
    started_at); the binding validation takes the third reading and the
    rate limiter the fourth. *)
Definition validation_time (w : World) : datetime := clock w (S (S (ticks w))).
Definition rate_time (w : World) : datetime := clock w (S (S (S (ticks w)))).

(** The requests on record within the hour before [now]. *)
Definition recent_requests (now : datetime) (p : GitHubPublisher) : list datetime :=
  List.filter (fun t => t >? now - timedelta_hours 1) (request_times p).

Definition has_capacity (now : datetime) (p : GitHubPublisher) : bool :=
  Z.of_nat (length (recent_requests now p)) <? requests_per_hour p.

Definition no_receipt_error : exn :=
  mk_exn ReceiptValidationError "No receipt provided (required for authorization)".

Definition binding_error (now : datetime) (r : EnforceableReceipt) (run : string)
  (kind : OperationKind) (c : binding_check) : exn :=
  mk_exn ReceiptValidationError (failure_message now r run kind c).

Definition rate_limited_error : exn := mk_exn Exception "Rate limited".

(** The error at which the entry checks of an operation stop: mode, then
    receipt and binding, then rate limit. *)
Definition gate_error (op_name : string) (w : World) (run : string)
  (kind : OperationKind) (receipt : option nat) : option exn :=
  if negb (String.eqb (mode (self w)) "prod") then
    Some (mode_violation op_name (self w))
  else
    match receipt with
    | None => Some no_receipt_error
    | Some l =>
        match receipts w !! l with
        | None => Some (mk_exn Exception "dangling reference")
        | Some r =>
            match first_failure (validation_time w) r run kind with
            | Some c => Some (binding_error (validation_time w) r run kind c)
            | None =>
                if has_capacity (rate_time w) (self w) then None
                else Some rate_limited_error
            end
        end
    end.

(** The error of the repository argument: [publish_release] tests for a
    slash before it unpacks the split, the other two only unpack. *)
Definition release_repository_error (repository : string) : option exn :=
  if negb (contains "/" repository) then
    Some (mk_exn ValueError
            ("Repository must be in 'owner/repo' format, got '" +:+ repository +:+ "'"))
  else
    match split "/" repository with
    | [_; _] => None
    | _ => Some (mk_exn ValueError "too many values to unpack (expected 2)")
    end.

Definition unpack_error (repository : string) : option exn :=
  match split "/" repository with
  | [_; _] => None
  | [_] => Some (mk_exn ValueError "not enough values to unpack (expected 2, got 1)")
  | _ => Some (mk_exn ValueError "too many values to unpack (expected 2)")
  end.

(** The receipt id an audit record of a refusal carries. *)
Definition audited_receipt_id (w : World) (receipt : option nat) : string :=
  match receipt with
  | None => "NONE"
  | Some l =>
      match receipts w !! l with
      | Some r => receipt_id r
      | None => "NONE"
      end
  end.

(** The call is authorized: the mode is prod and the receipt presented
    passes the six checks at the validation time. *)
Definition authorized (w : World) (run : string) (kind : OperationKind)
  (receipt : option nat) : Prop :=
  mode (self w) = "prod" /\
  exists l r,
    receipt = Some l /\ receipts w !! l = Some r /\
    first_failure (validation_time w) r run kind = None.

(** The call was refused with [e]: nothing reached the platform, no receipt
    object and no consumption record changed, nothing slept, and exactly
    one audit record was appended, carrying the error and the id of the
    receipt presented. *)
Definition refused_with {A : Type} (e : exn) (kind : OperationKind)
  (receipt : option nat) (w : World) (r : outcome exn A * World) : Prop :=
  fst r = Raise e /\
  platform_calls (snd r) = platform_calls w /\
  receipts (snd r) = receipts w /\
  slept (snd r) = slept w /\
  consumed_receipts (self (snd r)) = consumed_receipts (self w) /\
  mode (self (snd r)) = mode (self w) /\
  exists a,
    audit_records (self (snd r)) = audit_records (self w) ++ [a] /\
    ar_status a = failure_status e /\
    ar_operation_kind a = kind /\
    ar_receipt_id a = audited_receipt_id w receipt /\
    ar_error_code a = Some (type_name (exn_type e)) /\
    ar_error_message a = Some (exn_str e) /\
    ar_result a = None.

(** The receipt object after [mark_consumed] at the instant [t]. *)
Definition consumed_receipt (r : EnforceableReceipt) (t : datetime)
  : EnforceableReceipt :=
  {| receipt_id := receipt_id r; run_id := run_id r;
     operation_kind := operation_kind r; enforceable := enforceable r;
     issued_at := issued_at r; expires_at := expires_at r;
     consumed := true; consumed_at := Some (iso_z t) |}.

(** The call was executed under the receipt [r0] at reference [l]: the
    platform received exactly [call], the receipt object is marked
    consumed, its id is in the consumption records, the request is counted
    by the rate limiter, and exactly one audit record, with status success
    and the receipt's id, was appended and returned. *)
Definition executed_with (call : PlatformCall) (kind : OperationKind) (l : nat)
  (r0 : EnforceableReceipt) (w : World) (resp : OperationResponse) (w' : World)
  : Prop :=
  platform_calls w' = platform_calls w ++ [call] /\
  slept w' = slept w /\
  (exists t, receipts w' = <[l := consumed_receipt r0 t]> (receipts w)) /\
  (exists t, consumed_receipts (self w')
             = <[receipt_id r0 := t]> (consumed_receipts (self w))) /\
  (exists t, request_times (self w')
             = recent_requests (rate_time w) (self w) ++ [t]) /\
  mode (self w') = mode (self w) /\
  audit_records (self w') = audit_records (self w) ++ [resp_audit_record resp] /\
  resp_status resp = "success" /\
  ar_status (resp_audit_record resp) = "success" /\
  ar_operation_kind (resp_audit_record resp) = kind /\
  ar_receipt_id (resp_audit_record resp) = receipt_id r0 /\
  ar_error_code (resp_audit_record resp) = None /\
  ar_result (resp_audit_record resp) = Some (resp_result resp).

(** What the steps before the platform call preserve. *)
Definition calm (w w' : World) : Prop :=
  clock w' = clock w /\ receipts w' = receipts w /\
  platform_calls w' = platform_calls w /\ slept w' = slept w /\
  consumed_receipts (self w') = consumed_receipts (self w) /\
  audit_records (self w') = audit_records (self w) /\
  mode (self w') = mode (self w).

End ExecutorPaths.

Module ExecutorOps.
Import Py Publisher BindingSpec ExecutorSpec ExecutorPaths.

(** A call of one of the three public operations, with its arguments. *)
Inductive operation :=
  | Release (repository tag_name release_name body : string) (draft prerelease : bool)
  | Tag (repository tag_name target_sha message : string)
  | PullRequest (repository title body head_branch base_branch : string).

Definition op_kind (op : operation) : OperationKind :=
  match op with
  | Release _ _ _ _ _ _ => PUBLISH_RELEASE
  | Tag _ _ _ _ => TAG_REPO
  | PullRequest _ _ _ _ _ => OPEN_PR
  end.

Definition op_name (op : operation) : string := value (op_kind op).

Definition op_repository (op : operation) : string :=
  match op with
  | Release repository _ _ _ _ _ => repository
  | Tag repository _ _ _ => repository
  | PullRequest repository _ _ _ _ => repository
  end.

(** The call the platform receives for [op] once the repository is split
    into owner and name. *)
Definition platform_call_of (op : operation) (owner repo : string) : PlatformCall :=
  match op with
  | Release _ tag_name release_name body draft prerelease =>
      CreateRelease owner repo tag_name release_name body draft prerelease
  | Tag _ tag_name target_sha message =>
      CreateTag owner repo tag_name target_sha message
  | PullRequest _ title body head_branch base_branch =>
      CreatePullRequest owner repo title body head_branch base_branch
  end.

Definition repository_error (op : operation) : option exn :=
  match op with
  | Release repository _ _ _ _ _ => release_repository_error repository
  | Tag repository _ _ _ => unpack_error repository
  | PullRequest repository _ _ _ _ => unpack_error repository
  end.

(** The method of [GitHubPublisher] that [op] stands for, called for
    [run_id0] with [receipt]. *)
Definition perform (op : operation) (run_id0 : string) (receipt : option nat)
  : Run (option OperationResponse) :=
  match op with
  | Release repository tag_name release_name body draft prerelease =>
      publish_release run_id0 receipt repository tag_name release_name body
        draft prerelease
  | Tag repository tag_name target_sha message =>
      resp <- tag_repo run_id0 receipt repository tag_name target_sha message ;;
      ret (Some resp)
  | PullRequest repository title body head_branch base_branch =>
      resp <- open_pr run_id0 receipt repository title body head_branch base_branch ;;
      ret (Some resp)
  end.

(** The status of the last audit record. *)
Definition last_status (w : World) : option string :=
  option_map ar_status (last (audit_records (self w))).

End ExecutorOps.

(** ** Sample calls of the executor *)

Module ExecutorSamples.
Import Py Publisher ExecutorOps.

(** A publisher in prod mode holding the receipt of run-1 at reference 0. *)
Definition prod_world : World := Samples.publisher_world "prod" Samples.noon.

(** The same publisher after 5000 requests at noon. *)
Definition busy_world : World :=
  {| clock := clock prod_world; ticks := 0; receipts := receipts prod_world;
     platform_calls := []; slept := [];
     self := {| mode := "prod"; github_token := "fake-token";
                enable_recovery := true; requests_per_hour := 5000;
                request_times := List.repeat Samples.noon 5000;
                consumed_receipts := ∅; audit_records := [] |} |}.

Definition release_v1 : operation :=
  Release "owner/repo" "v1.0.0" "Release 1.0.0" "Release notes" false false.

Definition release_no_slash : operation :=
  Release "owner-repo" "v1.0.0" "Release 1.0.0" "Release notes" false false.

Definition tag_v1 : operation :=
  Tag "owner/repo" "v1.0.0" "abc123" "Tag 1.0.0".

End ExecutorSamples.

(** ** Receipt Authority: the generator's store *)

Module GeneratorPaths.
Import Py FC.

(** The world after a call of [authorize_and_issue_receipt] that returned:
    two readings of the clock, the signed receipt [r] as a new object filed
    under its id, and [entry] last in the issuance audit. *)
Definition minted_world (w : World) (r : EnforceableReceipt) (entry : IssuanceRecord)
  : World :=
  {| clock := clock w; ticks := S (S (ticks w)); heap := heap w ++ [r];
     self := {| fc_id := fc_id (self w); fc_secret := fc_secret (self w);
                policy := policy (self w); gen_audience := gen_audience (self w);
                issued_receipts :=
                  <[receipt_id r := length (heap w)]> (issued_receipts (self w));
                issuance_audit := issuance_audit (self w) ++ [entry] |} |}.

(** Every id on file refers to a live receipt object that carries this id
    and a signature valid under the generator's secret. *)
Definition store_ok (w : World) : Prop :=
  forall rid l,
    issued_receipts (self w) !! rid = Some l ->
    exists r, heap w !! l = Some r /\ receipt_id r = rid /\
              verify_signature r (fc_secret (self w)) = Return true.

End GeneratorPaths.

Module GeneratorSamples.
Import Py FC FCSamples.

(** A generator after two calls for the release of omega/app: the first
    without evidence, the second approved by two. *)
Definition two_receipts_world : World :=
  snd (@authorize_and_issue_receipt ascii_runtime (release_context "omega/app")
         (Some (evidence_of ["alice"; "bob"]))
         (snd (@authorize_and_issue_receipt ascii_runtime
                 (release_context "omega/app") None
                 (generator_world open_policy)))).

End GeneratorSamples.

(** ** Proof Chain Generator: a caller that records steps *)

Module ProofGenExt.
Import Py ProofGen.

(** The arguments of one call of [record_step]. *)
Record StepCall := {
  sc_step_id : string;
  sc_actor : string;
  sc_description : string;
  sc_input : pyval;
  sc_output : pyval
}.

(** A caller that records the steps [calls] one after the other. *)
Fixpoint record_all (calls : list StepCall) : Run unit :=
  match calls with
  | [] => ret tt
  | c :: rest =>
      record_step (sc_step_id c) (sc_actor c) (sc_description c)
        (sc_input c) (sc_output c) ;;;
      record_all rest
  end.

(** The string a step's signature is computed over. *)
Definition signed_data (s : ProofStep) : string :=
  step_id s +:+ ":" +:+ timestamp s +:+ ":" +:+ actor s +:+ ":"
  +:+ input_hash s +:+ ":" +:+ output_hash s.

End ProofGenExt.

(** ** The order of dictionary items *)

Module KeyOrder.

(** The order in which [sorted] compares two items: by key. *)
Definition key_le {A : Type} (a b : string * A) : Prop :=
  String.leb (fst a) (fst b) = true.

End KeyOrder.

Module ForgerySamples.
Import Py FC FCSamples ConsumeSamples.

(** The generator of [filing_world], the caller presenting the filed
    receipt with its enforceable flag flipped and the signature kept. *)
Definition forged_world : World :=
  {| clock := clock filing_world; ticks := 0;
     heap := [signed_receipt; flip_enforceable signed_receipt];
     self := self filing_world |}.

End ForgerySamples.

(* ================================================================== *)
(** * Theorems                                                         *)
(* ================================================================== *)

(** ** Text *)

Lemma startswith_append (p s : string) : Py.startswith p (p +:+ s) = true.
Proof.
  induction p as [|c p IH]; simpl; [reflexivity|].
  rewrite Ascii.eqb_refl. exact IH.
Qed.







(** ** Binding Validator *)

Section BindingValidator.
Import Py Publisher BindingSpec.

Lemma gtb_leb (a b : Z) : (a >? b) = negb (a <=? b).
Proof.
  rewrite Z.gtb_ltb, Z.leb_antisym. now rewrite negb_involutive.
Qed.




End BindingValidator.

Section Expiry.
Import Py Publisher BindingSpec.





End Expiry.

Section ModeGate.
Import Py Publisher ExecutorSpec.

Lemma failure_status_mode_violation (msg : string) :
  failure_status (mk_exn ModeViolationError msg) = "rejected_by_auth".
Proof. reflexivity. Qed.

Lemma failure_status_values (e : exn) :
  failure_status e = "failed" \/ failure_status e = "rejected_by_auth".
Proof.
  unfold failure_status.
  destruct (isinstance e Exception && _); [left | right]; reflexivity.
Qed.

Lemma audit_failure_mode_gate {A : Type} (op_name opid run repository started : string)
  (kind : OperationKind) (receipt : option nat) (w0 w : World) :
  valid_ref w receipt ->
  self w = self w0 -> receipts w = receipts w0 -> platform_calls w = platform_calls w0 ->
  @refused_at_mode_gate A op_name kind "rejected_by_auth" w0
    ((audit_failure opid run kind receipt repository started
        (mode_violation op_name (self w0)) ;;;
      raise (mode_violation op_name (self w0)))%py w).
Proof.
  intros Href Hself Hrec Hcalls.
  unfold refused_at_mode_gate, audit_failure, bind, utcnow, receipt_id_or_none,
    get_self, append_audit, set_self, modify, raise, ret.
  destruct receipt as [l|]; cbn [valid_ref] in Href.
  - destruct Href as [r Hr].
    unfold deref, bind, ret. cbn [receipts]. rewrite Hr.
    cbn [fst snd self receipts platform_calls audit_records mode].
    rewrite Hself, Hrec, Hcalls.
    repeat split. eexists. repeat split.
  - cbn [fst snd self receipts platform_calls audit_records mode].
    rewrite Hself, Hrec, Hcalls.
    repeat split. eexists. repeat split.
Qed.

Lemma bind_utcnow {A : Type} (k : datetime -> Run A) (w : World) :
  bind utcnow k w
  = k (clock w (ticks w))
      {| clock := clock w; ticks := S (ticks w); receipts := receipts w;
         platform_calls := platform_calls w; slept := slept w; self := self w |}.
Proof. reflexivity. Qed.

Lemma mode_not_prod (w : World) :
  mode (self w) <> "prod" ->
  String.eqb (mode (self w)) (mode_value PROD) = false.
Proof. intros H. now apply String.eqb_neq. Qed.

(** C1 (what the code does).  For each of the three operations called while
    the mode is not exactly prod: the mode violation is raised, no platform
    call is made, no receipt is touched, and the one audit record appended
    has status rejected_by_auth; no failure path writes any other status
    than failed or rejected_by_auth. *)
Theorem mode_gate_refuses_every_operation (w : World) (receipt : option nat)
  (run repository tag_name release_name body target_sha message title
     head_branch base_branch : string) (draft prerelease : bool) :
  mode (self w) <> "prod" ->
  valid_ref w receipt ->
  refused_at_mode_gate "publish_release" PUBLISH_RELEASE "rejected_by_auth" w
    (publish_release run receipt repository tag_name release_name body
       draft prerelease w) /\
  refused_at_mode_gate "tag_repo" TAG_REPO "rejected_by_auth" w
    (tag_repo run receipt repository tag_name target_sha message w) /\
  refused_at_mode_gate "open_pr" OPEN_PR "rejected_by_auth" w
    (open_pr run receipt repository title body head_branch base_branch w) /\
  (forall e, failure_status e <> "rejected_by_mode").
Proof.
  intros Hmode Href. apply mode_not_prod in Hmode.
  split; [|split; [|split]].
  - unfold publish_release. rewrite !bind_utcnow.
    unfold try_except, bind at 1, get_self. cbn [self]. rewrite Hmode.
    cbn [negb]. unfold raise at 1.
    apply audit_failure_mode_gate; [exact Href | reflexivity ..].
  - unfold tag_repo. rewrite !bind_utcnow.
    unfold try_except, bind at 1, get_self. cbn [self]. rewrite Hmode.
    cbn [negb]. unfold raise at 1.
    apply audit_failure_mode_gate; [exact Href | reflexivity ..].
  - unfold open_pr. rewrite !bind_utcnow.
    unfold try_except, bind at 1, get_self. cbn [self]. rewrite Hmode.
    cbn [negb]. unfold raise at 1.
    apply audit_failure_mode_gate; [exact Href | reflexivity ..].
  - intros e. destruct (failure_status_values e) as [H|H]; rewrite H; discriminate.
Qed.

(** The theorem at a publisher constructed in dry_run mode. *)
Lemma mode_gate_refuses_every_operation_witness :
  refused_at_mode_gate "publish_release" PUBLISH_RELEASE "rejected_by_auth"
    (Samples.publisher_world "dry_run" Samples.noon)
    (publish_release "run-1" (Some 0%nat) "owner/repo" "v1.0.0" "Release 1.0.0"
       "Release notes" false false (Samples.publisher_world "dry_run" Samples.noon)).
Proof.
  apply (mode_gate_refuses_every_operation
           (Samples.publisher_world "dry_run" Samples.noon) (Some 0%nat)
           "run-1" "owner/repo" "v1.0.0" "Release 1.0.0" "Release notes"
           "" "" "" "" "" false false).
  - discriminate.
  - cbn. eauto.
Defined.

(** C1 at the failing input: a publisher constructed with mode dry_run and
    the valid receipt of run-1.  The audit record says rejected_by_auth. *)
Lemma dry_run_audit_status :
  init "fake-token" "dry_run" true = Return (Samples.publisher_in "dry_run") /\
  let r := publish_release "run-1" (Some 0%nat) "owner/repo" "v1.0.0"
             "Release 1.0.0" "Release notes" false false
             (Samples.publisher_world "dry_run" Samples.noon) in
  fst r = Raise (mk_exn ModeViolationError
                   "publish_release requires mode='prod'. Current mode: 'dry_run'") /\
  platform_calls (snd r) = [] /\
  List.map ar_status (audit_records (self (snd r))) = ["rejected_by_auth"].
Proof. vm_compute. repeat split; reflexivity. Qed.

End ModeGate.

(** ** Digests *)

Section Digests.
Import Py.

Lemma hexdigit_is_ascii (n : Z) : (byte_of_ascii (hexdigit n) <? 128) = true.
Proof.
  unfold hexdigit.
  destruct (Z.land n 15) as [|p|p]; try reflexivity.
  do 4 (try (destruct p as [p|p|]; try reflexivity)).
Qed.

Lemma hexlify_is_ascii (l : list Z) : is_ascii (hexlify l) = true.
Proof.
  unfold is_ascii. induction l as [|b l IH]; [reflexivity|].
  cbn [hexlify encode forallb].
  rewrite !hexdigit_is_ascii. exact IH.
Qed.

Lemma hexlify_length (l : list Z) :
  String.length (hexlify l) = (2 * length l)%nat.
Proof.
  induction l as [|b l IH]; [reflexivity|].
  cbn [hexlify String.length length]. rewrite IH. lia.
Qed.

Lemma sha_digest_length (st : sha_state) : length (sha_digest st) = 32%nat.
Proof. destruct st as [[[[[[[a b] c] d] e] f] g] h]. reflexivity. Qed.

Lemma md5_digest_length (st : md5_state) : length (md5_digest st) = 16%nat.
Proof. destruct st as [[[a b] c] d]. reflexivity. Qed.


Lemma md5_hex_length (m : list Z) : String.length (md5_hex m) = 32%nat.
Proof.
  unfold md5_hex. now rewrite hexlify_length, md5_digest_length.
Qed.

Lemma hmac_sha256_hex_length (key msg : list Z) :
  String.length (hmac_sha256_hex key msg) = 64%nat.
Proof.
  unfold hmac_sha256_hex, hmac_sha256, sha256.
  now rewrite hexlify_length, sha_digest_length.
Qed.

Lemma take_length (n : nat) (s : string) :
  (n <= String.length s)%nat -> String.length (take n s) = n.
Proof.
  revert s. induction n as [|n IH]; intros s Hn; [reflexivity|].
  destruct s as [|c s]; cbn [String.length] in Hn; [lia|].
  cbn [take String.length]. rewrite IH; lia.
Qed.

Lemma append_length (a b : string) :
  String.length (a +:+ b) = (String.length a + String.length b)%nat.
Proof.
  induction a as [|c a IH]; [reflexivity|].
  change (String c a +:+ b) with (String c (a +:+ b)).
  cbn [String.length]. now rewrite IH.
Qed.





End Digests.

(** ** Signing *)

Section Signing.
Import Py FC AuthoritySpec.

Lemma mac_nonempty (secret : string) (r : EnforceableReceipt) :
  exists c s, mac secret r = String c s.
Proof.
  pose proof (hmac_sha256_hex_length (encode secret) (encode (payload_str r))) as H.
  unfold mac. destruct (hmac_sha256_hex _ _) as [|c s]; [discriminate H|eauto].
Qed.

Lemma mac_is_ascii (secret : string) (r : EnforceableReceipt) :
  is_ascii (mac secret r) = true.
Proof. apply hexlify_is_ascii. Qed.

Lemma mac_set_signature (secret : string) (r : EnforceableReceipt) (s : option string) :
  mac secret (set_signature r s) = mac secret r.
Proof. reflexivity. Qed.

Lemma mac_set_consumed (secret : string) (r : EnforceableReceipt) (t : string) :
  mac secret (set_consumed r t) = mac secret r.
Proof. reflexivity. Qed.

(** Verification of a receipt that carries a MAC computed by [sign]. *)
Lemma verify_signature_signed (r r' : EnforceableReceipt) (s s' : string) :
  signature r' = signature (sign r s) ->
  verify_signature r' s' = Return (String.eqb (mac s r) (mac s' r')).
Proof.
  intros Hsig. unfold verify_signature. rewrite Hsig. cbn [sign set_signature signature].
  destruct (mac_nonempty s r) as (c & t & Hmac).
  rewrite Hmac, <- Hmac.
  unfold compare_digest. now rewrite !mac_is_ascii.
Qed.


(** C10. A receipt whose signature is unset fails [verify_signature] under
    every secret, without raising; presented for consumption it is refused
    with the invalid-signature error whatever its other fields are, and
    nothing is consumed. *)
Theorem unsigned_receipt_is_refused (r : EnforceableReceipt) :
  signature r = None ->
  (forall secret, verify_signature r secret = Return false) /\
  (forall w l, heap w !! l = Some r ->
     verify_and_consume_receipt l w
     = (Raise (mk_exn AuthorizationError
                 ("Receipt " +:+ receipt_id r
                  +:+ " has invalid signature (not issued by FC)")), w)).
Proof.
  intros Hsig.
  assert (Hv : forall secret, verify_signature r secret = Return false).
  { intros secret. unfold verify_signature. now rewrite Hsig. }
  split; [exact Hv|].
  intros w l Hl.
  unfold verify_and_consume_receipt, bind, deref, get_self. rewrite Hl.
  now rewrite Hv.
Qed.

(** The theorem at the hand-built unsigned receipt. *)
Lemma unsigned_receipt_is_refused_witness :
  verify_signature FCSamples.unsigned_receipt "fc-secret-key" = Return false.
Proof.
  apply (unsigned_receipt_is_refused FCSamples.unsigned_receipt).
  reflexivity.
Defined.




End Signing.

(** ** Policy Engine *)

Section PolicyEngine.
Import Py FC AuthoritySpec.
Context {rt : StrRuntime}.

Lemma check_evidence_readable (reqs : list string) (ev : AuthorizationEvidence) :
  Forall readable reqs ->
  _check_evidence_requirements reqs ev = Return (negb (existsb (violated ev) reqs)).
Proof.
  induction 1 as [|req reqs Hreq _ IH]; [reflexivity|].
  cbn [_check_evidence_requirements existsb]. unfold violated at 1.
  destruct (contains ">=" req) eqn:Hge; cbn [andb orb]; [|exact IH].
  destruct Hreq as [Hno | (key & val & n & Hsplit & Hint)]; [congruence|].
  rewrite Hsplit, Hint.
  destruct (String.eqb (strip key) "approval_count"
            && (Z.of_nat (length (approvers ev)) <? n)); cbn [orb negb];
    [reflexivity | exact IH].
Qed.

Lemma no_ge_is_readable (reqs : list string) :
  Forall (fun req => contains ">=" req = false) reqs -> Forall readable reqs.
Proof.
  intros H. eapply Forall_impl; [exact H|]. intros req Hreq. now left.
Qed.

Lemma no_ge_is_not_violated (reqs : list string) (ev : AuthorizationEvidence) :
  Forall (fun req => contains ">=" req = false) reqs ->
  existsb (violated ev) reqs = false.
Proof.
  induction 1 as [|req reqs Hreq _ IH]; [reflexivity|].
  cbn [existsb]. unfold violated at 1. now rewrite Hreq, IH.
Qed.

Lemma validate_operation_evidence (p : AuthorizationPolicy) (ctx : OperationContext)
  (ev : AuthorizationEvidence) (rs : RuleSet) (reqs : list string) :
  rules p !! value (ctx_operation_kind ctx) = Some rs ->
  repository_allowed_by rs ctx ->
  require_evidence rs = Some reqs ->
  Forall readable reqs ->
  validate_operation p ctx ev =
  if existsb (violated ev) reqs
  then Raise (mk_exn PolicyViolationError
                ("Evidence requirements not met: " +:+ repr_list reqs))
  else Return true.
Proof.
  intros Hrs Hrepo Hreqs Hread. unfold validate_operation.
  rewrite Hrs. unfold repository_allowed_by in Hrepo.
  destruct (allowed_repositories rs) as [allowed|].
  - rewrite Hrepo. cbn [negb]. rewrite Hreqs, (check_evidence_readable _ _ Hread).
    now destruct (existsb (violated ev) reqs).
  - rewrite Hreqs, (check_evidence_readable _ _ Hread).
    now destruct (existsb (violated ev) reqs).
Qed.


(** C8, amended.  When a rule set specifies require_evidence (the operation
    is known and the repository allowed), validation fails with the
    evidence-requirement error exactly when some readable predicate
    [approval_count >= n] has [n] above the number of approvers;
    predicates without [>=], such as [<=] and [==] ones, are never
    evaluated and cannot make validation fail. *)
Theorem evidence_requirements_evaluate_ge_only (p : AuthorizationPolicy)
  (ctx : OperationContext) (ev : AuthorizationEvidence) (rs : RuleSet)
  (reqs : list string) :
  rules p !! value (ctx_operation_kind ctx) = Some rs ->
  repository_allowed_by rs ctx ->
  require_evidence rs = Some reqs ->
  (Forall readable reqs ->
   validate_operation p ctx ev =
   if existsb (violated ev) reqs
   then Raise (mk_exn PolicyViolationError
                 ("Evidence requirements not met: " +:+ repr_list reqs))
   else Return true) /\
  (Forall (fun req => contains ">=" req = false) reqs ->
   validate_operation p ctx ev = Return true).
Proof.
  intros Hrs Hrepo Hreqs. split.
  - intros Hread. now apply validate_operation_evidence with (rs := rs).
  - intros Hno.
    rewrite (validate_operation_evidence p ctx ev rs reqs Hrs Hrepo Hreqs
               (no_ge_is_readable reqs Hno)).
    now rewrite no_ge_is_not_violated.
Qed.

End PolicyEngine.

Section PolicyEngineExamples.
Import Py FC AuthoritySpec FCSamples.

(** C8, counterexample.  Three approvers against [approval_count <= 1], and
    no approver against [approval_count == 2]: validation passes both. *)
Lemma le_and_eq_predicates_pass :
  @validate_operation ascii_runtime (policy_requiring "approval_count <= 1")
    (release_context "omega/app") (evidence_of ["alice"; "bob"; "carol"])
  = Return true /\
  @validate_operation ascii_runtime (policy_requiring "approval_count == 2")
    (release_context "omega/app") (evidence_of [])
  = Return true.
Proof. vm_compute. split; reflexivity. Qed.

(** The amended statement at one approver against [approval_count >= 2]. *)
Lemma evidence_requirements_evaluate_ge_only_witness :
  @validate_operation ascii_runtime (policy_requiring "approval_count >= 2")
    (release_context "omega/app") (evidence_of ["alice"])
  = Raise (mk_exn PolicyViolationError
             "Evidence requirements not met: ['approval_count >= 2']").
Proof.
  refine (proj1 (@evidence_requirements_evaluate_ge_only ascii_runtime
                   (policy_requiring "approval_count >= 2")
                   (release_context "omega/app") (evidence_of ["alice"])
                   {| allowed_repositories := None;
                      require_evidence := Some ["approval_count >= 2"];
                      rate_limit := None |}
                   ["approval_count >= 2"] _ _ _) _).
  - vm_compute. reflexivity.
  - exact I.
  - reflexivity.
  - constructor; [|constructor].
    right. exists "approval_count ", " 2", 2. split; vm_compute; reflexivity.
Defined.

End PolicyEngineExamples.

(** ** Receipt Authority: minting *)

Section Minting.
Import Py FC AuthoritySpec.
Context {rt : StrRuntime}.

Lemma sign_verifies (r : EnforceableReceipt) (s : string) :
  verify_signature (sign r s) s = Return true.
Proof.
  rewrite (verify_signature_signed r (sign r s) s s eq_refl).
  unfold sign. now rewrite mac_set_signature, String.eqb_refl.
Qed.

(** The run of [authorize_and_issue_receipt], by the outcome of the policy
    validation. *)
Lemma authorize_run (ctx : OperationContext)
  (oev : option AuthorizationEvidence) (w : World) :
  let ev0 := evidence_used oev w in
  match validate_operation (policy (self w)) ctx ev0 with
  | Return _ =>
      exists l w',
        authorize_and_issue_receipt ctx oev w = (Return (l, ev0), w') /\
        issued ctx true "approved" w w' l /\
        (exists r, heap w' !! l = Some r /\
                   receipt_id r = receipt_id_at ctx (clock w (ticks w)))
  | Raise e =>
      if is_policy_failure e then
        exists l w',
          authorize_and_issue_receipt ctx oev w
            = (Return (l, set_reason ev0 (exn_str e)), w') /\
          issued ctx false "denied" w w' l /\
          (exists r, heap w' !! l = Some r /\
                     receipt_id r = receipt_id_at ctx (clock w (ticks w)))
      else
        exists w',
          authorize_and_issue_receipt ctx oev w = (Raise e, w') /\
          heap w' = heap w /\ self w' = self w
  end.
Proof.
  intros ev0.
  unfold authorize_and_issue_receipt, _generate_receipt_id.
  unfold bind, utcnow, get_self, ret. cbn [clock ticks heap self].
  fold (evidence_used oev w). fold ev0.
  destruct (validate_operation (policy (self w)) ctx ev0) as [b|e].
  - unfold alloc, set_self, modify. cbn [clock ticks heap self].
    eexists _, _. split; [reflexivity|]. split.
    + eexists. repeat split; cbn [heap self issued_receipts issuance_audit];
        try reflexivity.
      * apply sign_verifies.
      * eexists. repeat split.
    + eexists. split; [apply list_lookup_middle; reflexivity | reflexivity].
  - destruct (is_policy_failure e).
    + unfold alloc, set_self, modify. cbn [clock ticks heap self].
      eexists _, _. split; [reflexivity|]. split.
      * eexists. repeat split; cbn [heap self issued_receipts issuance_audit];
          try reflexivity.
        -- apply sign_verifies.
        -- eexists. repeat split.
      * eexists. split; [apply list_lookup_middle; reflexivity | reflexivity].
    + unfold raise. eexists. repeat split.
Qed.


(** C7, amended.  The receipt id is the string receipt- followed by the
    first 16 hex characters of the MD5 digest of run_id, operation_kind and
    the ISO form of the current time joined by hyphens; it has 24
    characters, and it is the id of every receipt minted, computed from the
    first reading of the clock. *)
Theorem receipt_id_is_md5_prefix (ctx : OperationContext) (w : World) :
  let now := clock w (ticks w) in
  fst (_generate_receipt_id ctx w)
  = Return ("receipt-" +:+
            take 16 (md5_hex (encode (ctx_run_id ctx +:+ "-" +:+
                                        value (ctx_operation_kind ctx) +:+ "-" +:+
                                        isoformat now)))) /\
  String.length (receipt_id_at ctx now) = 24%nat /\
  (forall oev l ev' w',
     authorize_and_issue_receipt ctx oev w = (Return (l, ev'), w') ->
     exists r, heap w' !! l = Some r /\ receipt_id r = receipt_id_at ctx now).
Proof.
  intros now. split; [reflexivity|]. split.
  - unfold receipt_id_at. rewrite append_length, take_length; [reflexivity|].
    rewrite md5_hex_length. lia.
  - intros oev l ev' w' Hret.
    pose proof (authorize_run ctx oev w) as Hrun. cbv zeta in Hrun.
    destruct (validate_operation _ _ _) as [b|e].
    + destruct Hrun as (l0 & w0 & Hret0 & _ & Hid).
      rewrite Hret0 in Hret. injection Hret as <- _ <-. exact Hid.
    + destruct (is_policy_failure e).
      * destruct Hrun as (l0 & w0 & Hret0 & _ & Hid).
        rewrite Hret0 in Hret. injection Hret as <- _ <-. exact Hid.
      * destruct Hrun as (w0 & Hret0 & _). rewrite Hret0 in Hret. discriminate.
Qed.

End Minting.

Section MintingExamples.
Import Py FC AuthoritySpec FCSamples.




(** C7, counterexample.  For run-1 / publish_release at noon the id minted
    differs from the one the specification describes. *)
Lemma receipt_id_is_not_sha256 :
  receipt_id_at (release_context "omega/app") Samples.noon
    = "receipt-db2615a9456a7aca" /\
  receipt_id_as_specified (release_context "omega/app") Samples.noon
    = "receipt-1dd70b7446e3759c".
Proof. vm_compute. split; reflexivity. Qed.

(** The amended statement at a receipt minted under the sample policy. *)
Lemma receipt_id_is_md5_prefix_witness :
  exists r,
    heap (snd (@authorize_and_issue_receipt ascii_runtime (release_context "omega/app")
                 (Some (evidence_of ["alice"; "bob"])) (generator_world open_policy)))
      !! 0%nat = Some r /\
    receipt_id r = receipt_id_at (release_context "omega/app") Samples.noon.
Proof.
  destruct (receipt_id_is_md5_prefix (rt := ascii_runtime)
              (release_context "omega/app") (generator_world open_policy))
    as (_ & _ & Hminted).
  apply (Hminted (Some (evidence_of ["alice"; "bob"])) 0%nat
           (evidence_of ["alice"; "bob"])
           (snd (@authorize_and_issue_receipt ascii_runtime
                   (release_context "omega/app")
                   (Some (evidence_of ["alice"; "bob"]))
                   (generator_world open_policy)))).
  vm_compute. reflexivity.
Defined.

End MintingExamples.

(** ** Receipt Authority: consumption *)

Section Consumption.
Import Py FC AuthoritySpec ConsumeSpec.

(** The run of [verify_and_consume_receipt] on a live reference. *)
Lemma verify_and_consume_run (w : World) (l : nat) (r : EnforceableReceipt) :
  heap w !! l = Some r ->
  verify_and_consume_receipt l w =
  match verify_signature r (fc_secret (self w)) with
  | Raise e => (Raise e, w)
  | Return false => (Raise (invalid_signature_error r), w)
  | Return true =>
      match issued_receipts (self w) !! receipt_id r with
      | None => (Raise (not_issued_error r), w)
      | Some ls =>
          match heap w !! ls with
          | None => (Raise (mk_exn Exception "dangling reference"), w)
          | Some stored =>
              if consumed stored
              then (Raise (already_consumed_error r stored), w)
              else (Return true, consumed_world w ls stored)
          end
      end
  end.
Proof.
  intros Hl.
  unfold verify_and_consume_receipt, bind, deref, get_self. rewrite Hl.
  destruct (verify_signature r (fc_secret (self w))) as [[|]|e]; try reflexivity.
  destruct (issued_receipts (self w) !! receipt_id r) as [ls|]; [|reflexivity].
  unfold raise. destruct (heap w !! ls) as [stored|]; [|reflexivity].
  destruct (consumed stored); reflexivity.
Qed.

Lemma verify_and_consume_dangling (w : World) (l : nat) :
  heap w !! l = None ->
  verify_and_consume_receipt l w
  = (Raise (mk_exn Exception "dangling reference"), w).
Proof.
  intros Hl. unfold verify_and_consume_receipt, bind, deref. now rewrite Hl.
Qed.

(** A call that raises leaves the world as it was. *)
Lemma verify_and_consume_failure (w w' : World) (l : nat) (e : exn) :
  verify_and_consume_receipt l w = (Raise e, w') -> w' = w.
Proof.
  destruct (heap w !! l) as [r|] eqn:Hl.
  - rewrite (verify_and_consume_run w l r Hl).
    destruct (verify_signature r (fc_secret (self w))) as [[|]|e0];
      try (intros [= _ <-]; reflexivity).
    destruct (issued_receipts (self w) !! receipt_id r) as [ls|];
      [|intros [= _ <-]; reflexivity].
    destruct (heap w !! ls) as [stored|]; [|intros [= _ <-]; reflexivity].
    destruct (consumed stored); [intros [= _ <-]; reflexivity | discriminate].
  - rewrite (verify_and_consume_dangling w l Hl). now intros [= _ <-].
Qed.

(** A call that returns has passed the three checks and consumed the filed
    record. *)
Lemma verify_and_consume_success (w w' : World) (l : nat) (r : EnforceableReceipt)
  (b : bool) :
  heap w !! l = Some r ->
  verify_and_consume_receipt l w = (Return b, w') ->
  b = true /\
  verify_signature r (fc_secret (self w)) = Return true /\
  exists ls stored,
    issued_receipts (self w) !! receipt_id r = Some ls /\
    heap w !! ls = Some stored /\
    consumed stored = false /\
    w' = consumed_world w ls stored.
Proof.
  intros Hl. rewrite (verify_and_consume_run w l r Hl).
  destruct (verify_signature r (fc_secret (self w))) as [[|]|e0]; try discriminate.
  destruct (issued_receipts (self w) !! receipt_id r) as [ls|]; [|discriminate].
  destruct (heap w !! ls) as [stored|] eqn:Hs; [|discriminate].
  destruct (consumed stored) eqn:Hc; [discriminate|].
  intros [= <- <-]. repeat split. exists ls, stored. auto.
Qed.

Lemma consumed_world_lookup (w : World) (ls : nat) (stored : EnforceableReceipt) :
  heap w !! ls = Some stored ->
  heap (consumed_world w ls stored) !! ls
  = Some (set_consumed stored (iso_z (clock w (ticks w)))).
Proof.
  intros Hs. cbn [consumed_world heap].
  apply list_lookup_insert_eq. now apply lookup_lt_Some in Hs.
Qed.

Lemma consumed_world_lookup_ne (w : World) (ls l : nat) (stored : EnforceableReceipt) :
  ls <> l -> heap (consumed_world w ls stored) !! l = heap w !! l.
Proof. intros Hne. cbn [consumed_world heap]. now apply list_lookup_insert_ne. Qed.

Lemma verify_signature_set_consumed (r : EnforceableReceipt) (t secret : string) :
  verify_signature (set_consumed r t) secret = verify_signature r secret.
Proof. reflexivity. Qed.

(** Consuming keeps the filed record of every id consumed. *)
Lemma filed_consumed_preserved (w : World) (l : nat) (rid : string) :
  filed_consumed w rid -> filed_consumed (snd (verify_and_consume_receipt l w)) rid.
Proof.
  intros (ls & stored & Hiss & Hs & Hc).
  destruct (verify_and_consume_receipt l w) as [[b|e] w'] eqn:Hcall; cbn [snd].
  - destruct (heap w !! l) as [r|] eqn:Hl.
    + destruct (verify_and_consume_success w w' l r b Hl Hcall)
        as (_ & _ & ls0 & stored0 & _ & Hs0 & _ & ->).
      destruct (decide (ls0 = ls)) as [->|Hne].
      * exists ls, (set_consumed stored0 (iso_z (clock w (ticks w)))).
        split; [exact Hiss|]. split; [|reflexivity].
        now apply consumed_world_lookup.
      * exists ls, stored. split; [exact Hiss|]. split; [|exact Hc].
        now rewrite consumed_world_lookup_ne.
    + rewrite (verify_and_consume_dangling w l Hl) in Hcall. discriminate.
  - apply verify_and_consume_failure in Hcall as ->. now exists ls, stored.
Qed.

(** A receipt whose id is filed as consumed is not accepted. *)
Lemma filed_consumed_blocks (w : World) (l : nat) (r : EnforceableReceipt) :
  heap w !! l = Some r ->
  filed_consumed w (receipt_id r) ->
  fst (verify_and_consume_receipt l w) <> Return true.
Proof.
  intros Hl (ls & stored & Hiss & Hs & Hc).
  rewrite (verify_and_consume_run w l r Hl).
  destruct (verify_signature r (fc_secret (self w))) as [[|]|e0]; try discriminate.
  rewrite Hiss, Hs, Hc. discriminate.
Qed.

Lemma success_files_consumed (w : World) (l : nat) (r : EnforceableReceipt) :
  heap w !! l = Some r ->
  fst (verify_and_consume_receipt l w) = Return true ->
  filed_consumed (snd (verify_and_consume_receipt l w)) (receipt_id r).
Proof.
  intros Hl Hok.
  destruct (verify_and_consume_receipt l w) as [res w'] eqn:Hcall.
  cbn [fst snd] in *. subst res.
  destruct (verify_and_consume_success w w' l r true Hl Hcall)
    as (_ & _ & ls & stored & Hiss & Hs & _ & ->).
  exists ls, (set_consumed stored (iso_z (clock w (ticks w)))).
  split; [exact Hiss|]. split; [|reflexivity].
  now apply consumed_world_lookup.
Qed.

Lemma successes_cons (rid : string) (e : option string * bool)
  (log : list (option string * bool)) :
  successes rid (e :: log)
  = ((match e with
      | (Some i, true) => if String.eqb i rid then 1 else 0
      | _ => 0
      end) + successes rid log)%nat.
Proof.
  unfold successes. cbn [List.filter].
  destruct e as [[i|] [|]]; try reflexivity.
  destruct (String.eqb i rid); reflexivity.
Qed.

Lemma no_success_once_consumed (refs : list nat) (w : World) (rid : string) :
  filed_consumed w rid -> successes rid (fst (present_all refs w)) = 0%nat.
Proof.
  revert w. induction refs as [|l refs IH]; intros w Hfiled; [reflexivity|].
  cbn [present_all fst]. rewrite successes_cons.
  rewrite (IH _ (filed_consumed_preserved w l rid Hfiled)).
  destruct (heap w !! l) as [r|] eqn:Hl; cbn [option_map]; [|reflexivity].
  destruct (fst (verify_and_consume_receipt l w)) as [[|]|e] eqn:Hres;
    try reflexivity.
  destruct (String.eqb (receipt_id r) rid) eqn:Hid; [|reflexivity].
  apply String.eqb_eq in Hid. subst rid.
  now apply (filed_consumed_blocks w l r Hl) in Hfiled.
Qed.

Lemma at_most_one_success (refs : list nat) (w : World) (rid : string) :
  (successes rid (fst (present_all refs w)) <= 1)%nat.
Proof.
  revert w. induction refs as [|l refs IH]; intros w; [cbn; lia|].
  cbn [present_all fst]. rewrite successes_cons.
  destruct (heap w !! l) as [r|] eqn:Hl; cbn [option_map]; [|apply IH].
  destruct (fst (verify_and_consume_receipt l w)) as [[|]|e] eqn:Hres;
    try apply IH.
  destruct (String.eqb (receipt_id r) rid) eqn:Hid; [|apply IH].
  apply String.eqb_eq in Hid. subst rid.
  rewrite (no_success_once_consumed refs _ (receipt_id r)
             (success_files_consumed w l r Hl Hres)).
  lia.
Qed.

(** C3.  [verify_and_consume_receipt] performs, in order, the signature
    verification, the presence test in the issuance records and the
    not-already-consumed test, and raises at the first failure; on success
    it marks the stored receipt consumed with [consumed_at] the current
    time, so that a second call on the same receipt raises the
    already-consumed error; a call that raises modifies nothing; and in any
    sequence of calls at most one succeeds for a given receipt_id. *)
Theorem verify_and_consume_at_most_once (w : World) (l : nat)
  (r : EnforceableReceipt) :
  heap w !! l = Some r ->
  let secret := fc_secret (self w) in
  let now := clock w (ticks w) in
  (verify_signature r secret = Return false ->
   verify_and_consume_receipt l w = (Raise (invalid_signature_error r), w)) /\
  (verify_signature r secret = Return true ->
   issued_receipts (self w) !! receipt_id r = None ->
   verify_and_consume_receipt l w = (Raise (not_issued_error r), w)) /\
  (forall ls stored,
     verify_signature r secret = Return true ->
     issued_receipts (self w) !! receipt_id r = Some ls ->
     heap w !! ls = Some stored ->
     if consumed stored then
       verify_and_consume_receipt l w = (Raise (already_consumed_error r stored), w)
     else
       let w' := consumed_world w ls stored in
       let stored' := set_consumed stored (iso_z now) in
       verify_and_consume_receipt l w = (Return true, w') /\
       heap w' !! ls = Some stored' /\
       consumed stored' = true /\
       consumed_at stored' = Some (iso_z now) /\
       verify_and_consume_receipt l w'
       = (Raise (already_consumed_error r stored'), w')) /\
  (forall e w', verify_and_consume_receipt l w = (Raise e, w') -> w' = w) /\
  (forall refs rid, (successes rid (fst (present_all refs w)) <= 1)%nat).
Proof.
  intros Hl secret now.
  pose proof (verify_and_consume_run w l r Hl) as Hrun. fold secret in Hrun.
  split; [|split; [|split; [|split]]].
  - intros Hv. now rewrite Hv in Hrun.
  - intros Hv Hiss. now rewrite Hv, Hiss in Hrun.
  - intros ls stored Hv Hiss Hs. rewrite Hv, Hiss, Hs in Hrun.
    destruct (consumed stored) eqn:Hc; [exact Hrun|].
    intros w' stored'.
    pose proof (consumed_world_lookup w ls stored Hs) as Hs'.
    fold now in Hs'. fold w' stored' in Hs'.
    split; [exact Hrun|]. split; [exact Hs'|]. split; [reflexivity|].
    split; [reflexivity|].
    destruct (decide (ls = l)) as [->|Hne].
    + assert (stored = r) as -> by congruence.
      rewrite (verify_and_consume_run w' l stored' Hs').
      change (verify_signature stored' (fc_secret (self w')))
        with (verify_signature r secret).
      rewrite Hv.
      change (issued_receipts (self w') !! receipt_id stored')
        with (issued_receipts (self w) !! receipt_id r).
      now rewrite Hiss, Hs'.
    + assert (Hl' : heap w' !! l = Some r)
        by (unfold w'; now rewrite consumed_world_lookup_ne).
      rewrite (verify_and_consume_run w' l r Hl').
      change (verify_signature r (fc_secret (self w')))
        with (verify_signature r secret).
      rewrite Hv.
      change (issued_receipts (self w') !! receipt_id r)
        with (issued_receipts (self w) !! receipt_id r).
      now rewrite Hiss, Hs'.
  - intros e w'. apply verify_and_consume_failure.
  - intros refs rid. apply at_most_one_success.
Qed.

End Consumption.

Section ConsumptionExamples.
Import Py FC AuthoritySpec ConsumeSpec ConsumeSamples.

(** The theorem at the generator that has the signed sample receipt on
    file: the first call succeeds, the second is refused. *)
Lemma verify_and_consume_at_most_once_witness :
  let w' := consumed_world filing_world 0 signed_receipt in
  verify_and_consume_receipt 0 filing_world = (Return true, w') /\
  verify_and_consume_receipt 0 w'
  = (Raise (already_consumed_error signed_receipt
              (set_consumed signed_receipt "2024-02-10T12:00:00Z")), w').
Proof.
  destruct (verify_and_consume_at_most_once filing_world 0 signed_receipt eq_refl)
    as (_ & _ & H & _).
  assert (Hv : verify_signature signed_receipt (fc_secret (self filing_world))
               = Return true) by (vm_compute; reflexivity).
  assert (Hiss : issued_receipts (self filing_world) !! receipt_id signed_receipt
                 = Some 0%nat) by (vm_compute; reflexivity).
  specialize (H 0%nat signed_receipt Hv Hiss eq_refl).
  change (consumed signed_receipt) with false in H.
  destruct H as (H1 & _ & _ & _ & H2).
  split; [exact H1 | exact H2].
Defined.

End ConsumptionExamples.

(** ** Proof Chain Generator *)

Section ProofChain.
Import Py ProofGen.

(** The serialization of a step lists its keys in sorted order. *)
Lemma step_serialization (s : ProofStep) :
  json_dumps (to_dict s) =
  "{" +:+ join ", "
    [json_str "actor" +:+ ": " +:+ json_str (actor s);
     json_str "description" +:+ ": " +:+ json_str (description s);
     json_str "input_hash" +:+ ": " +:+ json_str (input_hash s);
     json_str "output_hash" +:+ ": " +:+ json_str (output_hash s);
     json_str "signature" +:+ ": " +:+ json_str (signature s);
     json_str "step_id" +:+ ": " +:+ json_str (step_id s);
     json_str "timestamp" +:+ ": " +:+ json_str (timestamp s)] +:+ "}".
Proof. reflexivity. Qed.


(** [record_step] appends the new step after the recorded ones. *)
Lemma record_step_appends (sid act descr : string) (input output : pyval)
  (w : World) :
  exists step,
    fst (record_step sid act descr input output w) = Return step /\
    steps (self (snd (record_step sid act descr input output w)))
    = steps (self w) ++ [step] /\
    step_id step = sid.
Proof. eexists. repeat split. Qed.


End ProofChain.

(** ** Executor: the paths of an operation *)

Section ExecutorRuns.
Import Py Publisher BindingSpec ExecutorSpec PublisherExt ExecutorPaths.

Lemma bind_run {A B : Type} (m : Run A) (k : A -> Run B) (w : World) :
  bind m k w = match m w with
               | (Return a, w') => k a w'
               | (Raise e, w') => (Raise e, w')
               end.
Proof. reflexivity. Qed.

Lemma utcnow_run (w : World) : utcnow w = (Return (clock w (ticks w)), tick w).
Proof. reflexivity. Qed.

(** The run of [validate_binding]: the clock is read once the first four
    checks have passed. *)
Lemma validate_binding_run (r : EnforceableReceipt) (run : string)
  (op : OperationKind) (w : World) :
  validate_binding r run op w =
  match first_failure (clock w (ticks w)) r run op with
  | None => (Return true, tick w)
  | Some c =>
      (Raise (mk_exn ReceiptValidationError
                (failure_message (clock w (ticks w)) r run op c)),
       match c with NotExpired | NotStale => tick w | _ => w end)
  end.
Proof.
  unfold validate_binding, first_failure, six_checks.
  cbn [List.find passes].
  destruct (String.eqb (run_id r) run); cbn [negb]; [|reflexivity].
  destruct (String.eqb (operation_kind r) (value op)); cbn [negb]; [|reflexivity].
  destruct (enforceable r); cbn [negb]; [|reflexivity].
  destruct (consumed r); cbn [negb]; [reflexivity|].
  rewrite bind_utcnow. fold (tick w).
  rewrite !gtb_leb. unfold MAX_RECEIPT_AGE_HOURS.
  destruct (clock w (ticks w) <=? expires_at r); cbn [negb]; [|reflexivity].
  destruct (clock w (ticks w) - issued_at r <=? timedelta_hours 24);
    reflexivity.
Qed.

Lemma calm_refl (w : World) : calm w w.
Proof. repeat split. Qed.

Lemma calm_tick (w w' : World) : calm w w' -> calm w (tick w').
Proof. intros H. exact H. Qed.

(** The [except] handler of an operation, run in a world that differs from
    the start only in what the entry checks may touch. *)
Lemma audit_failure_refused {A : Type} (opid run repository started : string)
  (kind : OperationKind) (receipt : option nat) (e : exn) (w w3 : World) :
  valid_ref w receipt ->
  calm w w3 ->
  @refused_with A e kind receipt w
    ((audit_failure opid run kind receipt repository started e ;;; raise e)%py w3).
Proof.
  intros Href (Hclock & Hrec & Hcalls & Hslept & Hcons & Haudit & Hmode).
  set (comp := (audit_failure opid run kind receipt repository started e
                ;;; raise e)%py w3).
  assert (Hrid : receipt_id_or_none receipt (tick w3)
                 = (Return (audited_receipt_id w receipt), tick w3)).
  { unfold receipt_id_or_none, audited_receipt_id.
    destruct receipt as [l|]; [|reflexivity].
    destruct Href as [r Hr]. rewrite Hr, bind_run. unfold deref.
    cbn [tick receipts]. now rewrite Hrec, Hr. }
  eassert (Hcomp : comp = _).
  { subst comp. unfold audit_failure.
    rewrite bind_run, bind_utcnow. fold (tick w3). cbv beta.
    rewrite bind_run, Hrid.
    unfold get_self, append_audit, set_self, modify, ret, raise, bind.
    cbn [self tick]. reflexivity. }
  rewrite Hcomp. unfold refused_with.
  cbn [fst snd self receipts platform_calls slept audit_records mode
       consumed_receipts].
  repeat (split; [assumption || reflexivity|]).
  eexists. rewrite Haudit. repeat split.
Qed.

Lemma can_make_request_run (w : World) :
  exists w',
    can_make_request w = (Return (has_capacity (clock w (ticks w)) (self w)), w') /\
    calm w w' /\
    ticks w' = S (ticks w) /\
    request_times (self w') = recent_requests (clock w (ticks w)) (self w) /\
    requests_per_hour (self w') = requests_per_hour (self w).
Proof.
  unfold can_make_request. rewrite bind_utcnow.
  unfold set_self, modify, get_self, ret, bind. cbn [self].
  eexists. split; [reflexivity|]. repeat split.
Qed.

(** The entry checks of an operation, run after the two readings of the
    clock that open it: either they stop at [gate_error], or the rest of
    the operation runs in a world four readings after the start, with the
    rate limiter's record pruned. *)
Lemma gate_run {A : Type} (op_name run : string) (kind : OperationKind)
  (receipt : option nat) (rest : Run A) (w : World) :
  valid_ref w receipt ->
  exists w',
    (p <- get_self ;;
     if negb (String.eqb (mode p) (mode_value PROD)) then
       raise (mode_violation op_name p)
     else
       _validate_authorization receipt run kind ;;;
       ok <- can_make_request ;;
       if negb ok then raise (mk_exn Exception "Rate limited") else rest)%py
      (tick (tick w))
    = match gate_error op_name w run kind receipt with
      | Some e => (Raise e, w')
      | None => rest w'
      end /\
    calm w w' /\
    (gate_error op_name w run kind receipt = None ->
     ticks w' = (4 + ticks w)%nat /\
     request_times (self w') = recent_requests (rate_time w) (self w)).
Proof.
  intros Href. unfold gate_error.
  rewrite bind_run. unfold get_self at 1. cbn [self tick].
  change (mode_value PROD) with "prod".
  destruct (String.eqb (mode (self w)) "prod"); cbn [negb].
  2:{ eexists. split; [reflexivity|]. split; [repeat split | discriminate]. }
  destruct receipt as [l|]; cbn [valid_ref] in Href.
  2:{ eexists. split; [reflexivity|]. split; [repeat split | discriminate]. }
  destruct Href as [r Hr]. rewrite Hr.
  rewrite bind_run. unfold _validate_authorization.
  rewrite bind_run. unfold deref at 1. cbn [tick receipts]. rewrite Hr.
  rewrite bind_run, validate_binding_run. cbn [tick clock ticks].
  fold (validation_time w).
  destruct (first_failure (validation_time w) r run kind) as [c|].
  { eexists. split; [reflexivity|].
    split; [destruct c; repeat split | discriminate]. }
  unfold ret at 1.
  rewrite bind_run.
  destruct (can_make_request_run (tick (tick (tick w))))
    as (w4 & Hrun & Hcalm & Hticks & Htimes & _).
  rewrite Hrun.
  change (clock (tick (tick (tick w))) (ticks (tick (tick (tick w)))))
    with (rate_time w).
  change (self (tick (tick (tick w)))) with (self w).
  exists w4. split; [|split; [exact Hcalm|]].
  - now destruct (has_capacity (rate_time w) (self w)).
  - intros _. split; [exact Hticks | exact Htimes].
Qed.


(** The steps after the platform call, in a world where the receipt is
    live: they consume it, count the request and append the audit record. *)
Lemma audit_success_run (opid run repository started : string)
  (kind : OperationKind) (l : nat) (r0 : EnforceableReceipt) (result : pyval)
  (attempt : Z) (w : World) :
  receipts w !! l = Some r0 ->
  exists resp w',
    audit_success opid run kind l repository started result attempt w
    = (Return resp, w') /\
    platform_calls w' = platform_calls w /\
    slept w' = slept w /\
    receipts w' = <[l := consumed_receipt r0 (clock w (S (ticks w)))]> (receipts w) /\
    consumed_receipts (self w')
    = <[receipt_id r0 := clock w (S (S (ticks w)))]> (consumed_receipts (self w)) /\
    request_times (self w') = request_times (self w) ++ [clock w (ticks w)] /\
    mode (self w') = mode (self w) /\
    audit_records (self w') = audit_records (self w) ++ [resp_audit_record resp] /\
    resp_status resp = "success" /\
    resp_result resp = result /\
    ar_status (resp_audit_record resp) = "success" /\
    ar_operation_kind (resp_audit_record resp) = kind /\
    ar_receipt_id (resp_audit_record resp) = receipt_id r0 /\
    ar_error_code (resp_audit_record resp) = None /\
    ar_result (resp_audit_record resp) = Some result /\
    ar_retry_count (resp_audit_record resp) = attempt.
Proof.
  intros Hl.
  assert (Hlt : (l < length (receipts w))%nat) by (now apply lookup_lt_Some in Hl).
  unfold audit_success, record_request, mark_consumed, validator_mark_consumed.
  rewrite bind_run, bind_utcnow. unfold set_self at 1, modify at 1. cbv beta.
  rewrite bind_run, bind_run. unfold deref at 1. cbn [receipts]. rewrite Hl.
  rewrite bind_utcnow. unfold set_receipt, modify at 1. cbv beta.
  cbn [clock ticks receipts platform_calls slept self].
  rewrite bind_run. unfold deref at 1. cbn [receipts].
  rewrite (list_lookup_insert_eq _ _ _ Hlt).
  rewrite bind_run, bind_utcnow. unfold set_self at 1, modify at 1. cbv beta.
  cbn [clock ticks receipts platform_calls slept self].
  rewrite bind_utcnow.
  rewrite bind_run. unfold deref at 1. cbn [receipts].
  rewrite (list_lookup_insert_eq _ _ _ Hlt).
  unfold get_self, append_audit, set_self, modify, ret, bind.
  cbn [clock ticks receipts platform_calls slept self].
  eexists _, _. split; [reflexivity|].
  cbn [receipts platform_calls slept self consumed_receipts request_times mode
       audit_records resp_audit_record resp_status resp_result ar_status
       ar_operation_kind ar_receipt_id ar_error_code ar_result ar_retry_count
       receipt_id].
  repeat split.
Qed.


Lemma executed_with_intro (call : PlatformCall) (kind : OperationKind) (l : nat)
  (r0 : EnforceableReceipt) (w w4 w5 w6 : World) (resp : OperationResponse)
  (result : pyval) (attempt : Z) :
  calm w w4 ->
  request_times (self w4) = recent_requests (rate_time w) (self w) ->
  platform_calls w5 = platform_calls w4 ++ [call] ->
  slept w5 = slept w4 -> receipts w5 = receipts w4 -> self w5 = self w4 ->
  platform_calls w6 = platform_calls w5 ->
  slept w6 = slept w5 ->
  receipts w6 = <[l := consumed_receipt r0 (clock w5 (S (ticks w5)))]> (receipts w5) ->
  consumed_receipts (self w6)
  = <[receipt_id r0 := clock w5 (S (S (ticks w5)))]> (consumed_receipts (self w5)) ->
  request_times (self w6) = request_times (self w5) ++ [clock w5 (ticks w5)] ->
  mode (self w6) = mode (self w5) ->
  audit_records (self w6) = audit_records (self w5) ++ [resp_audit_record resp] ->
  resp_status resp = "success" ->
  resp_result resp = result ->
  ar_status (resp_audit_record resp) = "success" ->
  ar_operation_kind (resp_audit_record resp) = kind ->
  ar_receipt_id (resp_audit_record resp) = receipt_id r0 ->
  ar_error_code (resp_audit_record resp) = None ->
  ar_result (resp_audit_record resp) = Some result ->
  executed_with call kind l r0 w resp w6.
Proof.
  intros (Hclock & Hrec & Hcalls & Hslept & Hcons & Haudit & Hmode) Htimes
    Hc5 Hs5 Hr5 Hself5 Hc6 Hs6 Hr6 Hcons6 Ht6 Hm6 Ha6 Hst Hres Hast Hak Har Hae Harr.
  unfold executed_with.
  rewrite Hc6, Hc5, Hcalls, Hs6, Hs5, Hslept, Hr6, Hr5, Hrec, Hcons6, Ht6, Hm6,
    Ha6, Hself5, Hcons, Htimes, Hmode, Haudit, Harr, Hres.
  repeat split; eauto.
Qed.

(** [publish_release], path by path: refused at the entry checks, refused
    for the repository argument, or executed. *)
Lemma publish_release_paths (w : World) (receipt : option nat)
  (run repository tag_name release_name body : string) (draft prerelease : bool) :
  valid_ref w receipt ->
  let r := publish_release run receipt repository tag_name release_name body
             draft prerelease w in
  match gate_error "publish_release" w run PUBLISH_RELEASE receipt with
  | Some e => refused_with e PUBLISH_RELEASE receipt w r
  | None =>
      match release_repository_error repository with
      | Some e => refused_with e PUBLISH_RELEASE receipt w r
      | None =>
          exists l r0 owner repo resp w',
            receipt = Some l /\ receipts w !! l = Some r0 /\
            split "/" repository = [owner; repo] /\
            r = (Return (Some resp), w') /\
            executed_with
              (CreateRelease owner repo tag_name release_name body draft prerelease)
              PUBLISH_RELEASE l r0 w resp w'
      end
  end.
Proof.
  intros Href r. subst r. unfold publish_release.
  rewrite !bind_utcnow. fold (tick w). fold (tick (tick w)).
  unfold try_except.
  match goal with
  | |- context [ (bind can_make_request
                    (fun ok => if negb ok then _ else ?rest)) ] =>
      destruct (gate_run "publish_release" run PUBLISH_RELEASE receipt rest w Href)
        as (w4 & Hgate & Hcalm & Hpassed)
  end.
  rewrite Hgate. clear Hgate.
  destruct (gate_error "publish_release" w run PUBLISH_RELEASE receipt) as [e|]
    eqn:Hge.
  { apply audit_failure_refused; [exact Href | exact Hcalm]. }
  destruct (Hpassed eq_refl) as (Hticks & Htimes).
  unfold release_repository_error.
  destruct (contains "/" repository); cbn [negb].
  2:{ unfold raise at 1. apply audit_failure_refused; [exact Href | exact Hcalm]. }
  assert (Hl : exists l r0, receipt = Some l /\ receipts w !! l = Some r0).
  { unfold gate_error in Hge.
    destruct (negb _); [discriminate|].
    destruct receipt as [l|]; [|discriminate].
    destruct (receipts w !! l) as [r0|] eqn:Hr0; [eauto | discriminate]. }
  destruct Hl as (l & r0 & -> & Hl).
  destruct (split "/" repository) as [|owner [|repo [|x rest]]];
    try (unfold raise at 1; apply audit_failure_refused;
         [exact Href | exact Hcalm]).
  cbn [Z.to_nat MAX_RETRIES Z.add Pos.to_nat Pos.iter_op Init.Nat.add
       release_attempts].
  change (Z.to_nat (MAX_RETRIES + 1)) with 4%nat. cbn [release_attempts].
  unfold try_except. rewrite bind_run.
  unfold create_release. rewrite bind_run. unfold log_call at 1, modify at 1.
  rewrite !bind_utcnow. unfold ret at 1.
  cbn [clock ticks receipts platform_calls slept self].
  rewrite bind_run.
  match goal with
  | |- context [ audit_success ?a ?b ?c ?d ?e ?f ?g ?h ?w5 ] =>
      destruct (audit_success_run a b e f c d r0 g h w5) as
        (resp & w6 & Hok & Hc6 & Hs6 & Hr6 & Hcons6 & Ht6 & Hm6 & Ha6 & Hst
         & Hres & Hast & Hak & Har & Hae & Harr & _);
        [cbn [receipts]; pose proof Hcalm as (_ & Hrec4 & _);
         rewrite Hrec4; exact Hl|];
      rewrite Hok; unfold ret;
      exists l, r0, owner, repo, resp, w6;
      repeat (split; [reflexivity || assumption|]);
      apply (executed_with_intro _ _ _ _ w w4 w5 w6 resp g h Hcalm Htimes);
      try assumption; reflexivity
  end.
Qed.


Lemma unpack_owner_repo_run (repository : string) (w : World) :
  unpack_owner_repo repository w =
  match unpack_error repository with
  | Some e => (Raise e, w)
  | None =>
      match split "/" repository with
      | [owner; repo] => (Return (owner, repo), w)
      | _ => (Raise (mk_exn ValueError "too many values to unpack (expected 2)"), w)
      end
  end.
Proof.
  unfold unpack_owner_repo, unpack_error.
  destruct (split "/" repository) as [|owner [|repo [|x rest]]]; reflexivity.
Qed.

Lemma gate_passed_receipt (op_name : string) (w : World) (run : string)
  (kind : OperationKind) (receipt : option nat) :
  gate_error op_name w run kind receipt = None ->
  exists l r0, receipt = Some l /\ receipts w !! l = Some r0.
Proof.
  unfold gate_error.
  destruct (negb _); [discriminate|].
  destruct receipt as [l|]; [|discriminate].
  destruct (receipts w !! l) as [r0|] eqn:Hr0; [eauto | discriminate].
Qed.

(** [tag_repo], path by path. *)
Lemma tag_repo_paths (w : World) (receipt : option nat)
  (run repository tag_name target_sha message : string) :
  valid_ref w receipt ->
  let r := tag_repo run receipt repository tag_name target_sha message w in
  match gate_error "tag_repo" w run TAG_REPO receipt with
  | Some e => refused_with e TAG_REPO receipt w r
  | None =>
      match unpack_error repository with
      | Some e => refused_with e TAG_REPO receipt w r
      | None =>
          exists l r0 owner repo resp w',
            receipt = Some l /\ receipts w !! l = Some r0 /\
            split "/" repository = [owner; repo] /\
            r = (Return resp, w') /\
            executed_with (CreateTag owner repo tag_name target_sha message)
              TAG_REPO l r0 w resp w'
      end
  end.
Proof.
  intros Href r. subst r. unfold tag_repo.
  rewrite !bind_utcnow. fold (tick w). fold (tick (tick w)).
  unfold try_except.
  match goal with
  | |- context [ (bind can_make_request
                    (fun ok => if negb ok then _ else ?rest)) ] =>
      destruct (gate_run "tag_repo" run TAG_REPO receipt rest w Href)
        as (w4 & Hgate & Hcalm & Hpassed)
  end.
  rewrite Hgate. clear Hgate.
  destruct (gate_error "tag_repo" w run TAG_REPO receipt) as [e|] eqn:Hge.
  { apply audit_failure_refused; [exact Href | exact Hcalm]. }
  destruct (Hpassed eq_refl) as (Hticks & Htimes).
  destruct (gate_passed_receipt _ _ _ _ _ Hge) as (l & r0 & -> & Hl).
  rewrite bind_run, unpack_owner_repo_run.
  destruct (unpack_error repository) as [e|] eqn:Hun.
  { apply audit_failure_refused; [exact Href | exact Hcalm]. }
  unfold unpack_error in Hun.
  destruct (split "/" repository) as [|owner [|repo [|x rest]]]; try discriminate.
  rewrite bind_run.
  unfold create_tag. rewrite bind_run. unfold log_call at 1, modify at 1.
  rewrite !bind_utcnow. unfold ret at 1.
  cbn [clock ticks receipts platform_calls slept self].
  match goal with
  | |- context [ audit_success ?a ?b ?c ?d ?e ?f ?g ?h ?w5 ] =>
      destruct (audit_success_run a b e f c d r0 g h w5) as
        (resp & w6 & Hok & Hc6 & Hs6 & Hr6 & Hcons6 & Ht6 & Hm6 & Ha6 & Hst
         & Hres & Hast & Hak & Har & Hae & Harr & _);
        [cbn [receipts]; pose proof Hcalm as (_ & Hrec4 & _);
         rewrite Hrec4; exact Hl|];
      rewrite Hok;
      exists l, r0, owner, repo, resp, w6;
      repeat (split; [reflexivity || assumption|]);
      apply (executed_with_intro _ _ _ _ w w4 w5 w6 resp g h Hcalm Htimes);
      try assumption; reflexivity
  end.
Qed.

(** [open_pr], path by path. *)
Lemma open_pr_paths (w : World) (receipt : option nat)
  (run repository title body head_branch base_branch : string) :
  valid_ref w receipt ->
  let r := open_pr run receipt repository title body head_branch base_branch w in
  match gate_error "open_pr" w run OPEN_PR receipt with
  | Some e => refused_with e OPEN_PR receipt w r
  | None =>
      match unpack_error repository with
      | Some e => refused_with e OPEN_PR receipt w r
      | None =>
          exists l r0 owner repo resp w',
            receipt = Some l /\ receipts w !! l = Some r0 /\
            split "/" repository = [owner; repo] /\
            r = (Return resp, w') /\
            executed_with
              (CreatePullRequest owner repo title body head_branch base_branch)
              OPEN_PR l r0 w resp w'
      end
  end.
Proof.
  intros Href r. subst r. unfold open_pr.
  rewrite !bind_utcnow. fold (tick w). fold (tick (tick w)).
  unfold try_except.
  match goal with
  | |- context [ (bind can_make_request
                    (fun ok => if negb ok then _ else ?rest)) ] =>
      destruct (gate_run "open_pr" run OPEN_PR receipt rest w Href)
        as (w4 & Hgate & Hcalm & Hpassed)
  end.
  rewrite Hgate. clear Hgate.
  destruct (gate_error "open_pr" w run OPEN_PR receipt) as [e|] eqn:Hge.
  { apply audit_failure_refused; [exact Href | exact Hcalm]. }
  destruct (Hpassed eq_refl) as (Hticks & Htimes).
  destruct (gate_passed_receipt _ _ _ _ _ Hge) as (l & r0 & -> & Hl).
  rewrite bind_run, unpack_owner_repo_run.
  destruct (unpack_error repository) as [e|] eqn:Hun.
  { apply audit_failure_refused; [exact Href | exact Hcalm]. }
  unfold unpack_error in Hun.
  destruct (split "/" repository) as [|owner [|repo [|x rest]]]; try discriminate.
  rewrite bind_run.
  unfold create_pull_request. rewrite bind_run. unfold log_call at 1, modify at 1.
  rewrite !bind_utcnow. unfold ret at 1.
  cbn [clock ticks receipts platform_calls slept self].
  match goal with
  | |- context [ audit_success ?a ?b ?c ?d ?e ?f ?g ?h ?w5 ] =>
      destruct (audit_success_run a b e f c d r0 g h w5) as
        (resp & w6 & Hok & Hc6 & Hs6 & Hr6 & Hcons6 & Ht6 & Hm6 & Ha6 & Hst
         & Hres & Hast & Hak & Har & Hae & Harr & _);
        [cbn [receipts]; pose proof Hcalm as (_ & Hrec4 & _);
         rewrite Hrec4; exact Hl|];
      rewrite Hok;
      exists l, r0, owner, repo, resp, w6;
      repeat (split; [reflexivity || assumption|]);
      apply (executed_with_intro _ _ _ _ w w4 w5 w6 resp g h Hcalm Htimes);
      try assumption; reflexivity
  end.
Qed.

End ExecutorRuns.

(** ** Executor: what the paths imply *)

Section ExecutorProperties.
Import Py Publisher BindingSpec ExecutorSpec PublisherExt ExecutorPaths ExecutorOps.

Lemma refused_with_map {A B : Type} (e : exn) (kind : OperationKind)
  (receipt : option nat) (w : World) (m : Run A) (f : A -> B) :
  refused_with e kind receipt w (m w) ->
  refused_with e kind receipt w ((x <- m ;; ret (f x))%py w).
Proof.
  unfold refused_with. rewrite bind_run.
  destruct (m w) as [[a|e0] w']; [intros [H _]; discriminate H|].
  cbn [fst snd]. intros (H1 & H2). split; [congruence | exact H2].
Qed.

(** Every operation, path by path. *)
Lemma perform_paths (op : operation) (run : string) (receipt : option nat)
  (w : World) :
  valid_ref w receipt ->
  match gate_error (op_name op) w run (op_kind op) receipt with
  | Some e => refused_with e (op_kind op) receipt w (perform op run receipt w)
  | None =>
      match repository_error op with
      | Some e => refused_with e (op_kind op) receipt w (perform op run receipt w)
      | None =>
          exists l r0 owner repo resp w',
            receipt = Some l /\ receipts w !! l = Some r0 /\
            split "/" (op_repository op) = [owner; repo] /\
            perform op run receipt w = (Return (Some resp), w') /\
            executed_with (platform_call_of op owner repo) (op_kind op) l r0 w resp w'
      end
  end.
Proof.
  intros Href. destruct op; cbn [op_name op_kind repository_error perform
                                 op_repository platform_call_of value].
  - apply (publish_release_paths w receipt run); exact Href.
  - pose proof (tag_repo_paths w receipt run repository tag_name target_sha
                  message Href) as H. cbv zeta in H.
    destruct (gate_error "tag_repo" w run TAG_REPO receipt) as [e|].
    { now apply refused_with_map. }
    destruct (unpack_error repository) as [e|].
    { now apply refused_with_map. }
    destruct H as (l & r0 & owner & repo & resp & w' & -> & Hl & Hsplit & Hrun & Hex).
    exists l, r0, owner, repo, resp, w'.
    repeat (split; [reflexivity || assumption|]).
    split; [|exact Hex]. now rewrite bind_run, Hrun.
  - pose proof (open_pr_paths w receipt run repository title body head_branch
                  base_branch Href) as H. cbv zeta in H.
    destruct (gate_error "open_pr" w run OPEN_PR receipt) as [e|].
    { now apply refused_with_map. }
    destruct (unpack_error repository) as [e|].
    { now apply refused_with_map. }
    destruct H as (l & r0 & owner & repo & resp & w' & -> & Hl & Hsplit & Hrun & Hex).
    exists l, r0, owner, repo, resp, w'.
    repeat (split; [reflexivity || assumption|]).
    split; [|exact Hex]. now rewrite bind_run, Hrun.
Qed.

Lemma gate_passed_authorized (name : string) (w : World) (run : string)
  (kind : OperationKind) (receipt : option nat) :
  gate_error name w run kind receipt = None ->
  authorized w run kind receipt /\ has_capacity (rate_time w) (self w) = true.
Proof.
  unfold gate_error, authorized.
  destruct (String.eqb (mode (self w)) "prod") eqn:Hmode; cbn [negb];
    [|discriminate].
  apply String.eqb_eq in Hmode.
  destruct receipt as [l|]; [|discriminate].
  destruct (receipts w !! l) as [r|] eqn:Hl; [|discriminate].
  destruct (first_failure (validation_time w) r run kind) eqn:Hff; [discriminate|].
  destruct (has_capacity (rate_time w) (self w)); [|discriminate].
  intros _. split; [|reflexivity]. split; [exact Hmode|]. now exists l, r.
Qed.

Lemma authorized_gate (name : string) (w : World) (run : string)
  (kind : OperationKind) (receipt : option nat) :
  authorized w run kind receipt ->
  gate_error name w run kind receipt
  = if has_capacity (rate_time w) (self w) then None else Some rate_limited_error.
Proof.
  intros (Hmode & l & r & -> & Hl & Hff). unfold gate_error.
  rewrite Hmode, Hl, Hff. reflexivity.
Qed.



Lemma append_nil_r (s : string) : s +:+ "" = s.
Proof.
  induction s as [|c s IH]; [reflexivity|].
  change (String c s +:+ "") with (String c (s +:+ "")). now rewrite IH.
Qed.

Lemma append_assoc (a b c : string) : (a +:+ b) +:+ c = a +:+ (b +:+ c).
Proof.
  induction a as [|x a IH]; [reflexivity|].
  change ((String x a +:+ b) +:+ c = String x a +:+ (b +:+ c))
    with (String x ((a +:+ b) +:+ c) = String x (a +:+ (b +:+ c))).
  now rewrite IH.
Qed.

(** Splitting a string that does not hold the separator gives the string
    itself. *)
Lemma split_go_without_separator (sep cur s : string) :
  contains sep s = false -> split_go sep 0 cur s = [cur +:+ s].
Proof.
  revert cur. induction s as [|c s IH]; intros cur Hs.
  - cbn. now rewrite append_nil_r.
  - cbn [contains] in Hs. apply orb_false_iff in Hs as [Hstart Hrest].
    cbn [split_go]. rewrite Hstart, (IH _ Hrest), append_assoc. reflexivity.
Qed.

Lemma split_without_separator (sep s : string) :
  contains sep s = false -> split sep s = [s].
Proof. intros H. unfold split. now rewrite split_go_without_separator. Qed.

Lemma two_parts_no_error (op : operation) (owner repo : string) :
  split "/" (op_repository op) = [owner; repo] -> repository_error op = None.
Proof.
  intros Hsplit.
  destruct op; cbn [repository_error op_repository] in *;
    unfold release_repository_error, unpack_error; rewrite Hsplit;
    try reflexivity.
  destruct (contains "/" repository) eqn:Hc; [reflexivity|].
  rewrite (split_without_separator _ _ Hc) in Hsplit. discriminate.
Qed.

Lemma other_parts_error (op : operation) :
  length (split "/" (op_repository op)) <> 2%nat ->
  exists e, repository_error op = Some e /\ exn_type e = ValueError.
Proof.
  intros Hlen.
  destruct op; cbn [repository_error op_repository] in *;
    unfold release_repository_error, unpack_error.
  - destruct (contains "/" repository); cbn [negb]; [|eauto].
    destruct (split "/" repository) as [|a [|b [|c rest]]]; eauto.
    now contradiction Hlen.
  - destruct (split "/" repository) as [|a [|b [|c rest]]]; eauto.
    now contradiction Hlen.
  - destruct (split "/" repository) as [|a [|b [|c rest]]]; eauto.
    now contradiction Hlen.
Qed.

Lemma authorized_valid_ref (w : World) (run : string) (kind : OperationKind)
  (receipt : option nat) :
  authorized w run kind receipt -> valid_ref w receipt.
Proof. intros (_ & l & r & -> & Hl & _). cbn. eauto. Qed.



(** X2.  An authorized call within the rate limit, for a repository of the
    form owner/name, is executed: the platform receives exactly one call
    for that owner and name, the receipt object is marked consumed and
    entered in the consumption records, and one audit record with status
    success and the receipt's id is appended and returned. *)
Theorem authorized_call_executes (op : operation) (run : string)
  (receipt : option nat) (w : World) (owner repo : string) :
  authorized w run (op_kind op) receipt ->
  has_capacity (rate_time w) (self w) = true ->
  split "/" (op_repository op) = [owner; repo] ->
  exists l r0 resp w',
    receipt = Some l /\ receipts w !! l = Some r0 /\
    perform op run receipt w = (Return (Some resp), w') /\
    executed_with (platform_call_of op owner repo) (op_kind op) l r0 w resp w'.
Proof.
  intros Hauth Hcap Hsplit.
  pose proof (perform_paths op run receipt w (authorized_valid_ref _ _ _ _ Hauth))
    as Hpaths.
  rewrite (authorized_gate (op_name op) _ _ _ _ Hauth), Hcap,
    (two_parts_no_error op owner repo Hsplit) in Hpaths.
  destruct Hpaths as (l & r0 & owner' & repo' & resp & w' & Hr & Hl & Hsplit'
                      & Hrun & Hex).
  rewrite Hsplit in Hsplit'. injection Hsplit' as <- <-.
  now exists l, r0, resp, w'.
Qed.

(** X2 at the receipt of run-1 presented for the release of run-1. *)
Lemma authorized_call_executes_witness :
  exists l r0 resp w',
    Some 0%nat = Some l /\
    receipts ExecutorSamples.prod_world !! l = Some r0 /\
    perform ExecutorSamples.release_v1 "run-1" (Some 0%nat) ExecutorSamples.prod_world
    = (Return (Some resp), w') /\
    executed_with (platform_call_of ExecutorSamples.release_v1 "owner" "repo")
      PUBLISH_RELEASE l r0 ExecutorSamples.prod_world resp w'.
Proof.
  apply (authorized_call_executes ExecutorSamples.release_v1 "run-1" (Some 0%nat)
           ExecutorSamples.prod_world "owner" "repo").
  - split; [reflexivity|]. exists 0%nat, Samples.receipt_run1.
    split; [reflexivity|]. split; [reflexivity|]. vm_compute. reflexivity.
  - vm_compute. reflexivity.
  - vm_compute. reflexivity.
Defined.

Lemma refused_status_not_success (e : exn) : failure_status e <> "success".
Proof. destruct (failure_status_values e) as [H|H]; rewrite H; discriminate. Qed.

(** X3.  Every call of an operation appends exactly one audit record; the
    record has status success exactly when the call returned, and a call
    that returns always returns a response. *)
Theorem every_call_is_audited_once (op : operation) (run : string)
  (receipt : option nat) (w : World) :
  valid_ref w receipt ->
  let r := perform op run receipt w in
  length (audit_records (self (snd r))) = S (length (audit_records (self w))) /\
  firstn (length (audit_records (self w))) (audit_records (self (snd r)))
  = audit_records (self w) /\
  (last_status (snd r) = Some "success" <-> exists resp, fst r = Return (Some resp)) /\
  fst r <> Return None.
Proof.
  intros Href r. subst r.
  pose proof (perform_paths op run receipt w Href) as Hpaths.
  assert (Hrefused : forall e,
    refused_with e (op_kind op) receipt w (perform op run receipt w) ->
    length (audit_records (self (snd (perform op run receipt w))))
    = S (length (audit_records (self w))) /\
    firstn (length (audit_records (self w)))
      (audit_records (self (snd (perform op run receipt w))))
    = audit_records (self w) /\
    (last_status (snd (perform op run receipt w)) = Some "success"
     <-> exists resp, fst (perform op run receipt w) = Return (Some resp)) /\
    fst (perform op run receipt w) <> Return None).
  { intros e (Hres & _ & _ & _ & _ & _ & a & Ha & Hst & _).
    unfold last_status. rewrite Ha, length_app, last_snoc, Hres.
    cbn [length option_map]. rewrite Hst.
    split; [lia|]. split; [now rewrite firstn_app, Nat.sub_diag, firstn_all, app_nil_r|].
    split; [|discriminate]. split.
    - intros [= H]. now apply refused_status_not_success in H.
    - intros [resp H]. discriminate H. }
  destruct (gate_error (op_name op) w run (op_kind op) receipt) as [e|];
    [now apply (Hrefused e)|].
  destruct (repository_error op) as [e|]; [now apply (Hrefused e)|].
  destruct Hpaths as (l & r0 & owner & repo & resp & w' & _ & _ & _ & Hrun & Hex).
  rewrite Hrun. cbn [fst snd].
  destruct Hex as (_ & _ & _ & _ & _ & _ & Ha & _ & Hst & _).
  unfold last_status. rewrite Ha, length_app, last_snoc. cbn [length option_map].
  rewrite Hst.
  split; [lia|]. split; [now rewrite firstn_app, Nat.sub_diag, firstn_all, app_nil_r|].
  split; [|discriminate]. split; [eauto | reflexivity].
Qed.

(** X3 at a tag operation presented with the receipt of a release. *)
Lemma every_call_is_audited_once_witness :
  let r := perform ExecutorSamples.tag_v1 "run-1" (Some 0%nat)
             ExecutorSamples.prod_world in
  length (audit_records (self (snd r)))
  = S (length (audit_records (self ExecutorSamples.prod_world))) /\
  firstn (length (audit_records (self ExecutorSamples.prod_world)))
    (audit_records (self (snd r)))
  = audit_records (self ExecutorSamples.prod_world) /\
  (last_status (snd r) = Some "success" <-> exists resp, fst r = Return (Some resp)) /\
  fst r <> Return None.
Proof.
  apply (every_call_is_audited_once ExecutorSamples.tag_v1 "run-1" (Some 0%nat)
           ExecutorSamples.prod_world).
  cbn. eauto.
Defined.

Lemma consumed_fails_binding (now : datetime) (r : EnforceableReceipt)
  (run : string) (kind : OperationKind) :
  consumed r = true -> exists c, first_failure now r run kind = Some c.
Proof.
  intros Hc. unfold first_failure, six_checks. cbn [List.find passes].
  destruct (String.eqb (run_id r) run); cbn [negb]; [|eauto].
  destruct (String.eqb (operation_kind r) (value kind)); cbn [negb]; [|eauto].
  destruct (enforceable r); cbn [negb]; [|eauto].
  rewrite Hc. cbn [negb]. eauto.
Qed.

(** The entry checks refuse a consumed receipt with an authorization
    error. *)
Lemma consumed_gate (name : string) (w : World) (run : string)
  (kind : OperationKind) (l : nat) (r : EnforceableReceipt) :
  receipts w !! l = Some r ->
  consumed r = true ->
  exists e, gate_error name w run kind (Some l) = Some e /\
            failure_status e = "rejected_by_auth".
Proof.
  intros Hl Hc. unfold gate_error. rewrite Hl.
  destruct (negb _); [eexists; split; reflexivity|].
  destruct (consumed_fails_binding (validation_time w) r run kind Hc) as [c Hff].
  rewrite Hff. eexists. split; reflexivity.
Qed.

(** X4.  One-time use: once an operation has returned under a receipt,
    every later call of any operation that presents the same receipt
    object is refused as rejected_by_auth and reaches no platform. *)
Theorem receipt_authorizes_one_execution (op1 op2 : operation) (run1 run2 : string)
  (receipt : option nat) (w w1 : World) (resp : OperationResponse) :
  valid_ref w receipt ->
  perform op1 run1 receipt w = (Return (Some resp), w1) ->
  exists e,
    refused_with e (op_kind op2) receipt w1 (perform op2 run2 receipt w1) /\
    failure_status e = "rejected_by_auth".
Proof.
  intros Href Hrun.
  pose proof (perform_paths op1 run1 receipt w Href) as Hpaths.
  assert (Hraise : forall e,
    ~ refused_with e (op_kind op1) receipt w (perform op1 run1 receipt w)).
  { intros e (Hres & _). rewrite Hrun in Hres. discriminate Hres. }
  destruct (gate_error (op_name op1) w run1 (op_kind op1) receipt) as [e|];
    [now apply Hraise in Hpaths|].
  destruct (repository_error op1) as [e|]; [now apply Hraise in Hpaths|].
  destruct Hpaths as (l & r0 & owner & repo & resp' & w' & -> & Hl & _ & Hrun' & Hex).
  rewrite Hrun in Hrun'. injection Hrun' as <- <-.
  destruct Hex as (_ & _ & (t & Hrec) & _).
  assert (Hl1 : receipts w1 !! l = Some (consumed_receipt r0 t)).
  { rewrite Hrec. apply list_lookup_insert_eq. now apply lookup_lt_Some in Hl. }
  destruct (consumed_gate (op_name op2) w1 run2 (op_kind op2) l _ Hl1 eq_refl)
    as (e & Hge & Hstatus).
  pose proof (perform_paths op2 run2 (Some l) w1) as Hpaths2.
  rewrite Hge in Hpaths2. exists e. split; [|exact Hstatus].
  apply Hpaths2. cbn. eauto.
Qed.

(** X4 at a release followed by a tag under the same receipt object. *)
Lemma receipt_authorizes_one_execution_witness :
  let w1 := snd (perform ExecutorSamples.release_v1 "run-1" (Some 0%nat)
                   ExecutorSamples.prod_world) in
  exists e,
    refused_with e TAG_REPO (Some 0%nat) w1
      (perform ExecutorSamples.tag_v1 "run-1" (Some 0%nat) w1) /\
    failure_status e = "rejected_by_auth".
Proof.
  destruct (perform ExecutorSamples.release_v1 "run-1" (Some 0%nat)
              ExecutorSamples.prod_world) as [[[resp|]|e] w1] eqn:Hrun;
    cbn [snd].
  - apply (receipt_authorizes_one_execution ExecutorSamples.release_v1
             ExecutorSamples.tag_v1 "run-1" "run-1" (Some 0%nat)
             ExecutorSamples.prod_world w1 resp); [cbn; eauto | exact Hrun].
  - vm_compute in Hrun. discriminate Hrun.
  - vm_compute in Hrun. discriminate Hrun.
Defined.

(** X5.  No receipt, no action: in prod mode a call without a receipt is
    refused with the no-receipt error, and its audit record carries the
    receipt id NONE and the status rejected_by_auth. *)
Theorem missing_receipt_is_refused (op : operation) (run : string) (w : World) :
  mode (self w) = "prod" ->
  refused_with no_receipt_error (op_kind op) None w (perform op run None w) /\
  exists a,
    last (audit_records (self (snd (perform op run None w)))) = Some a /\
    ar_receipt_id a = "NONE" /\
    ar_status a = "rejected_by_auth" /\
    ar_error_code a = Some "ReceiptValidationError".
Proof.
  intros Hmode.
  pose proof (perform_paths op run None w I) as Hpaths.
  unfold gate_error in Hpaths. rewrite Hmode in Hpaths. cbn [String.eqb negb] in Hpaths.
  change (("prod" =? "prod")%string) with true in Hpaths. cbn [negb] in Hpaths.
  split; [exact Hpaths|].
  destruct Hpaths as (_ & _ & _ & _ & _ & _ & a & Ha & Hst & _ & Hid & Hcode & _).
  exists a. rewrite Ha, last_snoc. repeat split; assumption.
Qed.

(** X5 at a release without a receipt. *)
Lemma missing_receipt_is_refused_witness :
  refused_with no_receipt_error PUBLISH_RELEASE None ExecutorSamples.prod_world
    (perform ExecutorSamples.release_v1 "run-1" None ExecutorSamples.prod_world) /\
  exists a,
    last (audit_records
            (self (snd (perform ExecutorSamples.release_v1 "run-1" None
                          ExecutorSamples.prod_world)))) = Some a /\
    ar_receipt_id a = "NONE" /\
    ar_status a = "rejected_by_auth" /\
    ar_error_code a = Some "ReceiptValidationError".
Proof.
  apply (missing_receipt_is_refused ExecutorSamples.release_v1 "run-1"
           ExecutorSamples.prod_world).
  reflexivity.
Defined.

(** X6.  When the requests of the past hour have used up the rate limit, an
    authorized call is refused with the Rate limited exception: status
    failed, nothing reaches the platform and the receipt stays
    unconsumed. *)
Theorem exhausted_rate_limit_is_refused (op : operation) (run : string)
  (receipt : option nat) (w : World) :
  authorized w run (op_kind op) receipt ->
  has_capacity (rate_time w) (self w) = false ->
  refused_with rate_limited_error (op_kind op) receipt w (perform op run receipt w) /\
  failure_status rate_limited_error = "failed".
Proof.
  intros Hauth Hcap.
  pose proof (perform_paths op run receipt w (authorized_valid_ref _ _ _ _ Hauth))
    as Hpaths.
  rewrite (authorized_gate (op_name op) _ _ _ _ Hauth), Hcap in Hpaths.
  split; [exact Hpaths | reflexivity].
Qed.

(** X6 at a publisher that made 5000 requests within the hour. *)
Lemma exhausted_rate_limit_is_refused_witness :
  refused_with rate_limited_error PUBLISH_RELEASE (Some 0%nat)
    ExecutorSamples.busy_world
    (perform ExecutorSamples.release_v1 "run-1" (Some 0%nat)
       ExecutorSamples.busy_world) /\
  failure_status rate_limited_error = "failed".
Proof.
  apply (exhausted_rate_limit_is_refused ExecutorSamples.release_v1 "run-1"
           (Some 0%nat) ExecutorSamples.busy_world).
  - split; [reflexivity|]. exists 0%nat, Samples.receipt_run1.
    split; [reflexivity|]. split; [reflexivity|]. vm_compute. reflexivity.
  - vm_compute. reflexivity.
Defined.

(** X7.  A repository that does not split at the slash into exactly two
    parts makes an authorized call fail with a ValueError before the
    platform is called: status failed, and the receipt stays unconsumed
    and can be presented again. *)
Theorem malformed_repository_is_refused (op : operation) (run : string)
  (receipt : option nat) (w : World) :
  authorized w run (op_kind op) receipt ->
  has_capacity (rate_time w) (self w) = true ->
  length (split "/" (op_repository op)) <> 2%nat ->
  exists e,
    refused_with e (op_kind op) receipt w (perform op run receipt w) /\
    exn_type e = ValueError /\
    failure_status e = "failed".
Proof.
  intros Hauth Hcap Hlen.
  pose proof (perform_paths op run receipt w (authorized_valid_ref _ _ _ _ Hauth))
    as Hpaths.
  destruct (other_parts_error op Hlen) as (e & Herr & Htype).
  rewrite (authorized_gate (op_name op) _ _ _ _ Hauth), Hcap, Herr in Hpaths.
  exists e. split; [exact Hpaths|]. split; [exact Htype|].
  unfold failure_status, isinstance. rewrite Htype. reflexivity.
Qed.

(** X7 at a repository without a slash. *)
Lemma malformed_repository_is_refused_witness :
  exists e,
    refused_with e PUBLISH_RELEASE (Some 0%nat) ExecutorSamples.prod_world
      (perform ExecutorSamples.release_no_slash "run-1" (Some 0%nat)
         ExecutorSamples.prod_world) /\
    exn_type e = ValueError /\
    failure_status e = "failed".
Proof.
  apply (malformed_repository_is_refused ExecutorSamples.release_no_slash "run-1"
           (Some 0%nat) ExecutorSamples.prod_world).
  - split; [reflexivity|]. exists 0%nat, Samples.receipt_run1.
    split; [reflexivity|]. split; [reflexivity|]. vm_compute. reflexivity.
  - vm_compute. reflexivity.
  - vm_compute. discriminate.
Defined.



(** X9.  A publisher as its constructor leaves it is not rate limited: it
    executes an authorized call for a repository of the form owner/name. *)
Theorem fresh_publisher_executes (token : string) (m : string) (recovery : bool)
  (op : operation) (run : string) (receipt : option nat) (w : World)
  (owner repo : string) :
  init token m recovery = Return (self w) ->
  authorized w run (op_kind op) receipt ->
  split "/" (op_repository op) = [owner; repo] ->
  exists l r0 resp w',
    receipt = Some l /\ receipts w !! l = Some r0 /\
    perform op run receipt w = (Return (Some resp), w') /\
    executed_with (platform_call_of op owner repo) (op_kind op) l r0 w resp w'.
Proof.
  intros Hinit Hauth Hsplit.
  assert (Hfresh : request_times (self w) = [] /\ requests_per_hour (self w) = 5000).
  { unfold init in Hinit. destruct (negb _); [discriminate Hinit|].
    injection Hinit as <-. now split. }
  destruct Hfresh as [Htimes Hmax].
  pose proof (perform_paths op run receipt w (authorized_valid_ref _ _ _ _ Hauth))
    as Hpaths.
  assert (Hcap : has_capacity (rate_time w) (self w) = true).
  { unfold has_capacity, recent_requests. rewrite Htimes, Hmax. reflexivity. }
  rewrite (authorized_gate (op_name op) _ _ _ _ Hauth), Hcap,
    (two_parts_no_error op owner repo Hsplit) in Hpaths.
  destruct Hpaths as (l & r0 & owner' & repo' & resp & w' & Hr & Hl & Hsplit'
                      & Hrun & Hex).
  rewrite Hsplit in Hsplit'. injection Hsplit' as <- <-.
  now exists l, r0, resp, w'.
Qed.

(** X9 at the publisher that the constructor returns for mode prod. *)
Lemma fresh_publisher_executes_witness :
  exists l r0 resp w',
    Some 0%nat = Some l /\
    receipts ExecutorSamples.prod_world !! l = Some r0 /\
    perform ExecutorSamples.release_v1 "run-1" (Some 0%nat) ExecutorSamples.prod_world
    = (Return (Some resp), w') /\
    executed_with (platform_call_of ExecutorSamples.release_v1 "owner" "repo")
      PUBLISH_RELEASE l r0 ExecutorSamples.prod_world resp w'.
Proof.
  apply (fresh_publisher_executes "fake-token" "prod" true ExecutorSamples.release_v1
           "run-1" (Some 0%nat) ExecutorSamples.prod_world "owner" "repo").
  - reflexivity.
  - split; [reflexivity|]. exists 0%nat, Samples.receipt_run1.
    split; [reflexivity|]. split; [reflexivity|]. vm_compute. reflexivity.
  - vm_compute. reflexivity.
Defined.

End ExecutorProperties.

(** ** Receipt Authority: what the generator guarantees *)

Section GeneratorProperties.
Import Py FC AuthoritySpec ConsumeSpec GeneratorPaths.
Context {rt : StrRuntime}.

Lemma validate_operation_true (p : AuthorizationPolicy) (ctx : OperationContext)
  (ev : AuthorizationEvidence) (b : bool) :
  validate_operation p ctx ev = Return b -> b = true.
Proof.
  unfold validate_operation.
  destruct (rules p !! value (ctx_operation_kind ctx)) as [rs|]; [|discriminate].
  destruct (allowed_repositories rs) as [allowed|];
    [destruct (negb (_matches_pattern (ctx_repository ctx) allowed)); [discriminate|]|];
    (destruct (require_evidence rs) as [reqs|]; [|congruence]);
    (destruct (_check_evidence_requirements reqs ev) as [ok|e]; [|discriminate]);
    (destruct (negb ok); [discriminate | congruence]).
Qed.

(** The world a call of [authorize_and_issue_receipt] that returns leaves. *)
Lemma authorize_returns (ctx : OperationContext)
  (oev : option AuthorizationEvidence) (w w' : World) (l : nat)
  (ev : AuthorizationEvidence) :
  authorize_and_issue_receipt ctx oev w = (Return (l, ev), w') ->
  exists r entry,
    w' = minted_world w r entry /\
    l = length (heap w) /\
    verify_signature r (fc_secret (self w)) = Return true /\
    consumed r = false /\
    run_id r = ctx_run_id ctx /\
    operation_kind r = value (ctx_operation_kind ctx) /\
    (enforceable r = true <->
     validate_operation (policy (self w)) ctx (evidence_used oev w) = Return true).
Proof.
  unfold authorize_and_issue_receipt, _generate_receipt_id.
  unfold bind, utcnow, get_self, ret. cbn [clock ticks heap self].
  fold (evidence_used oev w).
  destruct (validate_operation (policy (self w)) ctx (evidence_used oev w))
    as [b|e] eqn:Hval.
  - apply validate_operation_true in Hval as ->.
    unfold alloc, set_self, modify. cbn [clock ticks heap self].
    intros [= <- <- <-].
    match goal with |- context [heap w ++ [?r]] => exists r end.
    eexists. split; [reflexivity|].
    split; [reflexivity|]. split; [apply sign_verifies|].
    repeat split; reflexivity.
  - destruct (is_policy_failure e).
    + unfold alloc, set_self, modify. cbn [clock ticks heap self].
      intros [= <- <- <-].
      match goal with |- context [heap w ++ [?r]] => exists r end.
      eexists. split; [reflexivity|].
      split; [reflexivity|]. split; [apply sign_verifies|].
      repeat split; try reflexivity; discriminate.
    + unfold raise. discriminate.
Qed.

Lemma minted_world_lookup (w : World) (r : EnforceableReceipt) (entry : IssuanceRecord) :
  heap (minted_world w r entry) !! length (heap w) = Some r.
Proof. cbn [minted_world heap]. apply list_lookup_middle. reflexivity. Qed.

(** X10.  Round trip: a receipt that [authorize_and_issue_receipt] returns,
    enforceable or advisory, is accepted by [verify_and_consume_receipt] of
    the same generator, which marks the filed object consumed; a second
    presentation raises an AuthorizationError and changes nothing. *)
Theorem minted_receipt_is_consumed_once (ctx : OperationContext)
  (oev : option AuthorizationEvidence) (w w1 : World) (l : nat)
  (ev : AuthorizationEvidence) :
  authorize_and_issue_receipt ctx oev w = (Return (l, ev), w1) ->
  exists r w2,
    heap w1 !! l = Some r /\
    verify_and_consume_receipt l w1 = (Return true, w2) /\
    (exists t, heap w2 !! l = Some (set_consumed r t)) /\
    exists e,
      verify_and_consume_receipt l w2 = (Raise e, w2) /\
      exn_type e = AuthorizationError.
Proof.
  intros Hmint.
  destruct (authorize_returns ctx oev w w1 l ev Hmint)
    as (r & entry & -> & -> & Hsig & Hcons & _).
  pose proof (minted_world_lookup w r entry) as Hl.
  exists r, (consumed_world (minted_world w r entry) (length (heap w)) r).
  split; [exact Hl|].
  assert (Hfiled : issued_receipts (self (minted_world w r entry)) !! receipt_id r
                   = Some (length (heap w))).
  { cbn [minted_world self issued_receipts]. apply lookup_insert_eq. }
  split.
  { rewrite (verify_and_consume_run _ _ r Hl).
    cbn [minted_world self fc_secret]. rewrite Hsig.
    change (issued_receipts _ !! receipt_id r)
      with (issued_receipts (self (minted_world w r entry)) !! receipt_id r).
    rewrite Hfiled, Hl, Hcons. reflexivity. }
  pose proof (consumed_world_lookup _ _ r Hl) as Hl2.
  split; [eexists; exact Hl2|].
  eexists. split; [|shelve].
  rewrite (verify_and_consume_run _ _ _ Hl2).
  rewrite verify_signature_set_consumed.
  cbn [consumed_world minted_world self fc_secret]. rewrite Hsig.
  cbn [set_consumed receipt_id].
  change (issued_receipts _ !! receipt_id r)
    with (issued_receipts (self (minted_world w r entry)) !! receipt_id r).
  rewrite Hfiled.
  change (<[length (heap w) := _]> (heap w ++ [r]) !! length (heap w))
    with (heap (consumed_world (minted_world w r entry) (length (heap w)) r)
            !! length (heap w)).
  rewrite Hl2. cbn [set_consumed consumed]. reflexivity.
  Unshelve. reflexivity.
Qed.


(** A requirement list that evaluates to True holds no violated
    requirement. *)
Lemma check_evidence_true (reqs : list string) (ev : AuthorizationEvidence) :
  _check_evidence_requirements reqs ev = Return true ->
  Forall (fun req => violated ev req = false) reqs.
Proof.
  induction reqs as [|req reqs IH]; [constructor|].
  cbn [_check_evidence_requirements].
  destruct (contains ">=" req) eqn:Hge.
  2:{ intros H. constructor; [|exact (IH H)]. unfold violated. now rewrite Hge. }
  destruct (split ">=" req) as [|key [|val [|x rest]]] eqn:Hsplit; try discriminate.
  destruct (int_of_str (strip val)) as [n|] eqn:Hint; [|discriminate].
  destruct (String.eqb (strip key) "approval_count"
            && (Z.of_nat (length (approvers ev)) <? n)) eqn:Hv; [discriminate|].
  intros H. constructor; [|exact (IH H)].
  unfold violated. rewrite Hge, Hsplit, Hint. exact Hv.
Qed.

Lemma validate_operation_returns (p : AuthorizationPolicy) (ctx : OperationContext)
  (ev : AuthorizationEvidence) (b : bool) :
  validate_operation p ctx ev = Return b ->
  exists rs,
    rules p !! value (ctx_operation_kind ctx) = Some rs /\
    repository_allowed_by rs ctx /\
    forall reqs, require_evidence rs = Some reqs ->
                 Forall (fun req => violated ev req = false) reqs.
Proof.
  unfold validate_operation, repository_allowed_by.
  destruct (rules p !! value (ctx_operation_kind ctx)) as [rs|]; [|discriminate].
  intros H. exists rs. split; [reflexivity|].
  destruct (allowed_repositories rs) as [allowed|].
  - destruct (_matches_pattern (ctx_repository ctx) allowed); cbn [negb] in H;
      [|discriminate]. split; [reflexivity|].
    intros reqs Hreqs. rewrite Hreqs in H.
    destruct (_check_evidence_requirements reqs ev) as [[|]|e] eqn:Hc;
      try discriminate. now apply check_evidence_true.
  - split; [exact I|].
    intros reqs Hreqs. rewrite Hreqs in H.
    destruct (_check_evidence_requirements reqs ev) as [[|]|e] eqn:Hc;
      try discriminate. now apply check_evidence_true.
Qed.

(** X11.  Deny by default: [authorize_and_issue_receipt] returns an
    enforceable receipt only if the policy holds a rule set for the
    operation kind, the repository passes its allow-list when it has one,
    and none of its evidence requirements is violated by the evidence
    validated. *)
Theorem enforceable_only_when_policy_allows (ctx : OperationContext)
  (oev : option AuthorizationEvidence) (w w' : World) (l : nat)
  (ev : AuthorizationEvidence) (r : EnforceableReceipt) :
  authorize_and_issue_receipt ctx oev w = (Return (l, ev), w') ->
  heap w' !! l = Some r ->
  enforceable r = true ->
  exists rs,
    rules (policy (self w)) !! value (ctx_operation_kind ctx) = Some rs /\
    repository_allowed_by rs ctx /\
    forall reqs, require_evidence rs = Some reqs ->
                 Forall (fun req => violated (evidence_used oev w) req = false) reqs.
Proof.
  intros Hmint Hl Henf.
  destruct (authorize_returns ctx oev w w' l ev Hmint)
    as (r' & entry & -> & -> & _ & _ & _ & _ & Hiff).
  rewrite minted_world_lookup in Hl. injection Hl as ->.
  apply Hiff in Henf. now apply validate_operation_returns in Henf.
Qed.

Lemma check_evidence_more_approvers (reqs : list string)
  (ev ev' : AuthorizationEvidence) :
  (length (approvers ev) <= length (approvers ev'))%nat ->
  _check_evidence_requirements reqs ev = Return true ->
  _check_evidence_requirements reqs ev' = Return true.
Proof.
  intros Hle. induction reqs as [|req reqs IH]; [reflexivity|].
  cbn [_check_evidence_requirements].
  destruct (contains ">=" req); [|exact IH].
  destruct (split ">=" req) as [|key [|val [|x rest]]]; try discriminate.
  destruct (int_of_str (strip val)) as [n|]; [|discriminate].
  destruct (String.eqb (strip key) "approval_count"); cbn [andb]; [|exact IH].
  destruct (Z.of_nat (length (approvers ev)) <? n) eqn:Hlt; [discriminate|].
  apply Z.ltb_ge in Hlt.
  assert (Hlt' : (Z.of_nat (length (approvers ev')) <? n) = false)
    by (apply Z.ltb_ge; lia).
  rewrite Hlt'. exact IH.
Qed.

(** X12.  Approvals only help: an operation that the policy validation
    accepts with some evidence is accepted with any evidence that names at
    least as many approvers. *)
Theorem more_approvers_never_hurt (p : AuthorizationPolicy) (ctx : OperationContext)
  (ev ev' : AuthorizationEvidence) :
  (length (approvers ev) <= length (approvers ev'))%nat ->
  validate_operation p ctx ev = Return true ->
  validate_operation p ctx ev' = Return true.
Proof.
  intros Hle. unfold validate_operation.
  destruct (rules p !! value (ctx_operation_kind ctx)) as [rs|]; [|discriminate].
  destruct (allowed_repositories rs) as [allowed|];
    [destruct (negb (_matches_pattern (ctx_repository ctx) allowed)); [discriminate|]|];
    (destruct (require_evidence rs) as [reqs|]; [|reflexivity]);
    (destruct (_check_evidence_requirements reqs ev) as [[|]|e] eqn:Hc;
       try discriminate);
    now rewrite (check_evidence_more_approvers reqs ev ev' Hle Hc).
Qed.

(** X13.  Patterns without a star are matched by equality: for such an
    allow-list [_matches_pattern] is list membership, and no text matches
    the empty list. *)
Theorem star_free_patterns_match_exactly (text : string) (patterns : list string) :
  Forall (fun pattern => contains "*" pattern = false) patterns ->
  (_matches_pattern text patterns = true <-> In text patterns).
Proof.
  induction 1 as [|pattern patterns Hp _ IH]; [split; [discriminate | intros []]|].
  cbn [_matches_pattern In]. rewrite Hp.
  destruct (String.eqb text pattern) eqn:Heq.
  - apply String.eqb_eq in Heq. split; [intros _; now left | reflexivity].
  - apply String.eqb_neq in Heq. rewrite IH. split; [now right|].
    intros [H|H]; [congruence | exact H].
Qed.


(** A call of [authorize_and_issue_receipt] that raises has changed neither
    the store nor the generator. *)
Lemma authorize_raises (ctx : OperationContext)
  (oev : option AuthorizationEvidence) (w w' : World) (e : exn) :
  authorize_and_issue_receipt ctx oev w = (Raise e, w') ->
  heap w' = heap w /\ self w' = self w.
Proof.
  unfold authorize_and_issue_receipt, _generate_receipt_id.
  unfold bind, utcnow, get_self, ret. cbn [clock ticks heap self].
  destruct (validate_operation _ ctx _) as [b|e0].
  - unfold alloc, set_self, modify. discriminate.
  - destruct (is_policy_failure e0).
    + unfold alloc, set_self, modify. discriminate.
    + unfold raise. intros [= _ <-]. now split.
Qed.

Lemma authorize_keeps_store_ok (ctx : OperationContext)
  (oev : option AuthorizationEvidence) (w : World) :
  store_ok w -> store_ok (snd (authorize_and_issue_receipt ctx oev w)).
Proof.
  intros Hok.
  destruct (authorize_and_issue_receipt ctx oev w) as [[[l ev]|e] w'] eqn:Hcall;
    cbn [snd].
  - destruct (authorize_returns ctx oev w w' l ev Hcall)
      as (r & entry & -> & _ & Hsig & _).
    intros rid l0. cbn [minted_world self issued_receipts heap fc_secret].
    destruct (decide (receipt_id r = rid)) as [<-|Hne].
    + rewrite lookup_insert_eq. intros [= <-]. exists r.
      split; [apply list_lookup_middle; reflexivity|]. now split.
    + rewrite lookup_insert_ne by exact Hne. intros Hl0.
      destruct (Hok rid l0 Hl0) as (r0 & Hr0 & Hid & Hsig0).
      exists r0. split; [now apply lookup_app_l_Some|]. now split.
  - destruct (authorize_raises ctx oev w w' e Hcall) as [Hheap Hself].
    intros rid l0. rewrite Hheap, Hself. apply Hok.
Qed.



(** X15.  Consuming one receipt leaves the others as they were: after a
    successful consumption, presenting a receipt with a different id has
    the outcome it would have had before. *)
Theorem consuming_leaves_other_receipts (w w1 : World) (l1 l2 : nat)
  (r1 r2 : EnforceableReceipt) :
  store_ok w ->
  heap w !! l1 = Some r1 ->
  heap w !! l2 = Some r2 ->
  receipt_id r1 <> receipt_id r2 ->
  verify_and_consume_receipt l1 w = (Return true, w1) ->
  fst (verify_and_consume_receipt l2 w1) = fst (verify_and_consume_receipt l2 w).
Proof.
  intros Hok Hl1 Hl2 Hne Hcall.
  destruct (verify_and_consume_success w w1 l1 r1 true Hl1 Hcall)
    as (_ & _ & ls & stored & Hiss & Hs & _ & ->).
  destruct (Hok _ _ Hiss) as (r & Hr & Hid & _).
  rewrite Hs in Hr. injection Hr as <-.
  assert (Hl2' : heap (consumed_world w ls stored) !! l2 = Some r2).
  { rewrite consumed_world_lookup_ne; [exact Hl2|].
    intros ->. rewrite Hs in Hl2. injection Hl2 as ->. congruence. }
  rewrite (verify_and_consume_run _ _ r2 Hl2'), (verify_and_consume_run _ _ r2 Hl2).
  cbn [consumed_world self].
  destruct (verify_signature r2 (fc_secret (self w))) as [[|]|e]; try reflexivity.
  destruct (issued_receipts (self w) !! receipt_id r2) as [ls2|] eqn:Hiss2;
    [|reflexivity].
  destruct (Hok _ _ Hiss2) as (s2 & Hs2 & Hid2 & _).
  change (<[ls := _]> (heap w) !! ls2)
    with (heap (consumed_world w ls stored) !! ls2).
  rewrite consumed_world_lookup_ne; [|intros ->; congruence].
  rewrite Hs2. now destruct (consumed s2).
Qed.

End GeneratorProperties.

Section GeneratorExamples.
Import Py FC AuthoritySpec ConsumeSpec GeneratorPaths.

(** X10 at a release of omega/app approved by two. *)
Lemma minted_receipt_is_consumed_once_witness :
  let w1 := snd (@authorize_and_issue_receipt ascii_runtime
                   (FCSamples.release_context "omega/app")
                   (Some (FCSamples.evidence_of ["alice"; "bob"]))
                   (FCSamples.generator_world FCSamples.open_policy)) in
  exists r w2,
    heap w1 !! 0%nat = Some r /\
    verify_and_consume_receipt 0 w1 = (Return true, w2) /\
    (exists t, heap w2 !! 0%nat = Some (set_consumed r t)) /\
    exists e,
      verify_and_consume_receipt 0 w2 = (Raise e, w2) /\
      exn_type e = AuthorizationError.
Proof.
  apply (@minted_receipt_is_consumed_once ascii_runtime
           (FCSamples.release_context "omega/app")
           (Some (FCSamples.evidence_of ["alice"; "bob"]))
           (FCSamples.generator_world FCSamples.open_policy) _ 0%nat
           (FCSamples.evidence_of ["alice"; "bob"])).
  vm_compute. reflexivity.
Defined.


(** X11 at the same call. *)
Lemma enforceable_only_when_policy_allows_witness :
  exists rs,
    rules (policy (self (FCSamples.generator_world FCSamples.open_policy)))
      !! value PUBLISH_RELEASE = Some rs /\
    @repository_allowed_by ascii_runtime rs (FCSamples.release_context "omega/app") /\
    forall reqs, require_evidence rs = Some reqs ->
                 Forall (fun req => @violated ascii_runtime
                                      (FCSamples.evidence_of ["alice"; "bob"]) req
                                    = false) reqs.
Proof.
  set (w1 := snd (@authorize_and_issue_receipt ascii_runtime
                    (FCSamples.release_context "omega/app")
                    (Some (FCSamples.evidence_of ["alice"; "bob"]))
                    (FCSamples.generator_world FCSamples.open_policy))).
  destruct (heap w1 !! 0%nat) as [r|] eqn:Hl.
  - apply (@enforceable_only_when_policy_allows ascii_runtime
             (FCSamples.release_context "omega/app")
             (Some (FCSamples.evidence_of ["alice"; "bob"]))
             (FCSamples.generator_world FCSamples.open_policy) w1 0%nat
             (FCSamples.evidence_of ["alice"; "bob"]) r).
    + vm_compute. reflexivity.
    + exact Hl.
    + vm_compute in Hl. injection Hl as <-. reflexivity.
  - vm_compute in Hl. discriminate Hl.
Defined.

(** X12 at two approvers against [approval_count >= 2], then three. *)
Lemma more_approvers_never_hurt_witness :
  @validate_operation ascii_runtime FCSamples.open_policy
    (FCSamples.release_context "omega/app")
    (FCSamples.evidence_of ["alice"; "bob"; "carol"])
  = Return true.
Proof.
  apply (@more_approvers_never_hurt ascii_runtime FCSamples.open_policy
           (FCSamples.release_context "omega/app")
           (FCSamples.evidence_of ["alice"; "bob"])
           (FCSamples.evidence_of ["alice"; "bob"; "carol"])).
  - simpl. lia.
  - vm_compute. reflexivity.
Defined.

(** X13 at an allow-list of two repositories. *)
Lemma star_free_patterns_match_exactly_witness :
  @_matches_pattern ascii_runtime "omega/app" ["marketops/core"; "omega/app"] = true
  <-> In "omega/app" ["marketops/core"; "omega/app"].
Proof.
  apply (@star_free_patterns_match_exactly ascii_runtime "omega/app"
           ["marketops/core"; "omega/app"]).
  repeat constructor.
Defined.



(** X15 at a generator with two receipts on file: the first is consumed,
    the second is presented. *)
Lemma consuming_leaves_other_receipts_witness :
  fst (verify_and_consume_receipt 1
         (snd (verify_and_consume_receipt 0 GeneratorSamples.two_receipts_world)))
  = fst (verify_and_consume_receipt 1 GeneratorSamples.two_receipts_world).
Proof.
  destruct (heap GeneratorSamples.two_receipts_world !! 0%nat) as [r1|] eqn:H1;
    [|vm_compute in H1; discriminate H1].
  destruct (heap GeneratorSamples.two_receipts_world !! 1%nat) as [r2|] eqn:H2;
    [|vm_compute in H2; discriminate H2].
  apply (@consuming_leaves_other_receipts GeneratorSamples.two_receipts_world
           (snd (verify_and_consume_receipt 0 GeneratorSamples.two_receipts_world))
           0%nat 1%nat r1 r2).
  - unfold GeneratorSamples.two_receipts_world.
    apply authorize_keeps_store_ok, authorize_keeps_store_ok.
    intros rid l Hl. cbn in Hl. rewrite lookup_empty in Hl. discriminate Hl.
  - exact H1.
  - exact H2.
  - vm_compute in H1. vm_compute in H2. injection H1 as <-. injection H2 as <-.
    vm_compute. discriminate.
  - vm_compute. reflexivity.
Defined.

End GeneratorExamples.

(** ** Proof Chain Generator: hashing and recording *)

Section KeyOrderLemmas.
Import Py KeyOrder.

Lemma ascii_compare_lt_trans (a b c : ascii) :
  Ascii.compare a b = Lt -> Ascii.compare b c = Lt -> Ascii.compare a c = Lt.
Proof.
  unfold Ascii.compare. rewrite !N.compare_lt_iff. apply N.lt_trans.
Qed.

Lemma string_compare_lt_trans (s1 s2 s3 : string) :
  String.compare s1 s2 = Lt -> String.compare s2 s3 = Lt -> String.compare s1 s3 = Lt.
Proof.
  revert s2 s3. induction s1 as [|a s1 IH]; intros [|b s2] [|c s3]; cbn;
    try discriminate; try reflexivity.
  destruct (Ascii.compare a b) eqn:Hab; try discriminate;
    destruct (Ascii.compare b c) eqn:Hbc; try discriminate.
  - apply Ascii.compare_eq_iff in Hab as ->. apply Ascii.compare_eq_iff in Hbc as ->.
    assert (Hcc : Ascii.compare c c = Eq) by (apply N.compare_refl).
    rewrite Hcc. apply IH.
  - apply Ascii.compare_eq_iff in Hab as ->. rewrite Hbc. reflexivity.
  - apply Ascii.compare_eq_iff in Hbc as ->. rewrite Hab. reflexivity.
  - rewrite (ascii_compare_lt_trans a b c Hab Hbc). reflexivity.
Qed.

Lemma string_compare_refl (s : string) : String.compare s s = Eq.
Proof.
  induction s as [|a s IH]; [reflexivity|]. cbn.
  assert (Haa : Ascii.compare a a = Eq) by (apply N.compare_refl).
  now rewrite Haa.
Qed.

Lemma string_leb_trans (s1 s2 s3 : string) :
  String.leb s1 s2 = true -> String.leb s2 s3 = true -> String.leb s1 s3 = true.
Proof.
  unfold String.leb.
  destruct (String.compare s1 s2) eqn:H12; try discriminate;
    destruct (String.compare s2 s3) eqn:H23; try discriminate; intros _ _.
  - apply String.compare_eq_iff in H12 as ->. now rewrite H23.
  - apply String.compare_eq_iff in H12 as ->. now rewrite H23.
  - apply String.compare_eq_iff in H23 as ->. now rewrite H12.
  - now rewrite (string_compare_lt_trans s1 s2 s3 H12 H23).
Qed.

Context {A : Type}.

Lemma insert_item_perm (kv : string * A) (l : list (string * A)) :
  insert_item kv l ≡ₚ kv :: l.
Proof.
  induction l as [|kv' t IH]; [reflexivity|]. cbn [insert_item].
  destruct (String.leb (fst kv) (fst kv')); [reflexivity|].
  rewrite IH. apply Permutation_swap.
Qed.

Lemma sorted_items_perm (l : list (string * A)) : sorted_items l ≡ₚ l.
Proof.
  induction l as [|kv t IH]; [reflexivity|].
  cbn [sorted_items fold_right]. fold (sorted_items t).
  now rewrite insert_item_perm, IH.
Qed.

Lemma insert_item_sorted (kv : string * A) (l : list (string * A)) :
  StronglySorted (@key_le A) l -> StronglySorted (@key_le A) (insert_item kv l).
Proof.
  induction 1 as [|kv' t Hsorted IH Hall]; [repeat constructor|].
  cbn [insert_item].
  destruct (String.leb (fst kv) (fst kv')) eqn:Hle.
  - constructor; [now constructor|]. constructor; [exact Hle|].
    eapply Forall_impl; [exact Hall|]. intros x Hx.
    exact (string_leb_trans _ _ _ Hle Hx).
  - constructor; [exact IH|].
    rewrite insert_item_perm. constructor; [|exact Hall].
    destruct (String.leb_total (fst kv) (fst kv')) as [H|H]; [congruence | exact H].
Qed.

Lemma sorted_items_sorted (l : list (string * A)) :
  StronglySorted (@key_le A) (sorted_items l).
Proof.
  induction l as [|kv t IH]; [constructor|].
  cbn [sorted_items fold_right]. now apply insert_item_sorted.
Qed.

Lemma distinct_keys_inj (l : list (string * A)) (x y : string * A) :
  NoDup (List.map fst l) -> x ∈ l -> y ∈ l -> fst x = fst y -> x = y.
Proof.
  induction l as [|z l IH]; cbn [List.map]; intros Hnd Hx Hy Hk.
  - inversion Hx.
  - apply NoDup_cons in Hnd as [Hz Hnd].
    apply elem_of_cons in Hx as [->|Hx]; apply elem_of_cons in Hy as [->|Hy].
    + reflexivity.
    + exfalso. apply Hz. rewrite Hk. apply list_elem_of_In, in_map.
      now apply list_elem_of_In.
    + exfalso. apply Hz. rewrite <- Hk. apply list_elem_of_In, in_map.
      now apply list_elem_of_In.
    + now apply IH.
Qed.

(** [sorted] gives the same list for every order of items with pairwise
    distinct keys. *)
Lemma sorted_items_order (l l' : list (string * A)) :
  NoDup (List.map fst l) -> l ≡ₚ l' -> sorted_items l = sorted_items l'.
Proof.
  intros Hnd Hperm.
  apply (StronglySorted_unique_strong (@key_le A)).
  - intros x y Hx Hy Hxy Hyx.
    apply (distinct_keys_inj l); [exact Hnd | | |].
    + now rewrite <- (sorted_items_perm l).
    + rewrite Hperm. now rewrite <- (sorted_items_perm l').
    + now apply String.leb_antisym.
  - apply sorted_items_sorted.
  - apply sorted_items_sorted.
  - now rewrite !sorted_items_perm.
Qed.

End KeyOrderLemmas.

Section Recording.
Import Py ProofGen ProofGenExt.

(** X16.  The hash of a dictionary does not depend on the order of its
    keys: two dictionaries with the same items, the keys pairwise
    distinct, have the same [_hash_data], and [record_step] computes the
    same input and output hashes for them. *)
Theorem hash_ignores_key_order (d d' : list (string * pyval)) :
  NoDup (List.map fst d) ->
  d ≡ₚ d' ->
  _hash_data (PDict d) = _hash_data (PDict d') /\
  forall sid act descr out w,
    fst (record_step sid act descr (PDict d) out w)
    = fst (record_step sid act descr (PDict d') out w) /\
    fst (record_step sid act descr out (PDict d) w)
    = fst (record_step sid act descr out (PDict d') w).
Proof.
  intros Hnd Hperm.
  assert (Hjson : json_dumps (PDict d) = json_dumps (PDict d')).
  { cbn [json_dumps]. do 4 f_equal.
    apply sorted_items_order.
    - rewrite List.map_map.
      erewrite List.map_ext; [exact Hnd|]. now intros [k x].
    - now apply Permutation_map. }
  assert (Hhash : _hash_data (PDict d) = _hash_data (PDict d'))
    by (unfold _hash_data; now rewrite Hjson).
  split; [exact Hhash|].
  intros sid act descr out w.
  unfold record_step, bind, utcnow, get_self, set_self, modify, ret.
  cbn [fst]. rewrite Hhash. split; reflexivity.
Qed.

(** X16 at a dictionary of two keys, in both orders. *)
Lemma hash_ignores_key_order_witness :
  _hash_data (PDict [("tag", PStr "v1.0.0"); ("repository", PStr "omega/app")])
  = _hash_data (PDict [("repository", PStr "omega/app"); ("tag", PStr "v1.0.0")]) /\
  forall sid act descr out w,
    fst (record_step sid act descr
           (PDict [("tag", PStr "v1.0.0"); ("repository", PStr "omega/app")]) out w)
    = fst (record_step sid act descr
             (PDict [("repository", PStr "omega/app"); ("tag", PStr "v1.0.0")]) out w) /\
    fst (record_step sid act descr out
           (PDict [("tag", PStr "v1.0.0"); ("repository", PStr "omega/app")]) w)
    = fst (record_step sid act descr out
             (PDict [("repository", PStr "omega/app"); ("tag", PStr "v1.0.0")]) w).
Proof.
  apply (hash_ignores_key_order
           [("tag", PStr "v1.0.0"); ("repository", PStr "omega/app")]
           [("repository", PStr "omega/app"); ("tag", PStr "v1.0.0")]).
  - cbn [List.map fst]. apply NoDup_cons. split; [|apply NoDup_singleton].
    intros H. apply list_elem_of_singleton in H. discriminate H.
  - apply Permutation_swap.
Defined.

Lemma sign_step_key (g g' : EndToEndProofGenerator) (data : string) :
  secret_key g' = secret_key g -> _sign_step g' data = _sign_step g data.
Proof. unfold _sign_step. now intros ->. Qed.

(** One call of [record_step]. *)
Lemma record_step_run (c : StepCall) (w : World) :
  exists s,
    record_step (sc_step_id c) (sc_actor c) (sc_description c)
      (sc_input c) (sc_output c) w
    = (Return s,
       {| clock := clock w; ticks := S (ticks w);
          self := {| secret_key := secret_key (self w);
                     steps := steps (self w) ++ [s];
                     chain_hash := chain_hash (self w) |} |}) /\
    step_id s = sc_step_id c /\
    description s = sc_description c /\
    actor s = sc_actor c /\
    timestamp s = iso_z (clock w (ticks w)) /\
    signature s = _sign_step (self w) (signed_data s).
Proof.
  unfold record_step, bind, utcnow, get_self, set_self, modify, ret.
  cbn [clock ticks self]. eexists. split; [reflexivity|]. repeat split; reflexivity.
Qed.

Lemma record_all_run (calls : list StepCall) (w : World) :
  exists new,
    fst (record_all calls w) = Return tt /\
    steps (self (snd (record_all calls w))) = steps (self w) ++ new /\
    secret_key (self (snd (record_all calls w))) = secret_key (self w) /\
    ticks (snd (record_all calls w)) = (ticks w + length calls)%nat /\
    clock (snd (record_all calls w)) = clock w /\
    List.map step_id new = List.map sc_step_id calls /\
    List.map description new = List.map sc_description calls /\
    List.map timestamp new
    = List.map (fun i => iso_z (clock w (ticks w + i)%nat)) (seq 0 (length calls)) /\
    Forall (fun s => signature s = _sign_step (self w) (signed_data s)) new.
Proof.
  revert w. induction calls as [|c rest IH]; intros w.
  - exists []. cbn. rewrite app_nil_r, Nat.add_0_r. repeat split. constructor.
  - destruct (record_step_run c w) as (s & Hrun & Hid & Hdescr & _ & Hts & Hsig).
    match type of Hrun with _ = (_, ?w0) => set (w1 := w0) in * end.
    assert (Hcons : record_all (c :: rest) w = record_all rest w1).
    { cbn [record_all]. unfold bind. now rewrite Hrun. }
    rewrite Hcons.
    destruct (IH w1) as (new & Hret & Hsteps & Hkey & Hticks & Hclock & Hids
                         & Hdescrs & Htss & Hsigs).
    exists (s :: new). split; [exact Hret|].
    split; [rewrite Hsteps; subst w1; cbn [self steps]; now rewrite <- app_assoc|].
    split; [rewrite Hkey; reflexivity|].
    split; [rewrite Hticks; subst w1; cbn [ticks length]; lia|].
    split; [rewrite Hclock; reflexivity|].
    split; [cbn [List.map]; now rewrite Hid, Hids|].
    split; [cbn [List.map]; now rewrite Hdescr, Hdescrs|].
    split.
    + cbn [List.map length seq]. rewrite Hts, Nat.add_0_r, Htss. f_equal.
      rewrite <- seq_shift, List.map_map. apply List.map_ext. intros i.
      subst w1. cbn [clock ticks]. do 2 f_equal. lia.
    + constructor; [exact Hsig|].
      eapply Forall_impl; [exact Hsigs|]. intros x Hx. rewrite Hx.
      apply sign_step_key. reflexivity.
Qed.

(** X17.  Recording keeps the order of the calls: after the steps [calls]
    are recorded one after the other, the chain holds the earlier steps
    followed by one step per call, in call order, with the call's id and
    description, the timestamp of the clock reading of its call and a
    signature that is the HMAC under the generator's key of the step's own
    fields; [finalize_chain] then counts and lists all of them. *)
Theorem recorded_steps_keep_call_order (calls : list StepCall) (w : World) :
  let w1 := snd (record_all calls w) in
  exists new pc,
    steps (self w1) = steps (self w) ++ new /\
    List.map step_id new = List.map sc_step_id calls /\
    List.map description new = List.map sc_description calls /\
    List.map timestamp new
    = List.map (fun i => iso_z (clock w (ticks w + i)%nat)) (seq 0 (length calls)) /\
    Forall (fun s => signature s = _sign_step (self w) (signed_data s)) new /\
    fst (finalize_chain w1) = Return pc /\
    pc_total_steps pc = Z.of_nat (length (steps (self w)) + length calls) /\
    pc_steps pc = List.map to_dict (steps (self w) ++ new).
Proof.
  intros w1. subst w1.
  destruct (record_all_run calls w) as (new & _ & Hsteps & _ & _ & _ & Hids
                                        & Hdescrs & Htss & Hsigs).
  exists new. eexists. repeat (split; [eassumption|]).
  split; [reflexivity|].
  cbn [pc_total_steps pc_steps self steps]. rewrite Hsteps. split; [|reflexivity].
  rewrite length_app. f_equal. f_equal.
  rewrite <- (length_map step_id new), Hids. apply length_map.
Qed.

End Recording.

(** ** Receipt Authority: forged signatures *)

Section Forgery.
Import Py FC AuthoritySpec ConsumeSpec.

(** X18.  A receipt whose signature is not the MAC of its fields under the
    generator's secret is never consumed: [verify_and_consume_receipt]
    raises and changes nothing.  The error is an AuthorizationError,
    except that a signature holding a non-ASCII character makes the
    comparison raise a TypeError. *)
Theorem wrong_signature_is_never_consumed (w : World) (l : nat)
  (r : EnforceableReceipt) :
  heap w !! l = Some r ->
  signature r <> Some (mac (fc_secret (self w)) r) ->
  exists e,
    verify_and_consume_receipt l w = (Raise e, w) /\
    exn_type e =
      match signature r with
      | Some (String c s) =>
          if is_ascii (String c s) then AuthorizationError else TypeError
      | _ => AuthorizationError
      end.
Proof.
  intros Hl Hsig. rewrite (verify_and_consume_run w l r Hl).
  unfold verify_signature.
  destruct (signature r) as [[|c s]|]; try (eexists; split; reflexivity).
  unfold compare_digest. rewrite mac_is_ascii, andb_true_r.
  destruct (is_ascii (String c s)); [|eexists; split; reflexivity].
  destruct (String.eqb (String c s) (mac (fc_secret (self w)) r)) eqn:Heq.
  - apply String.eqb_eq in Heq. congruence.
  - eexists; split; reflexivity.
Qed.

(** X18 at the filed receipt with its enforceable flag flipped. *)
Lemma wrong_signature_is_never_consumed_witness :
  exists e,
    verify_and_consume_receipt 1 ForgerySamples.forged_world
    = (Raise e, ForgerySamples.forged_world) /\
    exn_type e =
      match signature (FCSamples.flip_enforceable ConsumeSamples.signed_receipt) with
      | Some (String c s) =>
          if is_ascii (String c s) then AuthorizationError else TypeError
      | _ => AuthorizationError
      end.
Proof.
  apply (wrong_signature_is_never_consumed ForgerySamples.forged_world 1%nat
           (FCSamples.flip_enforceable ConsumeSamples.signed_receipt)).
  - reflexivity.
  - intros H. vm_compute in H. discriminate H.
Defined.

End Forgery.

(** ** Executor: the mode strings *)

Section Modes.
Import Py Publisher PublisherExt.

Lemma mode_test (m : string) :
  existsb (String.eqb m) [mode_value PROD; mode_value DRY_RUN] = true
  <-> m = "prod" \/ m = "dry_run".
Proof.
  cbn [existsb mode_value]. rewrite orb_false_r, orb_true_iff, !String.eqb_eq.
  reflexivity.
Qed.

(** The mode strings are matched exactly and case-sensitively: the
    constructor returns a publisher, in that mode and with empty records,
    exactly for prod and dry_run, and [validate_mode] accepts a request
    exactly for these two; every other string raises a
    ModeViolationError that quotes it. *)
Theorem mode_strings_are_exact (token m : string) (recovery : bool)
  (req : GithubOperationRequest) :
  (m = "prod" \/ m = "dry_run" ->
   exists p, init token m recovery = Return p /\ mode p = m /\
             audit_records p = [] /\ consumed_receipts p = ∅ /\
             request_times p = []) /\
  (~ (m = "prod" \/ m = "dry_run") ->
   init token m recovery
   = Raise (mk_exn ModeViolationError
              ("Invalid mode '" +:+ m +:+ "'. Must be exactly 'prod' or 'dry_run'."))) /\
  (req_mode req = "prod" \/ req_mode req = "dry_run" -> validate_mode req = Return tt) /\
  (~ (req_mode req = "prod" \/ req_mode req = "dry_run") ->
   validate_mode req
   = Raise (mk_exn ModeViolationError
              ("Invalid mode '" +:+ req_mode req
               +:+ "'. Must be exactly 'prod' or 'dry_run'"))).
Proof.
  unfold init, validate_mode. split; [|split; [|split]].
  - intros H. apply mode_test in H. rewrite H. cbn [negb].
    eexists. repeat split.
  - intros H. rewrite <- mode_test in H. apply not_true_is_false in H.
    now rewrite H.
  - intros H. apply mode_test in H. now rewrite H.
  - intros H. rewrite <- mode_test in H. apply not_true_is_false in H.
    now rewrite H.
Qed.

End Modes.
